(** * The PPO mutation-strategy agent of the fuzzing framework

    A shallow embedding of [ppo_agent.py], of the reward of
    [feedback_analyzer.py], of [AFLWrapper.get_metrics] and of the control
    loop of [ExperimentRunner.run_ppo_enhanced], with the properties the
    design document states about them.

    Numbers.  The Python code computes with [float] (binary64) and, inside
    tensors, with 32-bit floats.  The embedding is written once over an
    interface [Arith] of the arithmetic the code uses and is instantiated
    twice: at [R] (exact arithmetic, where the algebraic statements are
    proved) and at the kernel's binary64 [float] (where the definitions run
    bit for bit as the Python expressions do).  Python [int]s stored in a
    metrics dictionary are embedded with [of_Z]: a counter is taken to be
    small enough to convert to [float], as the arithmetic of the code does
    with it.  (Python adds and subtracts two [int]s exactly, whatever their
    size, and raises [OverflowError] when an [int] beyond the binary64 range
    meets a [float]; counters of that size are outside the embedding.)

    Dictionaries are [gmap string _]; [d.get(k, v)] is [get], [d[k]] is
    [getitem], which raises [KeyError].  Exceptions are values of [result]. *)

From Stdlib Require Import ZArith List Ascii String Reals Lra Lia Floats Uint63.
From stdpp Require Import gmap strings list fin_maps.

Set Default Proof Using "Type".
Set Warnings "-inexact-float".

(** ** Arithmetic interface *)

Class Arith (F : Type) := {
  of_Z : Z -> F;              (* an [int], or a literal with an integral value *)
  add : F -> F -> F;
  sub : F -> F -> F;
  mul : F -> F -> F;
  div : F -> F -> F;          (* true division by a non-zero literal or a tensor *)
  fsqrt : F -> F;
  feqb : F -> F -> bool;      (* [==] *)
  f32 : F -> F                (* conversion to a 32-bit tensor element *)
}.

Declare Scope arith_scope.
Delimit Scope arith_scope with A.
Infix "+" := add : arith_scope.
Infix "-" := sub : arith_scope.
Infix "*" := mul : arith_scope.
Infix "/" := div : arith_scope.

(** The decimal literal [m]e-[k], e.g. [dec 1 8] for [1e-8].  At binary64 both
    operands are exact, so the quotient is the correctly rounded literal. *)
Definition dec `{Arith F} (m : Z) (k : nat) : F :=
  (of_Z m / of_Z (10 ^ Z.of_nat k))%A.

(** Exact arithmetic: no rounding, so the tensor conversion is the identity. *)
#[global] Instance R_arith : Arith R := {|
  of_Z := IZR;
  add := Rplus; sub := Rminus; mul := Rmult; div := Rdiv;
  fsqrt := R_sqrt.sqrt;
  feqb := fun x y => if Req_dec_T x y then true else false;
  f32 := fun x => x
|}.

(** Python's [float]. *)
Definition float_of_Z (z : Z) : float :=
  if (z <? 0)%Z then PrimFloat.opp (PrimFloat.of_uint63 (Uint63.of_Z (- z)))
  else PrimFloat.of_uint63 (Uint63.of_Z z).

(** Rounding of a binary64 to the nearest binary32 (24-bit significand,
    exponents up to 128), kept as a binary64. *)
Definition float_to_f32 (x : float) : float :=
  SF2Prim (SFmul 24 128 (Prim2SF x) (Prim2SF 1%float)).

#[global] Instance float_arith : Arith float := {|
  of_Z := float_of_Z;
  add := PrimFloat.add; sub := PrimFloat.sub;
  mul := PrimFloat.mul; div := PrimFloat.div;
  fsqrt := PrimFloat.sqrt;
  feqb := PrimFloat.eqb;
  f32 := float_to_f32
|}.

(** ** Exceptions and dictionaries *)

Inductive exn : Type :=
  | KeyError (key : string)
  | ValueError
  | ZeroDivisionError.

Inductive result (A : Type) : Type :=
  | Ok (a : A)
  | Raise (e : exn).
Arguments Ok {A} a.
Arguments Raise {A} e.

(** Sequencing: an exception ends the computation.  [x ← r; k] is stdpp's
    notation for [mbind]. *)
#[global] Instance result_bind : MBind result := fun A B k r =>
  match r with
  | Ok a => k a
  | Raise e => Raise e
  end.
#[global] Instance result_ret : MRet result := fun A a => Ok a.

(** [d.get(k, dflt)] *)
Definition get {V} (d : gmap string V) (k : string) (dflt : V) : V :=
  default dflt (d !! k).

(** [d[k]] *)
Definition getitem {V} (d : gmap string V) (k : string) : result V :=
  match d !! k with
  | Some v => Ok v
  | None => Raise (KeyError k)
  end.

(** ** Configuration

    The [ppo] section of the YAML file.  The scalar entries are read by
    [PPOAgent.__init__] or by [update]; [reward_weights] is the nested
    dictionary that [compute_reward] indexes key by key.  [hidden_layers] and
    [learning_rate] only reach the network and the optimizer, which are
    parameters of this development.

    The record is a configuration that defines every one of these keys.
    The code reads [batch_size] (in [update]), [update_interval] (in the
    control loop) and [reward_weights] (in [compute_reward]) by subscript at
    the time of use, so a file that lacks one of them raises [KeyError]
    there; such files are outside the record, and what is proved about
    exceptions is proved for configurations that define these keys. *)

Record config (F : Type) := {
  gamma : F;
  epsilon_clip : F;
  epochs : Z;
  entropy_coefficient : F;
  batch_size : Z;
  update_interval : Z;
  reward_weights : gmap string F
}.
Arguments gamma {F} _.
Arguments epsilon_clip {F} _.
Arguments epochs {F} _.
Arguments entropy_coefficient {F} _.
Arguments batch_size {F} _.
Arguments update_interval {F} _.
Arguments reward_weights {F} _.

(** ** State encoder and reward ([ppo_agent.py]) *)

Section Pure.
Context `{Arith F}.
Local Open Scope arith_scope.

(** [PPOAgent.get_state_vector]: five entries, each converted by
    [dtype=np.float32]. *)
Definition get_state_vector (metrics : gmap string F) : list F :=
  map f32
    [ get metrics "coverage_rate" (of_Z 0);
      get metrics "crash_count" (of_Z 0) / of_Z 100;
      get metrics "exec_speed" (of_Z 0) / of_Z 1000;
      get metrics "queue_size" (of_Z 0) / of_Z 1000;
      get metrics "unique_paths" (of_Z 0) / of_Z 10000 ].

(** [PPOAgent.compute_reward], in Python's order of evaluation. *)
Definition compute_reward (cfg : config F)
    (prev_metrics curr_metrics : gmap string F) : result F :=
  let weights := reward_weights cfg in
  c ← getitem curr_metrics "coverage_rate";
  let coverage_delta := c - get prev_metrics "coverage_rate" (of_Z 0) in
  w ← getitem weights "coverage_increase";
  let coverage_reward := w * coverage_delta in
  c ← getitem curr_metrics "crash_count";
  let crash_delta := c - get prev_metrics "crash_count" (of_Z 0) in
  w ← getitem weights "unique_crash";
  let crash_reward := w * crash_delta in
  w ← getitem weights "execution_speed";
  c ← getitem curr_metrics "exec_speed";
  let speed_reward := w * (c / of_Z 1000) in
  c ← getitem curr_metrics "unique_paths";
  let path_delta := c - get prev_metrics "unique_paths" (of_Z 0) in
  w ← getitem weights "path_diversity";
  let path_reward := w * (path_delta / of_Z 100) in
  let total_reward := coverage_reward + crash_reward + speed_reward + path_reward in
  Ok total_reward.

(** [FeedbackAnalyzer._calculate_reward]: the monitoring variant, with its
    own constants and the stagnation penalty. *)
Definition _calculate_reward (prev curr : gmap string F) : result F :=
  let reward := of_Z 0 in
  c ← getitem curr "coverage_rate";
  p ← getitem prev "coverage_rate";
  let coverage_delta := c - p in
  let reward := reward + coverage_delta * of_Z 1 in
  c ← getitem curr "crash_count";
  p ← getitem prev "crash_count";
  let crash_delta := c - p in
  let reward := reward + crash_delta * of_Z 10 in
  c ← getitem curr "exec_speed";
  let speed_reward := (c / of_Z 100) * dec 1 1 in
  let reward := reward + speed_reward in
  c ← getitem curr "unique_paths";
  p ← getitem prev "unique_paths";
  let path_delta := c - p in
  let reward := reward + (path_delta / of_Z 100) * dec 5 1 in
  let reward :=
    if feqb coverage_delta (of_Z 0) && feqb path_delta (of_Z 0)
    then reward - dec 1 1 else reward in
  Ok reward.
End Pure.

(** ** The agent ([PPOAgent])

    The network and its optimizer are torch objects.  Their state is a value
    of an abstract type [M]; the two places where the agent runs them are
    parameters:
    - [sample m state g]: the forward pass under [torch.no_grad()] and the
      draw from the categorical distribution of [select_action], with the
      random generator [g] threaded through;
    - [ppo_epoch cfg m batch]: one iteration of the epoch loop of [update]
      (forward pass, clipped surrogate, critic and entropy terms,
      [zero_grad], [backward], gradient clipping, [optimizer.step()]),
      returning the stepped model and [loss.item()].

    [self.buffer] is a dictionary with six fixed keys, each bound to a list:
    a record of six lists.  [self.gamma] and [self.epochs] are copies of
    configuration entries and are read from [cfg].  Tensor arithmetic is the
    interface's; the conversions [torch.FloatTensor(...)] are [f32]. *)

Record buffer (F : Type) := {
  states : list (list F);
  actions : list Z;
  rewards : list F;
  log_probs : list F;
  values : list F;
  dones : list bool
}.
Arguments states {F} _.
Arguments actions {F} _.
Arguments rewards {F} _.
Arguments log_probs {F} _.
Arguments values {F} _.
Arguments dones {F} _.

(** What [update] hands to the epoch loop: the tensors built from the buffer. *)
Record batch (F : Type) := {
  b_states : list (list F);
  b_actions : list Z;
  b_old_log_probs : list F;
  b_advantages : list F;
  b_returns : list F
}.
Arguments b_states {F} _.
Arguments b_actions {F} _.
Arguments b_old_log_probs {F} _.
Arguments b_advantages {F} _.
Arguments b_returns {F} _.

Record agent (F M : Type) := {
  cfg : config F;
  policy : M;
  buf : buffer F
}.
Arguments cfg {F M} _.
Arguments policy {F M} _.
Arguments buf {F M} _.

Section Tensor.
Context `{Arith F}.
Local Open Scope arith_scope.

(** [t.sum()], [t.mean()] and [t.std()] (Bessel's correction, torch's
    default) of a one-dimensional tensor, summed left to right. *)
Definition tsum (t : list F) : F := fold_left add t (of_Z 0).
Definition tmean (t : list F) : F := tsum t / of_Z (Z.of_nat (length t)).
Definition tstd (t : list F) : F :=
  let m := tmean t in
  fsqrt (tsum (map (fun x => (x - m) * (x - m)) t)
         / of_Z (Z.of_nat (length t) - 1)).

(** [(advantages - advantages.mean()) / (advantages.std() + 1e-8)] *)
Definition standardize (advantages : list F) : list F :=
  let m := tmean advantages in
  let s := tstd advantages in
  map (fun a => (a - m) / (s + dec 1 8)) advantages.
End Tensor.

Section Agent.
Context `{Arith F}.
Context {M G : Type}.
Variable sample : M -> list F -> G -> (Z * F * F) * G.
Variable ppo_epoch : config F -> M -> batch F -> M * F.
Local Open Scope arith_scope.

Definition empty_buffer : buffer F :=
  {| states := []; actions := []; rewards := [];
     log_probs := []; values := []; dones := [] |}.

(** [PPOAgent.__init__]; [m0] is the freshly initialised network and Adam
    optimizer. *)
Definition init (c : config F) (m0 : M) : agent F M :=
  {| cfg := c; policy := m0; buf := empty_buffer |}.

(** [PPOAgent.select_action] *)
Definition select_action (a : agent F M) (state : list F) (g : G)
  : (Z * F * F) * G :=
  sample (policy a) state g.

(** [PPOAgent.store_transition] *)
Definition store_transition (a : agent F M)
    (state : list F) (action : Z) (reward log_prob value : F) (done : bool)
  : agent F M :=
  let b := buf a in
  {| cfg := cfg a; policy := policy a;
     buf := {| states := states b ++ [state];
               actions := actions b ++ [action];
               rewards := rewards b ++ [reward];
               log_probs := log_probs b ++ [log_prob];
               values := values b ++ [value];
               dones := dones b ++ [done] |} |}.

(** [PPOAgent.clear_buffer]: every key of the dictionary is rebound to a
    new empty list. *)
Definition clear_buffer (a : agent F M) : agent F M :=
  {| cfg := cfg a; policy := policy a; buf := empty_buffer |}.

(** [PPOAgent._compute_returns]: the loop over
    [zip(reversed(rewards), reversed(dones))], with [returns.insert(0, R)]. *)
Definition returns_step (gam : F) (acc : F * list F) (rd : F * bool)
  : F * list F :=
  let '(R, returns) := acc in
  let '(reward, done) := rd in
  let R := if done then of_Z 0 else R in
  let R := reward + gam * R in
  (R, R :: returns).

Definition _compute_returns (a : agent F M) : list F :=
  snd (fold_left (returns_step (gamma (cfg a)))
         (zip (rev (rewards (buf a))) (rev (dones (buf a))))
         (of_Z 0, [])).

(** The epoch loop of [update]: [for _ in range(self.epochs)]. *)
Fixpoint epoch_loop (n : nat) (c : config F) (bt : batch F)
    (m : M) (total_loss : F) : M * F :=
  match n with
  | O => (m, total_loss)
  | S n' =>
      let '(m', loss) := ppo_epoch c m bt in
      epoch_loop n' c bt m' (total_loss + loss)
  end.

(** [PPOAgent.update], the lines between the size test and the epoch loop:
    the tensors made from the buffer, the returns, and the standardized
    advantages. *)
Definition update_batch (a : agent F M) : batch F :=
  let returns := map f32 (_compute_returns a) in
  let vals := map f32 (values (buf a)) in
  let advantages := zip_with sub returns vals in
  let advantages := standardize advantages in
  {| b_states := map (map f32) (states (buf a));
     b_actions := actions (buf a);
     b_old_log_probs := map f32 (log_probs (buf a));
     b_advantages := advantages;
     b_returns := returns |}.

(** [PPOAgent.update].  The second component is the returned loss, or the
    exception of [total_loss / self.epochs]. *)
Definition update (a : agent F M) : agent F M * result F :=
  if (Z.of_nat (length (states (buf a))) <? batch_size (cfg a))%Z
  then (a, Ok (of_Z 0))
  else
    let bt := update_batch a in
    let '(m, total_loss) :=
      epoch_loop (Z.to_nat (epochs (cfg a))) (cfg a) bt (policy a) (of_Z 0) in
    let a := clear_buffer {| cfg := cfg a; policy := m; buf := buf a |} in
    if (epochs (cfg a) =? 0)%Z
    then (a, Raise ZeroDivisionError)
    else (a, Ok (total_loss / of_Z (epochs (cfg a)))).

(** The losses of the successive epochs and the model they leave, each
    epoch starting from the model the one before it stepped to. *)
Fixpoint epoch_losses (n : nat) (c : config F) (bt : batch F) (m : M)
  : list F :=
  match n with
  | O => []
  | S n' => let '(m', loss) := ppo_epoch c m bt in
            loss :: epoch_losses n' c bt m'
  end.

Fixpoint epoch_model (n : nat) (c : config F) (bt : batch F) (m : M) : M :=
  match n with
  | O => m
  | S n' => epoch_model n' c bt (fst (ppo_epoch c m bt))
  end.

(** The six sequences of a buffer have one length. *)
Definition buffer_wf (b : buffer F) : Prop :=
  length (actions b) = length (states b) /\
  length (rewards b) = length (states b) /\
  length (log_probs b) = length (states b) /\
  length (values b) = length (states b) /\
  length (dones b) = length (states b).
End Agent.

(** ** Telemetry ([afl_wrapper.py]) *)

(** What [AFLWrapper.get_stats] finds on disk.  [Readable stats] carries the
    [key : value] lines that were read (all of them, or those read before an
    error that the [except] clause swallowed). *)
Inductive stats_file : Type :=
  | Missing
  | Unreadable
  | Readable (stats : gmap string string).

(** [AFLWrapper.get_stats] *)
Definition get_stats (f : stats_file) : gmap string string :=
  match f with
  | Missing => ∅
  | Unreadable => ∅
  | Readable stats => stats
  end.

(** [s.rstrip('%')], on the reversed list of characters. *)
Fixpoint drop_percent (l : list ascii) : list ascii :=
  match l with
  | c :: l' => if Ascii.eqb c "%"%char then drop_percent l' else l
  | [] => []
  end.

Definition rstrip_percent (s : string) : string :=
  string_of_list_ascii (rev (drop_percent (rev (list_ascii_of_string s)))).

Section Telemetry.
Context `{Arith F}.
(** [int(s)] and [float(s)] on a string; [None] is [ValueError]. *)
Variable py_int : string -> option Z.
Variable py_float : string -> option F.

Definition parse_int (stats : gmap string string) (k : string) : result F :=
  match stats !! k with
  | None => Ok (of_Z 0)
  | Some s => match py_int s with
              | Some z => Ok (of_Z z)
              | None => Raise ValueError
              end
  end.

Definition parse_float (stats : gmap string string) (k : string) : result F :=
  match stats !! k with
  | None => Ok (of_Z 0)
  | Some s => match py_float s with
              | Some x => Ok x
              | None => Raise ValueError
              end
  end.

(** [AFLWrapper._parse_coverage]: the bare [except] turns a failed
    conversion into [0.0]. *)
Definition _parse_coverage (stats : gmap string string) : F :=
  let bitmap_cvg := get stats "bitmap_cvg" "0.00%" in
  match py_float (rstrip_percent bitmap_cvg) with
  | Some x => x
  | None => of_Z 0
  end.

Definition zero_metrics : gmap string F :=
  <["coverage_rate" := of_Z 0]> (<["crash_count" := of_Z 0]> (
  <["exec_speed" := of_Z 0]> (<["queue_size" := of_Z 0]> (
  <["unique_paths" := of_Z 0]> (<["pending_paths" := of_Z 0]> (
  <["runtime" := of_Z 0]> ∅)))))).

(** [AFLWrapper.get_metrics]; [runtime] is the value of
    [int(time.time() - self.start_time) if self.start_time else 0]. *)
Definition get_metrics (f : stats_file) (runtime : Z)
  : result (gmap string F) :=
  let stats := get_stats f in
  if decide (stats = ∅) then Ok zero_metrics
  else
    let coverage_rate := _parse_coverage stats in
    crash_count ← parse_int stats "unique_crashes";
    exec_speed ← parse_float stats "execs_per_sec";
    queue_size ← parse_int stats "paths_total";
    unique_paths ← parse_int stats "paths_found";
    pending_paths ← parse_int stats "pending_total";
    Ok (<["coverage_rate" := coverage_rate]> (<["crash_count" := crash_count]> (
        <["exec_speed" := exec_speed]> (<["queue_size" := queue_size]> (
        <["unique_paths" := unique_paths]> (<["pending_paths" := pending_paths]> (
        <["runtime" := of_Z runtime]> ∅))))))).
End Telemetry.

(** ** The control loop ([ExperimentRunner.run_ppo_enhanced]) *)

Record loop_state (F M G : Type) := {
  ppo : agent F M;
  rng : G;
  prev_metrics : option (gmap string F);
  ppo_update_counter : Z;
  history : list (gmap string F);   (* snapshots given to [record_metrics] *)
  applied : list Z                  (* actions given to [apply_mutation_strategy] *)
}.
Arguments ppo {F M G} _.
Arguments rng {F M G} _.
Arguments prev_metrics {F M G} _.
Arguments ppo_update_counter {F M G} _.
Arguments history {F M G} _.
Arguments applied {F M G} _.

(** What one pass of the [while] body reads from the outside world: the
    stats file, the fuzzer's runtime, and the value of
    [(time.time() - start_time) >= duration] when the transition is stored. *)
Record tick_input := {
  telemetry : stats_file;
  runtime : Z;
  done_now : bool
}.

Section Loop.
Context `{Arith F}.
Context {M G : Type}.
Variable sample : M -> list F -> G -> (Z * F * F) * G.
Variable ppo_epoch : config F -> M -> batch F -> M * F.
Variable py_int : string -> option Z.
Variable py_float : string -> option F.

Local Abbreviation state := (loop_state F M G).

(** The state after [PPOAgent(self.ppo_config)] and the assignments before
    the [try]. *)
Definition start (c : config F) (m0 : M) (g : G) : state :=
  {| ppo := init c m0; rng := g; prev_metrics := None;
     ppo_update_counter := 0; history := []; applied := [] |}.

(** The body of the [while] loop after [time.sleep].  An exception leaves
    the state as it was when it was raised. *)
Definition tick (s : state) (i : tick_input) : state * result unit :=
  match get_metrics py_int py_float (telemetry i) (runtime i) with
  | Raise e => (s, Raise e)
  | Ok curr_metrics =>
    let hist := history s ++ [curr_metrics] in
    match prev_metrics s with
    | None =>
        ({| ppo := ppo s; rng := rng s; prev_metrics := Some curr_metrics;
            ppo_update_counter := ppo_update_counter s;
            history := hist; applied := applied s |}, Ok tt)
    | Some prev =>
        let st := get_state_vector curr_metrics in
        let '((action, log_prob, value), g) :=
          select_action sample (ppo s) st (rng s) in
        let app := applied s ++ [action] in
        match compute_reward (cfg (ppo s)) prev curr_metrics with
        | Raise e =>
            ({| ppo := ppo s; rng := g; prev_metrics := prev_metrics s;
                ppo_update_counter := ppo_update_counter s;
                history := hist; applied := app |}, Raise e)
        | Ok reward =>
            let a := store_transition (ppo s) st action reward log_prob value
                       (done_now i) in
            let counter := (ppo_update_counter s + 1)%Z in
            if (counter >=? update_interval (cfg a))%Z then
              match update ppo_epoch a with
              | (a', Raise e) =>
                  ({| ppo := a'; rng := g; prev_metrics := prev_metrics s;
                      ppo_update_counter := counter;
                      history := hist; applied := app |}, Raise e)
              | (a', Ok _) =>
                  ({| ppo := a'; rng := g; prev_metrics := Some curr_metrics;
                      ppo_update_counter := 0;
                      history := hist; applied := app |}, Ok tt)
              end
            else
              ({| ppo := a; rng := g; prev_metrics := Some curr_metrics;
                  ppo_update_counter := counter;
                  history := hist; applied := app |}, Ok tt)
        end
    end
  end.

(** The [while] loop over the passes that happen before the duration
    elapses or the user interrupts; an exception of a pass ends it. *)
Fixpoint ticks (s : state) (inputs : list tick_input) : state * result unit :=
  match inputs with
  | [] => (s, Ok tt)
  | i :: rest =>
      match tick s i with
      | (s', Ok _) => ticks s' rest
      | (s', Raise e) => (s', Raise e)
      end
  end.

(** The [finally] clause up to [save_model]: the final update, then the
    checkpoint, which is the model that [torch.save] writes.  No
    checkpoint is written when the final update raises. *)
Definition final_update (s : state) : state * result (option F) :=
  if (0 <? Z.of_nat (length (states (buf (ppo s)))))%Z then
    match update ppo_epoch (ppo s) with
    | (a', r) =>
        ({| ppo := a'; rng := rng s; prev_metrics := prev_metrics s;
            ppo_update_counter := ppo_update_counter s;
            history := history s; applied := applied s |},
         loss ← r; Ok (Some loss))
    end
  else (s, Ok None).

Definition finally_clause (s : state) : state * option M :=
  match final_update s with
  | (s', Ok _) => (s', Some (policy (ppo s')))
  | (s', Raise _) => (s', None)
  end.

(** [run_ppo_enhanced] from the [try] on: the state when the function
    leaves and the checkpoint on disk, if one was written. *)
Definition run_ppo_enhanced (c : config F) (m0 : M) (g : G)
    (inputs : list tick_input) : state * option M :=
  finally_clause (fst (ticks (start c m0 g) inputs)).
End Loop.

(** ** The recursion for the returns, as the design document words it *)

Section ReturnsSpec.
Context `{Arith F}.
Local Open Scope arith_scope.

(** Read front to back: the return at an index is its reward plus [gam]
    times the return that follows it, and nothing follows a transition
    flagged [done] or the last one. *)
Fixpoint backward_returns (gam : F) (rewards : list F) (dones : list bool)
  : list F :=
  match rewards, dones with
  | r :: rs, d :: ds =>
      let rest := backward_returns gam rs ds in
      (r + gam * (if d then of_Z 0 else hd (of_Z 0) rest)) :: rest
  | _, _ => []
  end.
End ReturnsSpec.

(** ** Concrete data for the worked examples *)

Section Examples.
Context `{Arith F}.

(** A configuration with discount [0.5], two epochs and a batch of two. *)
Definition example_config : config F :=
  {| gamma := dec 5 1;
     epsilon_clip := dec 2 1;
     epochs := 2;
     entropy_coefficient := dec 1 2;
     batch_size := 2;
     update_interval := 10;
     reward_weights :=
       <["coverage_increase" := of_Z 1]> (<["unique_crash" := of_Z 10]> (
       <["execution_speed" := of_Z 1]> (<["path_diversity" := dec 5 1]> ∅))) |}.

(** Rewards [1, 1, 1] with flags [False, False, True], stored one transition
    at a time; the network plays no part and is [tt]. *)
Definition returns_example_agent : agent F unit :=
  let st := [of_Z 0; of_Z 0; of_Z 0; of_Z 0; of_Z 0] in
  let a := init example_config tt in
  let a := store_transition a st 0 (of_Z 1) (of_Z 0) (of_Z 0) false in
  let a := store_transition a st 0 (of_Z 1) (of_Z 0) (of_Z 0) false in
  store_transition a st 0 (of_Z 1) (of_Z 0) (of_Z 0) true.
End Examples.

(** ** Well-formed dictionaries *)

(** The fields of a telemetry snapshot, the fields of it that
    [compute_reward] indexes in [curr_metrics], and the reward weights. *)
Definition snapshot_fields : list string :=
  ["coverage_rate"; "crash_count"; "exec_speed"; "queue_size";
   "unique_paths"; "pending_paths"; "runtime"].

Definition reward_fields : list string :=
  ["coverage_rate"; "crash_count"; "exec_speed"; "unique_paths"].

Definition weight_names : list string :=
  ["coverage_increase"; "unique_crash"; "execution_speed"; "path_diversity"].

(** [all(k in d for k in ks)] *)
Definition has_keys {V} (ks : list string) (d : gmap string V) : bool :=
  forallb (fun k => bool_decide (is_Some (d !! k))) ks.

(** The first key of [ks] that [d] lacks. *)
Fixpoint first_missing {V} (ks : list string) (d : gmap string V)
  : option string :=
  match ks with
  | [] => None
  | k :: ks' => if bool_decide (is_Some (d !! k)) then first_missing ks' d
                else Some k
  end.

(** A previous and a current snapshot that differ in nothing the reward
    looks at except the crash count: coverage and paths stagnate. *)
Section RewardExamples.
Context `{Arith F}.

Definition snapshot (coverage_rate crash_count exec_speed queue_size
    unique_paths pending_paths runtime : F) : gmap string F :=
  <["coverage_rate" := coverage_rate]> (<["crash_count" := crash_count]> (
  <["exec_speed" := exec_speed]> (<["queue_size" := queue_size]> (
  <["unique_paths" := unique_paths]> (<["pending_paths" := pending_paths]> (
  <["runtime" := runtime]> ∅)))))).

Definition stagnant_prev : gmap string F :=
  snapshot (of_Z 10) (of_Z 1) (of_Z 400) (of_Z 30) (of_Z 20) (of_Z 5) (of_Z 60).

Definition stagnant_curr : gmap string F :=
  snapshot (of_Z 10) (of_Z 1) (of_Z 500) (of_Z 30) (of_Z 20) (of_Z 5) (of_Z 120).
End RewardExamples.

(** The fields that [get_state_vector] reads, in the order of its entries. *)
Definition state_fields : list string :=
  ["coverage_rate"; "crash_count"; "exec_speed"; "queue_size"; "unique_paths"].

(** A dictionary whose crash count is negative. *)
Definition negative_metrics `{Arith F} : gmap string F :=
  <["crash_count" := of_Z (-50)]> ∅.

(** Stand-ins for torch in the worked examples.  The model is the number of
    optimizer steps taken so far; an epoch takes one step and reports that
    number as its loss; sampling picks action [3] with log-probability [-1.5]
    and value [0.25], and counts the draws in the generator. *)
Section Stubs.
Context `{Arith F}.

Definition stub_epoch (c : config F) (m : Z) (bt : batch F) : Z * F :=
  ((m + 1)%Z, of_Z (m + 1)).

Definition stub_sample (m : Z) (state : list F) (g : nat)
  : (Z * F * F) * nat :=
  ((3%Z, sub (of_Z 0) (dec 15 1), dec 25 2), S g).

(** One stored transition, then two; [example_config] asks for a batch of
    two. *)
Definition one_transition_agent : agent F Z :=
  store_transition (init example_config 0%Z)
    [of_Z 0; of_Z 0; of_Z 0; of_Z 0; of_Z 0] 3 (dec 5 1)
    (sub (of_Z 0) (dec 15 1)) (dec 25 2) false.

Definition two_transition_agent : agent F Z :=
  store_transition one_transition_agent
    [of_Z 0; of_Z 0; of_Z 0; of_Z 0; of_Z 0] 3 (of_Z 1)
    (sub (of_Z 0) (dec 15 1)) (dec 25 2) true.
End Stubs.

(** Two transitions whose returns exceed the stored values by the same
    amount: both end an episode with reward [1] and value [0.25]. *)
Definition equal_advantages_agent `{Arith F} : agent F Z :=
  let st := [of_Z 0; of_Z 0; of_Z 0; of_Z 0; of_Z 0] in
  let a := init example_config 0%Z in
  let a := store_transition a st 3 (of_Z 1) (sub (of_Z 0) (dec 15 1)) (dec 25 2) true in
  store_transition a st 3 (of_Z 1) (sub (of_Z 0) (dec 15 1)) (dec 25 2) true.

(** Stand-ins for [int(s)] and [float(s)] in the worked examples: they read
    unsigned decimal integers and reject every other string. *)
Definition digit_value (c : ascii) : option Z :=
  let n := nat_of_ascii c in
  if (48 <=? n)%nat && (n <=? 57)%nat then Some (Z.of_nat (n - 48)) else None.

Fixpoint parse_digits (l : list ascii) (acc : Z) : option Z :=
  match l with
  | [] => Some acc
  | c :: l' =>
      match digit_value c with
      | Some d => parse_digits l' (10 * acc + d)%Z
      | None => None
      end
  end.

Definition stub_int (s : string) : option Z :=
  match list_ascii_of_string s with
  | [] => None
  | l => parse_digits l 0
  end.

Definition stub_float `{Arith F} (s : string) : option F :=
  of_Z <$> stub_int s.

(** A campaign of two passes.  The first pass reads a stats file and only
    fills [prev_metrics]; the second reads a later one and stores the single
    transition of the run.  In the variant, the stats file has disappeared by
    the second pass. *)
Definition first_stats : gmap string string :=
  <["bitmap_cvg" := "12%"]> (<["unique_crashes" := "1"]> (
  <["execs_per_sec" := "1500"]> (<["paths_total" := "90"]> (
  <["paths_found" := "40"]> (<["pending_total" := "7"]> ∅))))).

Definition second_stats : gmap string string :=
  <["bitmap_cvg" := "14%"]> (<["unique_crashes" := "2"]> (
  <["execs_per_sec" := "1000"]> (<["paths_total" := "95"]> (
  <["paths_found" := "60"]> (<["pending_total" := "7"]> ∅))))).

Definition first_pass : tick_input :=
  {| telemetry := Readable first_stats; runtime := 60; done_now := false |}.

Definition second_pass : tick_input :=
  {| telemetry := Readable second_stats; runtime := 120; done_now := true |}.


Definition short_campaign : loop_state float Z nat * option Z :=
  run_ppo_enhanced stub_sample stub_epoch stub_int stub_float
    example_config 0%Z 0%nat [first_pass; second_pass].



(** ** Further code: what [compute_reward] reads of the previous snapshot *)

Definition prev_fields : list string :=
  ["coverage_rate"; "crash_count"; "unique_paths"].

(** Two episodes in one buffer: the three transitions of
    [returns_example_agent], the last of which ends an episode, followed by
    the two transitions of a second episode, which are also stored alone. *)
Section EpisodeExamples.
Context `{Arith F}.

Definition second_episode_agent : agent F unit :=
  let st := [of_Z 0; of_Z 0; of_Z 0; of_Z 0; of_Z 0] in
  let a := init example_config tt in
  let a := store_transition a st 1 (of_Z 4) (of_Z 0) (of_Z 0) false in
  store_transition a st 2 (of_Z 8) (of_Z 0) (of_Z 0) false.

Definition two_episode_agent : agent F unit :=
  let st := [of_Z 0; of_Z 0; of_Z 0; of_Z 0; of_Z 0] in
  let a := returns_example_agent in
  let a := store_transition a st 1 (of_Z 4) (of_Z 0) (of_Z 0) false in
  store_transition a st 2 (of_Z 8) (of_Z 0) (of_Z 0) false.
End EpisodeExamples.

(** [two_transition_agent] with a critic whose estimates are all higher by
    one. *)
Definition biased_two_transition_agent `{Arith F} : agent F Z :=
  let st := [of_Z 0; of_Z 0; of_Z 0; of_Z 0; of_Z 0] in
  let a := init example_config 0%Z in
  let a := store_transition a st 3 (dec 5 1) (sub (of_Z 0) (dec 15 1))
             (add (dec 25 2) (of_Z 1)) false in
  store_transition a st 3 (of_Z 1) (sub (of_Z 0) (dec 15 1))
    (add (dec 25 2) (of_Z 1)) true.

(** ** Further code: the feedback analyzer ([feedback_analyzer.py])

    Comparison of numbers: [x < y] is [fltb x y], so Python's [x > y] is
    [fltb y x]. *)

Class ArithOrd (F : Type) := { fltb : F -> F -> bool }.

#[global] Instance R_ord : ArithOrd R :=
  {| fltb := fun x y => if Rlt_dec x y then true else false |}.

#[global] Instance float_ord : ArithOrd float := {| fltb := PrimFloat.ltb |}.

Section Analyzer.
Context `{Arith F} `{ArithOrd F}.

(** [FeedbackAnalyzer._check_termination] *)
Definition _check_termination (metrics : gmap string F) : bool := false.

(** [FeedbackAnalyzer.analyze].  The state of the analyzer is
    [self.previous_metrics], [None] after construction and after [reset]; an
    exception of [_calculate_reward] leaves it as it was.  The state is the
    dictionary as it reads when the call is made: this describes one call.
    Which dictionary the analyzer shares with its caller between calls is
    the matter of [analyze_shared] below. *)
Definition analyze (previous_metrics : option (gmap string F))
    (current_metrics : gmap string F)
  : option (gmap string F) * result (gmap string F * F * bool) :=
  match previous_metrics with
  | None => (Some current_metrics, Ok (current_metrics, of_Z 0, false))
  | Some prev =>
      match _calculate_reward prev current_metrics with
      | Raise e => (previous_metrics, Raise e)
      | Ok reward =>
          let done := _check_termination current_metrics in
          (Some current_metrics, Ok (current_metrics, reward, done))
      end
  end.

(** [FeedbackAnalyzer.reset] *)
Definition reset (previous_metrics : option (gmap string F))
  : option (gmap string F) := None.

(** [FeedbackAnalyzer.get_state_features] *)
Definition get_state_features (metrics : gmap string F)
  : result (gmap string F) :=
  coverage_rate ← getitem metrics "coverage_rate";
  crash_count ← getitem metrics "crash_count";
  exec_speed ← getitem metrics "exec_speed";
  queue_size ← getitem metrics "queue_size";
  unique_paths ← getitem metrics "unique_paths";
  Ok (<["coverage_rate" := coverage_rate]> (<["crash_count" := crash_count]> (
      <["exec_speed" := exec_speed]> (<["queue_size" := queue_size]> (
      <["unique_paths" := unique_paths]> ∅))))).

(** [FeedbackAnalyzer.detect_interesting_input] *)
Definition detect_interesting_input
    (previous_metrics : option (gmap string F)) (metrics : gmap string F)
  : result bool :=
  match previous_metrics with
  | None => Ok false
  | Some prev =>
      c ← getitem metrics "coverage_rate";
      p ← getitem prev "coverage_rate";
      let coverage_increased := fltb p c in
      c ← getitem metrics "crash_count";
      p ← getitem prev "crash_count";
      let new_crash := fltb p c in
      c ← getitem metrics "unique_paths";
      p ← getitem prev "unique_paths";
      let new_paths := fltb p c in
      Ok (coverage_increased || new_crash || new_paths)
  end.
End Analyzer.

(** ** Further code: the stats entries that [get_metrics] converts *)


(** Stats whose crash counter is not a number, and stats whose coverage is
    not a number. *)
Definition bad_crashes_stats : gmap string string :=
  <["unique_crashes" := "many"]> first_stats.


(** ** Further code: the line loop of [AFLWrapper.get_stats]

    A character is a code point below 256.  [is_space] is [str.isspace] on
    those: the characters that [str.strip()] removes. *)

Definition is_space (c : ascii) : bool :=
  let n := nat_of_ascii c in
  ((9 <=? n)%nat && (n <=? 13)%nat) || ((28 <=? n)%nat && (n <=? 32)%nat)
  || (n =? 133)%nat || (n =? 160)%nat.

Fixpoint lstrip_chars (l : list ascii) : list ascii :=
  match l with
  | c :: l' => if is_space c then lstrip_chars l' else l
  | [] => []
  end.

(** [s.strip()] on the characters of [s] *)
Definition strip_chars (l : list ascii) : list ascii :=
  rev (lstrip_chars (rev (lstrip_chars l))).

(** [line.split(':', 1)] for a line with a colon: the text before the first
    colon and the text after it; [None] when [':' in line] is false. *)
Fixpoint split_colon (l : list ascii) : option (list ascii * list ascii) :=
  match l with
  | [] => None
  | c :: l' =>
      if Ascii.eqb c ":"%char then Some ([], l')
      else match split_colon l' with
           | Some (key, value) => Some (c :: key, value)
           | None => None
           end
  end.

(** The body of [for line in f]. *)
Definition stats_line (stats : gmap string string) (line : string)
  : gmap string string :=
  match split_colon (list_ascii_of_string line) with
  | None => stats
  | Some (key, value) =>
      <[string_of_list_ascii (strip_chars key) :=
          string_of_list_ascii (strip_chars value)]> stats
  end.

(** The dictionary that [get_stats] builds from the lines of the file. *)
Definition read_stats (lines : list string) : gmap string string :=
  fold_left stats_line lines ∅.

(** No white space at either end. *)
Definition stripped (l : list ascii) : bool :=
  match head l, last l with
  | Some a, Some b => negb (is_space a) && negb (is_space b)
  | _, _ => true
  end.

(** A stats line as the fuzzer pads it, and a file of three lines of which
    the second has no colon. *)
Definition padded_line : string := "execs_per_sec     : 1500.25 ".

Definition stats_lines : list string :=
  ["unique_crashes   : 3"; "# comment"; "execs_per_sec     : 900"].

(** ** Further code: [AFLWrapper.apply_mutation_strategy]

    The method only prints; its result here is the line it prints, if any.
    [action_dim] is the number of actions of [PPOAgent]. *)

Definition action_dim : Z := 5.

Definition strategy_names : list string :=
  ["bitflip"; "byteflip"; "arithmetic"; "havoc"; "splice"].

Definition apply_mutation_strategy (strategy : Z) : option string :=
  if ((0 <=? strategy) && (strategy <? Z.of_nat (length strategy_names)))%Z
  then name ← strategy_names !! Z.to_nat strategy;
       Some (String.append "[AFL] Applying mutation strategy: " name)
  else None.

(** ** Further code: the metrics collector ([metrics_collector.py])

    [self.metrics_history] is a dictionary from a mode to the list of its
    records.  Python's [/] raises [ZeroDivisionError] on a zero divisor;
    where the divisor is computed, the division is [py_div]. *)

Section Collector.
Context `{Arith F} `{ArithOrd F}.
Local Open Scope arith_scope.

Definition py_div (x y : F) : result F :=
  if feqb y (of_Z 0) then Raise ZeroDivisionError else Ok (x / y).

(** [max(a, b)]: the second argument is taken when it is greater. *)
Definition py_max2 (a b : F) : F := if fltb a b then b else a.

(** [max] and [sum] of a sequence whose first element is [first]. *)
Definition py_max (first : F) (rest : list F) : F := fold_left py_max2 rest first.
Definition py_sum (l : list F) : F := fold_left add l (of_Z 0).

(** [MetricsCollector.__init__] *)
Definition new_history : gmap string (list (gmap string F)) :=
  <["baseline" := []]> (<["ppo" := []]> ∅).

(** [MetricsCollector.record_metrics]; [timestamp] is
    [time.time() - self.start_time]. *)
Definition record_metrics (h : gmap string (list (gmap string F)))
    (mode : string) (timestamp : F) (metrics : gmap string F)
  : result (gmap string (list (gmap string F))) :=
  let record :=
    metrics ∪ (<["timestamp" := timestamp]> (
               <["time_hours" := timestamp / of_Z 3600]> ∅)) in
  l ← getitem h mode;
  Ok (<[mode := l ++ [record]]> h).

(** [MetricsCollector.get_history] *)
Definition get_history (h : gmap string (list (gmap string F)))
    (mode : string) : result (list (gmap string F)) :=
  getitem h mode.

(** [m[k] for m in history], consumed to its end. *)
Fixpoint collect (k : string) (history : list (gmap string F))
  : result (list F) :=
  match history with
  | [] => Ok []
  | m :: rest => x ← getitem m k; xs ← collect k rest; Ok (x :: xs)
  end.

(** The body of the loop over the modes in [get_summary]: [None] when the
    history of the mode is empty. *)
Definition summarize (history : list (gmap string F))
  : result (option (gmap string F)) :=
  match last history with
  | None => Ok None
  | Some final_metrics =>
      final_coverage ← getitem final_metrics "coverage_rate";
      total_crashes ← getitem final_metrics "crash_count";
      speeds ← collect "exec_speed" history;
      avg_exec_speed ←
        py_div (py_sum speeds) (of_Z (Z.of_nat (length history)));
      max_exec_speed ←
        match speeds with
        | [] => Raise ValueError
        | first :: rest => Ok (py_max first rest)
        end;
      total_paths ← getitem final_metrics "unique_paths";
      runtime_hours ← getitem final_metrics "time_hours";
      Ok (Some (<["final_coverage" := final_coverage]> (
                <["total_crashes" := total_crashes]> (
                <["avg_exec_speed" := avg_exec_speed]> (
                <["max_exec_speed" := max_exec_speed]> (
                <["total_paths" := total_paths]> (
                <["runtime_hours" := runtime_hours]> ∅)))))))
  end.

(** [(ppo[k] - baseline[k]) / max(baseline[k], floor) * 100] *)
Definition increase_pct (ppo_s baseline_s : gmap string F) (k : string)
    (floor : F) : result F :=
  p ← getitem ppo_s k;
  b ← getitem baseline_s k;
  b' ← getitem baseline_s k;
  q ← py_div (p - b) (py_max2 b' floor);
  Ok (q * of_Z 100).

(** [MetricsCollector.get_summary] *)
Definition get_summary (h : gmap string (list (gmap string F)))
  : result (gmap string (gmap string F)) :=
  hb ← getitem h "baseline";
  sb ← summarize hb;
  let summary : gmap string (gmap string F) :=
    match sb with Some d => <["baseline" := d]> ∅ | None => ∅ end in
  hp ← getitem h "ppo";
  sp ← summarize hp;
  let summary :=
    match sp with Some d => <["ppo" := d]> summary | None => summary end in
  match summary !! "baseline", summary !! "ppo" with
  | Some baseline_s, Some ppo_s =>
      coverage ← increase_pct ppo_s baseline_s "final_coverage" (dec 1 2);
      crash ← increase_pct ppo_s baseline_s "total_crashes" (of_Z 1);
      speed ← increase_pct ppo_s baseline_s "avg_exec_speed" (of_Z 1);
      path ← increase_pct ppo_s baseline_s "total_paths" (of_Z 1);
      Ok (<["improvement" :=
              <["coverage_increase_pct" := coverage]> (
              <["crash_increase_pct" := crash]> (
              <["speed_increase_pct" := speed]> (
              <["path_increase_pct" := path]> ∅)))]> summary)
  | _, _ => Ok summary
  end.
End Collector.

(** The fields of a record that [get_summary] reads. *)
Definition summary_fields : list string :=
  ["coverage_rate"; "crash_count"; "exec_speed"; "unique_paths"; "time_hours"].

(** The four entries of [improvement]: its key, the key of the mode
    summaries it compares, and the floor of its divisor. *)
Definition improvement_table `{Arith F} : list (string * string * F) :=
  [ ("coverage_increase_pct", "final_coverage", dec 1 2);
    ("crash_increase_pct", "total_crashes", of_Z 1);
    ("speed_increase_pct", "avg_exec_speed", of_Z 1);
    ("path_increase_pct", "total_paths", of_Z 1) ].

(** A collector that recorded two baseline snapshots and one PPO snapshot. *)
Definition example_record `{Arith F} (timestamp : Z) (metrics : gmap string F)
  : gmap string F :=
  metrics ∪ (<["timestamp" := of_Z timestamp]> (
             <["time_hours" := div (of_Z timestamp) (of_Z 3600)]> ∅)).

Definition example_history `{Arith F} : gmap string (list (gmap string F)) :=
  <["baseline" := [example_record 60 stagnant_prev;
                   example_record 120 stagnant_curr]]> (
  <["ppo" := [example_record 60
                (snapshot (of_Z 14) (of_Z 2) (of_Z 1000) (of_Z 95)
                          (of_Z 60) (of_Z 7) (of_Z 60))]]> ∅).

(** The summary of [example_history] in binary64, evaluated once. *)
Definition example_summary : gmap string (gmap string float) :=
  Eval vm_compute in
    match get_summary (F := float) example_history with
    | Ok s => s
    | Raise _ => ∅
    end.

(** ** Further code: what every completed pass of the loop keeps *)

(** The configuration is the one the run started with, the buffer's lists
    have one length, the update counter counts transitions still in the
    buffer or fewer, [prev_metrics] is the snapshot recorded last, and every
    recorded snapshot but the first had an action applied. *)
Definition loop_inv {F M G : Type} (c : config F) (s : loop_state F M G)
  : Prop :=
  cfg (ppo s) = c /\
  buffer_wf (buf (ppo s)) /\
  (0 <= ppo_update_counter s <= Z.of_nat (length (states (buf (ppo s)))))%Z /\
  prev_metrics s = last (history s) /\
  length (history s)
    = (length (applied s) + (if prev_metrics s is Some _ then 1 else 0))%nat.

(** ** Further code: the dictionary that [analyze] keeps is the caller's

    On its first call [analyze] keeps the dictionary it is given
    ([self.previous_metrics = current_metrics]); on later calls it keeps a
    copy ([current_metrics.copy()]).  The dictionaries live in a store, a
    list indexed by reference; a new dictionary goes at its end.  The
    analyzer's state and the argument of [analyze] are references. *)

Section SharedAnalyzer.
Context `{Arith F}.

Definition deref (h : list (gmap string F)) (r : nat) : gmap string F :=
  default ∅ (h !! r).

(** [FeedbackAnalyzer.analyze] on the store. *)
Definition analyze_shared (h : list (gmap string F))
    (previous_metrics : option nat) (current_metrics : nat)
  : list (gmap string F) * option nat * result (nat * F * bool) :=
  match previous_metrics with
  | None => (h, Some current_metrics, Ok (current_metrics, of_Z 0, false))
  | Some prev =>
      match _calculate_reward (deref h prev) (deref h current_metrics) with
      | Raise e => (h, previous_metrics, Raise e)
      | Ok reward =>
          let done := _check_termination (deref h current_metrics) in
          (h ++ [deref h current_metrics], Some (length h),
           Ok (current_metrics, reward, done))
      end
  end.

(** What a caller does to one of its dictionaries between two calls:
    [d[k] = v]. *)
Definition setitem (h : list (gmap string F)) (r : nat) (k : string) (v : F)
  : list (gmap string F) :=
  <[r := <[k := v]> (deref h r)]> h.
End SharedAnalyzer.

(** A store of two dictionaries: the first lacks [unique_paths]. *)
Definition two_dictionaries : list (gmap string float) :=
  [delete "unique_paths" stagnant_prev; stagnant_curr].
(** A configuration without epochs, with a batch of one transition, and the
    campaign state after its first pass. *)
Definition zero_epochs_config (interval : Z) : config float :=
  {| gamma := gamma example_config;
     epsilon_clip := epsilon_clip example_config;
     epochs := 0;
     entropy_coefficient := entropy_coefficient example_config;
     batch_size := 1;
     update_interval := interval;
     reward_weights := reward_weights example_config |}.


Definition bad_crashes_pass : tick_input :=
  {| telemetry := Readable bad_crashes_stats; runtime := 120;
     done_now := false |}.

(** * Properties *)

(** Decimal literals at [R]: evaluate the power of ten, leave the rest to
    [lra]. *)
Ltac eval_pow10 :=
  repeat match goal with
    | |- context [IZR (?a ^ Z.of_nat ?k)] =>
        let v := eval vm_compute in (a ^ Z.of_nat k)%Z in
        change (a ^ Z.of_nat k)%Z with v
    end.

(** ** Discounted returns *)

Section Returns.
Context `{Arith F}.
Local Open Scope arith_scope.

Lemma backward_returns_length gam (rs : list F) (ds : list bool) :
  length rs = length ds -> length (backward_returns gam rs ds) = length rs.
Proof.
  revert ds; induction rs as [|r rs IH]; intros [|d ds] Hlen;
    simpl in *; try congruence.
  f_equal. apply IH. congruence.
Qed.

Lemma fold_returns_backward gam (rs : list F) (ds : list bool) :
  length rs = length ds ->
  fold_left (returns_step gam) (zip (rev rs) (rev ds)) (of_Z 0, []) =
  (hd (of_Z 0) (backward_returns gam rs ds), backward_returns gam rs ds).
Proof.
  revert ds; induction rs as [|r rs IH]; intros [|d ds] Hlen;
    simpl in Hlen; try discriminate; [reflexivity|].
  injection Hlen as Hlen. simpl rev.
  rewrite zip_with_app by (rewrite !length_rev; exact Hlen).
  rewrite fold_left_app, (IH ds Hlen). simpl.
  destruct d; reflexivity.
Qed.

Lemma backward_returns_lookup (gam : F) (rs : list F) (ds : list bool)
    (i : nat) (r : F) (d : bool) :
  rs !! i = Some r -> ds !! i = Some d ->
  backward_returns gam rs ds !! i =
    Some (r + gam * (if d then of_Z 0
                     else default (of_Z 0) (backward_returns gam rs ds !! S i))).
Proof.
  revert ds i; induction rs as [|r0 rs IH]; intros [|d0 ds] [|i] Hr Hd;
    simpl in *; try discriminate.
  - injection Hr as ->. injection Hd as ->.
    destruct (backward_returns gam rs ds); reflexivity.
  - apply IH; assumption.
Qed.
End Returns.

(** C4.  For reward and flag sequences of equal length [N], the list that
    [_compute_returns] builds has length [N] and obeys the backward recursion:
    the entry at [i] is [rewards[i] + gamma * R], where [R] is [0] when
    [dones[i]] holds or [i] is the last index, and the entry at [i + 1]
    otherwise.  Rewards [1, 1, 1] with discount [0.5] and flags
    [False, False, True] give [1.75, 1.5, 1], in binary64 and in exact
    arithmetic. *)
Theorem compute_returns_backward_recursion :
  (forall (F : Type) (HA : Arith F) (M : Type) (a : agent F M),
     length (rewards (buf a)) = length (dones (buf a)) ->
     length (_compute_returns a) = length (rewards (buf a)) /\
     forall (i : nat) (r : F) (d : bool),
       rewards (buf a) !! i = Some r ->
       dones (buf a) !! i = Some d ->
       _compute_returns a !! i =
         Some (r + gamma (cfg a) *
                   (if d then of_Z 0
                    else default (of_Z 0) (_compute_returns a !! S i)))%A) /\
  _compute_returns (F := float) returns_example_agent
    = [1.75; 1.5; 1]%float /\
  _compute_returns (F := R) returns_example_agent
    = [1.75; 1.5; 1]%R.
Proof.
  split; [|split].
  - intros F HA M a Hlen. unfold _compute_returns.
    rewrite (fold_returns_backward _ _ _ Hlen). simpl snd. split.
    + apply backward_returns_length, Hlen.
    + intros i r d Hr Hd. apply backward_returns_lookup; assumption.
  - vm_compute. reflexivity.
  - unfold _compute_returns. simpl. eval_pow10.
    f_equal; [lra | f_equal; [lra | f_equal; lra]].
Qed.

(** The recursion at the three transitions of the worked example. *)
Lemma compute_returns_backward_recursion_witness :
  length (_compute_returns (F := float) returns_example_agent) = 3 /\
  _compute_returns (F := float) returns_example_agent !! 1 = Some 1.5%float.
Proof.
  destruct (proj1 compute_returns_backward_recursion float _ unit
              returns_example_agent eq_refl) as [Hlen Hrec].
  split; [exact Hlen|].
  rewrite (Hrec 1 1%float false eq_refl eq_refl). vm_compute. reflexivity.
Defined.

(** ** The reward *)

Lemma has_keys_lookup {V} (ks : list string) (d : gmap string V) (k : string) :
  has_keys ks d = true -> In k ks -> is_Some (d !! k).
Proof.
  unfold has_keys. rewrite forallb_forall. intros Hall Hin.
  exact (bool_decide_eq_true_1 _ (Hall k Hin)).
Qed.

Lemma getitem_Some {V} (d : gmap string V) (k : string) (v : V) :
  d !! k = Some v -> getitem d k = Ok v.
Proof. unfold getitem. intros ->. reflexivity. Qed.

Lemma getitem_None {V} (d : gmap string V) (k : string) :
  d !! k = None -> getitem d k = Raise (KeyError k).
Proof. unfold getitem. intros ->. reflexivity. Qed.

Lemma get_Some {V} (d : gmap string V) (k : string) (v dflt : V) :
  d !! k = Some v -> get d k dflt = v.
Proof. unfold get. intros ->. reflexivity. Qed.

Lemma get_None {V} (d : gmap string V) (k : string) (dflt : V) :
  d !! k = None -> get d k dflt = dflt.
Proof. unfold get. intros ->. reflexivity. Qed.

(** From [has_keys ks d = true], name the value under a key of [ks]. *)
Tactic Notation "key_of" hyp(Hkeys) constr(k) "as" ident(v) ident(Hv) :=
  let Hin := fresh in
  match type of Hkeys with
  | has_keys ?ks _ = true =>
      assert (Hin : In k%string ks)
        by (simpl; repeat first [left; reflexivity | right]);
      destruct (has_keys_lookup _ _ k Hkeys Hin) as [v Hv]; clear Hin
  end.

Section Reward.
Context `{Arith F}.
Local Open Scope arith_scope.

(** The weighted sum, on dictionaries that hold what it reads. *)
Lemma compute_reward_formula (c : config F) (prev curr : gmap string F) :
  has_keys reward_fields curr = true ->
  has_keys weight_names (reward_weights c) = true ->
  compute_reward c prev curr =
    Ok (get (reward_weights c) "coverage_increase" (of_Z 0)
          * (get curr "coverage_rate" (of_Z 0) - get prev "coverage_rate" (of_Z 0))
        + get (reward_weights c) "unique_crash" (of_Z 0)
          * (get curr "crash_count" (of_Z 0) - get prev "crash_count" (of_Z 0))
        + get (reward_weights c) "execution_speed" (of_Z 0)
          * (get curr "exec_speed" (of_Z 0) / of_Z 1000)
        + get (reward_weights c) "path_diversity" (of_Z 0)
          * ((get curr "unique_paths" (of_Z 0) - get prev "unique_paths" (of_Z 0))
             / of_Z 100)).
Proof.
  intros Hc Hw.
  key_of Hc "coverage_rate" as cov Hcov. key_of Hc "crash_count" as cr Hcr.
  key_of Hc "exec_speed" as sp Hsp. key_of Hc "unique_paths" as pa Hup.
  key_of Hw "coverage_increase" as w1 Hw1. key_of Hw "unique_crash" as w2 Hw2.
  key_of Hw "execution_speed" as w3 Hw3. key_of Hw "path_diversity" as w4 Hw4.
  unfold compute_reward.
  rewrite (getitem_Some _ _ _ Hcov), (getitem_Some _ _ _ Hcr),
    (getitem_Some _ _ _ Hsp), (getitem_Some _ _ _ Hup),
    (getitem_Some _ _ _ Hw1), (getitem_Some _ _ _ Hw2),
    (getitem_Some _ _ _ Hw3), (getitem_Some _ _ _ Hw4).
  rewrite (get_Some _ _ _ _ Hcov), (get_Some _ _ _ _ Hcr),
    (get_Some _ _ _ _ Hsp), (get_Some _ _ _ _ Hup),
    (get_Some _ _ _ _ Hw1), (get_Some _ _ _ _ Hw2),
    (get_Some _ _ _ _ Hw3), (get_Some _ _ _ _ Hw4).
  reflexivity.
Qed.
End Reward.

Lemma has_keys_incl {V} (ks ks' : list string) (d : gmap string V) :
  incl ks' ks -> has_keys ks d = true -> has_keys ks' d = true.
Proof.
  unfold has_keys. rewrite !forallb_forall. intros Hincl Hall k Hin.
  apply Hall, Hincl, Hin.
Qed.

Lemma reward_fields_incl : incl reward_fields snapshot_fields.
Proof.
  intros k Hin. simpl in *.
  repeat (destruct Hin as [<- | Hin]; [tauto |]). destruct Hin.
Qed.

(** C3.  On two snapshots and a complete weight dictionary the training
    reward is the weighted sum of the coverage delta, the crash delta, the
    speed over 1000 and the path delta over 100, and nothing else.  When
    coverage and paths stagnate the two delta terms vanish and no penalty is
    subtracted, while the analyzer's monitoring reward on the same snapshots
    carries its [- 0.1]; on the worked pair the agent's reward is [0.5] and
    the analyzer's is [0.4]. *)
Theorem compute_reward_weighted_sum :
  (forall (F : Type) (HA : Arith F) (c : config F) (prev curr : gmap string F),
     has_keys snapshot_fields prev = true ->
     has_keys snapshot_fields curr = true ->
     has_keys weight_names (reward_weights c) = true ->
     compute_reward c prev curr =
       Ok (get (reward_weights c) "coverage_increase" (of_Z 0)
             * (get curr "coverage_rate" (of_Z 0) - get prev "coverage_rate" (of_Z 0))
           + get (reward_weights c) "unique_crash" (of_Z 0)
             * (get curr "crash_count" (of_Z 0) - get prev "crash_count" (of_Z 0))
           + get (reward_weights c) "execution_speed" (of_Z 0)
             * (get curr "exec_speed" (of_Z 0) / of_Z 1000)
           + get (reward_weights c) "path_diversity" (of_Z 0)
             * ((get curr "unique_paths" (of_Z 0) - get prev "unique_paths" (of_Z 0))
                / of_Z 100))%A) /\
  (forall (c : config R) (prev curr : gmap string R),
     has_keys snapshot_fields prev = true ->
     has_keys snapshot_fields curr = true ->
     has_keys weight_names (reward_weights c) = true ->
     get curr "coverage_rate" 0%R = get prev "coverage_rate" 0%R ->
     get curr "unique_paths" 0%R = get prev "unique_paths" 0%R ->
     compute_reward c prev curr =
       Ok (get (reward_weights c) "unique_crash" 0
             * (get curr "crash_count" 0 - get prev "crash_count" 0)
           + get (reward_weights c) "execution_speed" 0
             * (get curr "exec_speed" 0 / 1000))%R /\
     _calculate_reward prev curr =
       Ok (10 * (get curr "crash_count" 0 - get prev "crash_count" 0)
           + get curr "exec_speed" 0 / 100 * 0.1 - 0.1)%R) /\
  compute_reward (F := float) example_config stagnant_prev stagnant_curr
    = Ok 0.5%float /\
  _calculate_reward (F := float) stagnant_prev stagnant_curr
    = Ok 0.4%float.
Proof.
  split; [|split; [|split]].
  - intros F HA c prev curr _ Hc Hw.
    apply compute_reward_formula; [|exact Hw].
    exact (has_keys_incl _ _ _ reward_fields_incl Hc).
  - intros c prev curr Hp Hc Hw Hcov Hpaths. split.
    + rewrite (compute_reward_formula c prev curr
                 (has_keys_incl _ _ _ reward_fields_incl Hc) Hw).
      simpl. simpl in Hcov, Hpaths. rewrite Hcov, Hpaths. f_equal. lra.
    + key_of Hc "coverage_rate" as c1 Hc1. key_of Hc "crash_count" as c2 Hc2.
      key_of Hc "exec_speed" as c3 Hc3. key_of Hc "unique_paths" as c4 Hc4.
      key_of Hp "coverage_rate" as p1 Hp1. key_of Hp "crash_count" as p2 Hp2.
      key_of Hp "unique_paths" as p4 Hp4.
      rewrite (get_Some _ _ _ _ Hc1), (get_Some _ _ _ _ Hp1) in Hcov.
      rewrite (get_Some _ _ _ _ Hc4), (get_Some _ _ _ _ Hp4) in Hpaths.
      rewrite (get_Some _ _ _ _ Hc2), (get_Some _ _ _ _ Hp2),
        (get_Some _ _ _ _ Hc3).
      unfold _calculate_reward.
      rewrite (getitem_Some _ _ _ Hc1), (getitem_Some _ _ _ Hc2),
        (getitem_Some _ _ _ Hc3), (getitem_Some _ _ _ Hc4),
        (getitem_Some _ _ _ Hp1), (getitem_Some _ _ _ Hp2),
        (getitem_Some _ _ _ Hp4).
      subst p1 p4. simpl.
      destruct (Req_dec_T (c1 - c1) 0) as [_|Hne]; [|exfalso; apply Hne; lra].
      destruct (Req_dec_T (c4 - c4) 0) as [_|Hne]; [|exfalso; apply Hne; lra].
      simpl. f_equal. unfold dec. simpl. eval_pow10. lra.
  - vm_compute. reflexivity.
  - vm_compute. reflexivity.
Qed.

(** The weighted sum at the worked pair of snapshots, in binary64. *)
Lemma compute_reward_weighted_sum_witness :
  exists r : float,
    compute_reward example_config stagnant_prev stagnant_curr = Ok r.
Proof.
  eexists.
  exact (proj1 compute_reward_weighted_sum float _ example_config
           stagnant_prev stagnant_curr eq_refl eq_refl eq_refl).
Defined.

Section RewardKeys.
Context `{Arith F}.
Local Open Scope arith_scope.

(** A field that [prev_metrics] lacks is read as [0]. *)
Lemma get_insert_default (d : gmap string F) (k k' : string) :
  d !! k = None -> get (<[k := of_Z 0]> d) k' (of_Z 0) = get d k' (of_Z 0).
Proof.
  intros Hk. unfold get. destruct (decide (k = k')) as [<- | Hne].
  - rewrite lookup_insert_eq, Hk. reflexivity.
  - rewrite lookup_insert_ne by exact Hne. reflexivity.
Qed.

Lemma compute_reward_prev_default (c : config F) (prev curr : gmap string F)
    (k : string) :
  prev !! k = None ->
  compute_reward c (<[k := of_Z 0]> prev) curr = compute_reward c prev curr.
Proof.
  intros Hk. unfold compute_reward.
  rewrite !(get_insert_default prev k _ Hk). reflexivity.
Qed.

(** A field that [curr_metrics] lacks raises [KeyError]: its own when the
    weights are complete, and some [KeyError] in any case. *)
Lemma compute_reward_curr_missing (c : config F) (prev curr : gmap string F)
    (k : string) :
  In k reward_fields -> curr !! k = None ->
  exists k', compute_reward c prev curr = Raise (KeyError k').
Proof.
  intros Hin Hk. unfold compute_reward, getitem.
  repeat match goal with
    | |- context [match ?d !! ?key with _ => _ end] =>
        destruct (d !! key) eqn:?; simpl
    | |- exists k', Raise (KeyError ?key) = Raise (KeyError k') =>
        exists key; reflexivity
    end.
  exfalso. simpl in Hin.
  repeat (destruct Hin as [<- | Hin]; [congruence |]). destruct Hin.
Qed.

Lemma compute_reward_first_missing (c : config F) (prev curr : gmap string F)
    (k : string) :
  has_keys weight_names (reward_weights c) = true ->
  first_missing reward_fields curr = Some k ->
  compute_reward c prev curr = Raise (KeyError k).
Proof.
  intros Hw Hk.
  key_of Hw "coverage_increase" as w1 Hw1. key_of Hw "unique_crash" as w2 Hw2.
  key_of Hw "execution_speed" as w3 Hw3. key_of Hw "path_diversity" as w4 Hw4.
  unfold compute_reward.
  rewrite (getitem_Some _ _ _ Hw1), (getitem_Some _ _ _ Hw2),
    (getitem_Some _ _ _ Hw3), (getitem_Some _ _ _ Hw4).
  unfold first_missing, reward_fields in Hk. unfold getitem.
  repeat match type of Hk with
    | context [bool_decide (is_Some (curr !! ?key))] =>
        destruct (curr !! key) eqn:?; simpl in Hk |- *
    end;
  try rewrite bool_decide_eq_true_2 in Hk by eauto;
  try rewrite bool_decide_eq_false_2 in Hk by (apply is_Some_None);
  try discriminate; try (injection Hk as <-; reflexivity).
Qed.
End RewardKeys.

(** C10.  [compute_reward] never fails on account of [prev_metrics]: a field
    missing there is read as [0] (adding it with value [0] changes nothing),
    and with the four reward fields in [curr_metrics] and the four weights the
    call returns a number whatever [prev_metrics] is.  It does fail on account
    of [curr_metrics]: if any of [coverage_rate], [crash_count], [exec_speed],
    [unique_paths] is missing there the call raises [KeyError], and with
    complete weights the key reported is the first of these that is missing. *)
Theorem compute_reward_total_in_prev_only :
  forall (F : Type) (HA : Arith F) (c : config F) (prev curr : gmap string F),
    (forall k : string,
       prev !! k = None ->
       compute_reward c (<[k := of_Z 0]> prev) curr = compute_reward c prev curr) /\
    (has_keys reward_fields curr = true ->
     has_keys weight_names (reward_weights c) = true ->
     exists r : F, compute_reward c prev curr = Ok r) /\
    (forall k : string,
       In k reward_fields -> curr !! k = None ->
       exists k' : string, compute_reward c prev curr = Raise (KeyError k')) /\
    (forall k : string,
       has_keys weight_names (reward_weights c) = true ->
       first_missing reward_fields curr = Some k ->
       compute_reward c prev curr = Raise (KeyError k)).
Proof.
  intros F HA c prev curr. repeat split.
  - intros k Hk. apply compute_reward_prev_default, Hk.
  - intros Hc Hw. eexists. apply compute_reward_formula; assumption.
  - intros k Hin Hk. eapply compute_reward_curr_missing; eassumption.
  - intros k Hw Hk. apply compute_reward_first_missing; assumption.
Qed.

(** With an empty previous dictionary the reward of the worked snapshot is a
    number; with [exec_speed] deleted from the current one it is
    [KeyError('exec_speed')]. *)
Lemma compute_reward_total_in_prev_only_witness :
  (exists r : float, compute_reward example_config ∅ stagnant_curr = Ok r) /\
  compute_reward (F := float) example_config stagnant_prev
    (delete "exec_speed" stagnant_curr) = Raise (KeyError "exec_speed") /\
  compute_reward (F := float) example_config
    (<["crash_count" := of_Z 0]> ∅) stagnant_curr
  = compute_reward example_config ∅ stagnant_curr.
Proof.
  split; [|split].
  - exact (proj1 (proj2 (compute_reward_total_in_prev_only float _
             example_config ∅ stagnant_curr)) eq_refl eq_refl).
  - exact (proj2 (proj2 (proj2 (compute_reward_total_in_prev_only float _
             example_config stagnant_prev (delete "exec_speed" stagnant_curr))))
             "exec_speed" eq_refl eq_refl).
  - exact (proj1 (compute_reward_total_in_prev_only float _
             example_config ∅ stagnant_curr) "crash_count" eq_refl).
Defined.

(** ** The state encoder *)

(** C5, as stated, fails: a crash count of [-50] is encoded as [-0.5], not
    clamped to [0], in exact arithmetic and in binary64 alike. *)
Lemma state_vector_not_clamped :
  ~ Forall (fun x : R => (0 <= x)%R) (get_state_vector negative_metrics) /\
  get_state_vector (F := float) negative_metrics
    = [0; -0.5; 0; 0; 0]%float.
Proof.
  split.
  - intros Hall. unfold get_state_vector, negative_metrics in Hall. simpl in Hall.
    apply Forall_cons_1 in Hall as [_ Hall].
    apply Forall_cons_1 in Hall as [Hneg _].
    unfold get in Hneg. rewrite lookup_insert_eq in Hneg. simpl in Hneg. lra.
  - vm_compute. reflexivity.
Qed.

(** C5, amended.  The encoder is total and returns five entries: the 32-bit
    values of [coverage_rate], [crash_count / 100], [exec_speed / 1000],
    [queue_size / 1000] and [unique_paths / 10000], a missing field being
    read as [0]; in exact arithmetic, these numbers themselves.  Nothing is
    clamped, so an entry can be negative: the crash count [-50] is encoded
    as [-0.5], in exact arithmetic and in binary64 alike. *)
Theorem state_vector_unclamped :
  (forall (F : Type) (HA : Arith F) (metrics : gmap string F),
     length (get_state_vector metrics) = 5 /\
     get_state_vector metrics =
       map f32
         [ default (of_Z 0) (metrics !! "coverage_rate");
           default (of_Z 0) (metrics !! "crash_count") / of_Z 100;
           default (of_Z 0) (metrics !! "exec_speed") / of_Z 1000;
           default (of_Z 0) (metrics !! "queue_size") / of_Z 1000;
           default (of_Z 0) (metrics !! "unique_paths") / of_Z 10000 ]%A /\
     (forall k : string,
        metrics !! k = None ->
        get_state_vector (<[k := of_Z 0]> metrics) = get_state_vector metrics)) /\
  (forall metrics : gmap string R,
     get_state_vector metrics =
       [ default 0 (metrics !! "coverage_rate");
         default 0 (metrics !! "crash_count") / 100;
         default 0 (metrics !! "exec_speed") / 1000;
         default 0 (metrics !! "queue_size") / 1000;
         default 0 (metrics !! "unique_paths") / 10000 ]%R) /\
  get_state_vector (F := R) (<["crash_count" := (-50)%R]> ∅)
    = [0; -0.5; 0; 0; 0]%R /\
  get_state_vector (F := float) (<["crash_count" := (-50)%float]> ∅)
    = [0; -0.5; 0; 0; 0]%float.
Proof.
  split; [|split; [|split]].
  - intros F HA metrics. split; [reflexivity|]. split; [reflexivity|].
    intros k Hk. unfold get_state_vector, get.
    assert (Hget : forall k' : string,
              default (of_Z 0) (<[k := of_Z 0]> metrics !! k')
              = default (of_Z 0) (metrics !! k')).
    { intros k'. destruct (decide (k = k')) as [<- | Hne].
      - rewrite lookup_insert_eq, Hk. reflexivity.
      - rewrite lookup_insert_ne by exact Hne. reflexivity. }
    rewrite !Hget. reflexivity.
  - intros metrics. reflexivity.
  - unfold get_state_vector, get.
    rewrite lookup_insert_eq.
    rewrite !lookup_insert_ne by discriminate. rewrite !lookup_empty.
    simpl. repeat f_equal; lra.
  - vm_compute. reflexivity.
Qed.

(** ** The update and the buffer *)

Section UpdateProps.
Context `{Arith F}.
Context {M : Type}.
Variable ppo_epoch : config F -> M -> batch F -> M * F.
Local Open Scope arith_scope.

Lemma epoch_loop_trace (n : nat) (c : config F) (bt : batch F) (m : M)
    (total : F) :
  epoch_loop ppo_epoch n c bt m total =
    (epoch_model ppo_epoch n c bt m,
     fold_left add (epoch_losses ppo_epoch n c bt m) total).
Proof.
  revert m total; induction n as [|n IH]; intros m total; simpl;
    [reflexivity|].
  destruct (ppo_epoch c m bt) as [m' loss]. simpl. apply IH.
Qed.

Lemma epoch_losses_length (n : nat) (c : config F) (bt : batch F) (m : M) :
  length (epoch_losses ppo_epoch n c bt m) = n.
Proof.
  revert m; induction n as [|n IH]; intros m; simpl; [reflexivity|].
  destruct (ppo_epoch c m bt) as [m' loss]. simpl. f_equal. apply IH.
Qed.

Lemma update_small (a : agent F M) :
  (Z.of_nat (length (states (buf a))) < batch_size (cfg a))%Z ->
  update ppo_epoch a = (a, Ok (of_Z 0)).
Proof.
  intros Hlt. unfold update.
  rewrite (proj2 (Z.ltb_lt _ _) Hlt). reflexivity.
Qed.

Lemma update_large (a : agent F M) :
  (batch_size (cfg a) <= Z.of_nat (length (states (buf a))))%Z ->
  update ppo_epoch a =
    let n := Z.to_nat (epochs (cfg a)) in
    let bt := update_batch a in
    ({| cfg := cfg a;
        policy := epoch_model ppo_epoch n (cfg a) bt (policy a);
        buf := empty_buffer |},
     if (epochs (cfg a) =? 0)%Z then Raise ZeroDivisionError
     else Ok (tsum (epoch_losses ppo_epoch n (cfg a) bt (policy a))
              / of_Z (epochs (cfg a)))).
Proof.
  intros Hge. unfold update.
  rewrite (proj2 (Z.ltb_ge _ _) Hge), epoch_loop_trace. simpl.
  destruct (epochs (cfg a) =? 0)%Z; reflexivity.
Qed.

Lemma store_transition_wf (a : agent F M) st act r lp v d :
  buffer_wf (buf a) -> buffer_wf (buf (store_transition a st act r lp v d)).
Proof.
  unfold buffer_wf. simpl. rewrite !length_app. simpl. lia.
Qed.

Lemma update_wf (a : agent F M) :
  buffer_wf (buf a) -> buffer_wf (buf (fst (update ppo_epoch a))).
Proof.
  intros Hwf.
  destruct (Z.lt_ge_cases (Z.of_nat (length (states (buf a))))
              (batch_size (cfg a))) as [Hlt | Hge].
  - rewrite (update_small a Hlt). exact Hwf.
  - rewrite (update_large a Hge). simpl. repeat split.
Qed.
End UpdateProps.

(** C6.  With fewer stored transitions than [batch_size], [update] returns
    [0.0] and the agent it leaves is the agent it was given: the buffer, the
    model and the optimizer state are the same, and a second call does what
    the first did. *)
Theorem update_below_batch_size_noop :
  forall (F : Type) (HA : Arith F) (M : Type)
         (ppo_epoch : config F -> M -> batch F -> M * F) (a : agent F M),
    (Z.of_nat (length (states (buf a))) < batch_size (cfg a))%Z ->
    update ppo_epoch a = (a, Ok (of_Z 0)) /\
    buf (fst (update ppo_epoch a)) = buf a /\
    policy (fst (update ppo_epoch a)) = policy a /\
    update ppo_epoch (fst (update ppo_epoch a)) = update ppo_epoch a.
Proof.
  intros F HA M ppo_epoch a Hlt.
  rewrite (update_small ppo_epoch a Hlt). simpl.
  rewrite (update_small ppo_epoch a Hlt). repeat split.
Qed.

(** One transition against a batch size of two. *)
Lemma update_below_batch_size_noop_witness :
  update (F := float) stub_epoch one_transition_agent
    = (one_transition_agent, Ok 0%float).
Proof.
  exact (proj1 (update_below_batch_size_noop float _ Z stub_epoch
                  one_transition_agent eq_refl)).
Defined.

(** C7.  With at least [batch_size] stored transitions, [update] leaves all
    six sequences of the buffer empty, leaves the model that the epochs
    stepped to, and, the number of epochs being positive, returns the sum of
    the losses of the epochs divided by their number. *)
Theorem update_consumes_buffer_mean_loss :
  forall (F : Type) (HA : Arith F) (M : Type)
         (ppo_epoch : config F -> M -> batch F -> M * F) (a : agent F M),
    (batch_size (cfg a) <= Z.of_nat (length (states (buf a))))%Z ->
    let n := Z.to_nat (epochs (cfg a)) in
    let losses := epoch_losses ppo_epoch n (cfg a) (update_batch a) (policy a) in
    buf (fst (update ppo_epoch a)) = empty_buffer /\
    policy (fst (update ppo_epoch a))
      = epoch_model ppo_epoch n (cfg a) (update_batch a) (policy a) /\
    ((0 < epochs (cfg a))%Z ->
     Z.of_nat (length losses) = epochs (cfg a) /\
     snd (update ppo_epoch a) = Ok (tmean losses)).
Proof.
  intros F HA M ppo_epoch a Hge n losses.
  rewrite (update_large ppo_epoch a Hge). simpl. repeat split.
  - unfold losses. rewrite epoch_losses_length. unfold n. lia.
  - assert (Hlen : Z.of_nat (length losses) = epochs (cfg a)).
    { unfold losses. rewrite epoch_losses_length. unfold n. lia. }
    unfold tmean. rewrite Hlen.
    destruct (Z.eqb_spec (epochs (cfg a)) 0) as [Hz | _]; [lia|].
    reflexivity.
Qed.

(** Two transitions, two epochs with losses [1] and [2]: the buffer is
    emptied and the result is [1.5]. *)
Lemma update_consumes_buffer_mean_loss_witness :
  buf (fst (update (F := float) stub_epoch two_transition_agent))
    = empty_buffer /\
  snd (update (F := float) stub_epoch two_transition_agent) = Ok 1.5%float.
Proof.
  destruct (update_consumes_buffer_mean_loss float _ Z stub_epoch
              two_transition_agent ltac:(vm_compute; discriminate))
    as (Hbuf & _ & Hloss).
  split; [exact Hbuf|].
  rewrite (proj2 (Hloss eq_refl)). vm_compute. reflexivity.
Defined.

(** C9.  The six sequences of the buffer have one length after construction;
    [store_transition] keeps that and lengthens each by one; [clear_buffer]
    empties all six; [update] keeps it, leaving the buffer either as it was
    or empty. *)
Theorem buffer_lengths_invariant :
  forall (F : Type) (HA : Arith F) (M : Type)
         (ppo_epoch : config F -> M -> batch F -> M * F),
    (forall (c : config F) (m0 : M), buffer_wf (buf (init c m0))) /\
    (forall (a : agent F M) st act r lp v d,
       buffer_wf (buf a) ->
       buffer_wf (buf (store_transition a st act r lp v d)) /\
       length (states (buf (store_transition a st act r lp v d)))
         = S (length (states (buf a)))) /\
    (forall a : agent F M,
       buf (clear_buffer a) = empty_buffer /\
       buffer_wf (buf (clear_buffer a))) /\
    (forall a : agent F M,
       buffer_wf (buf a) ->
       buffer_wf (buf (fst (update ppo_epoch a))) /\
       (buf (fst (update ppo_epoch a)) = buf a \/
        buf (fst (update ppo_epoch a)) = empty_buffer)).
Proof.
  intros F HA M ppo_epoch. split; [|split; [|split]].
  - intros c m0. repeat split.
  - intros a st act r lp v d Hwf. split.
    + apply store_transition_wf, Hwf.
    + simpl. rewrite length_app. simpl. lia.
  - intros a. split; [reflexivity | repeat split].
  - intros a Hwf. split; [apply update_wf, Hwf|].
    destruct (Z.lt_ge_cases (Z.of_nat (length (states (buf a))))
                (batch_size (cfg a))) as [Hlt | Hge].
    + left. rewrite (update_small ppo_epoch a Hlt). reflexivity.
    + right. rewrite (update_large ppo_epoch a Hge). reflexivity.
Qed.

(** The invariant along: construct, store, store, update. *)
Lemma buffer_lengths_invariant_witness :
  buffer_wf (buf (fst (update (F := float) stub_epoch two_transition_agent))).
Proof.
  pose proof (buffer_lengths_invariant float _ Z stub_epoch)
    as (Hinit & Hstore & _ & Hupd).
  apply Hupd. unfold two_transition_agent.
  apply Hstore. unfold one_transition_agent.
  apply Hstore. apply Hinit.
Defined.

(** ** Standardization of the advantages, in exact arithmetic *)

Section Standardize.
Local Open Scope R_scope.

(** The length of a tensor as the number [mean] and [std] divide by. *)
Local Abbreviation len t := (IZR (Z.of_nat (length t))).

Lemma len_cons (x : R) (t : list R) : len (x :: t) = len t + 1.
Proof. simpl length. rewrite Nat2Z.inj_succ, succ_IZR. reflexivity. Qed.

Lemma len_nil : len (@nil R) = 0.
Proof. reflexivity. Qed.

Lemma len_pos (t : list R) : (0 < length t)%nat -> 0 < len t.
Proof. intros Hn. apply IZR_lt. lia. Qed.

Lemma fold_add_acc (t : list R) (x : R) :
  fold_left Rplus t x = x + fold_left Rplus t 0.
Proof.
  revert x; induction t as [|y t IH]; intros x; simpl; [lra|].
  rewrite (IH (x + y)), (IH (0 + y)). lra.
Qed.

Lemma tsum_nil : tsum (@nil R) = 0.
Proof. reflexivity. Qed.

Lemma tsum_cons (x : R) (t : list R) : tsum (x :: t) = x + tsum t.
Proof.
  unfold tsum. simpl. rewrite fold_add_acc. change (IZR 0) with 0. lra.
Qed.

Lemma tsum_shift_scale (m c : R) (t : list R) :
  tsum (map (fun a => (a - m) / c) t) = (tsum t - len t * m) / c.
Proof.
  induction t as [|x t IH].
  - simpl map. rewrite tsum_nil, len_nil. unfold Rdiv. ring.
  - simpl map. rewrite !tsum_cons, IH, len_cons. unfold Rdiv. ring.
Qed.

Lemma tsum_squares_scaled (m c : R) (t : list R) :
  c <> 0 ->
  tsum (map (fun b => (b - 0) * (b - 0)) (map (fun a => (a - m) / c) t))
  = tsum (map (fun a => (a - m) * (a - m)) t) / (c * c).
Proof.
  intros Hc. induction t as [|x t IH].
  - simpl map. rewrite tsum_nil. unfold Rdiv. ring.
  - simpl map. rewrite !tsum_cons, IH. field. exact Hc.
Qed.

Lemma tsum_squares_nonneg (m : R) (t : list R) :
  0 <= tsum (map (fun a => (a - m) * (a - m)) t).
Proof.
  induction t as [|x t IH].
  - simpl map. rewrite tsum_nil. lra.
  - simpl map. rewrite tsum_cons. pose proof (Rle_0_sqr (x - m)) as Hsq.
    unfold Rsqr in Hsq. lra.
Qed.

Lemma tsum_squares_const (x : R) (t : list R) :
  Forall (fun a => a = x) t ->
  tsum (map (fun a => (a - x) * (a - x)) t) = 0.
Proof.
  induction 1 as [|a t Ha _ IH].
  - reflexivity.
  - simpl map. rewrite tsum_cons, IH, Ha. lra.
Qed.

Lemma tsum_const (x : R) (t : list R) :
  Forall (fun a => a = x) t -> tsum t = len t * x.
Proof.
  induction 1 as [|a t Ha _ IH].
  - rewrite tsum_nil, len_nil. lra.
  - rewrite tsum_cons, len_cons, IH, Ha. lra.
Qed.

(** The three tensor functions at [R], in the notation of [R]. *)
Lemma tmean_R (t : list R) : tmean t = tsum t / len t.
Proof. reflexivity. Qed.

Lemma tstd_R (t : list R) :
  tstd t =
    R_sqrt.sqrt (tsum (map (fun a => (a - tmean t) * (a - tmean t)) t)
          / IZR (Z.of_nat (length t) - 1)).
Proof. reflexivity. Qed.

Lemma standardize_R (t : list R) :
  standardize t = map (fun a => (a - tmean t) / (tstd t + dec 1 8)) t.
Proof. reflexivity. Qed.

Lemma tstd_nonneg (t : list R) : 0 <= tstd t.
Proof. rewrite tstd_R. apply R_sqrt.sqrt_pos. Qed.

Lemma eps_pos : 0 < dec (F := R) 1 8.
Proof. unfold dec. simpl. eval_pow10. lra. Qed.

Lemma standardize_length (t : list R) :
  length (standardize t) = length t.
Proof. rewrite standardize_R. apply length_map. Qed.

Lemma tsum_centred (t : list R) :
  (0 < length t)%nat -> tsum t - len t * tmean t = 0.
Proof.
  intros Hn. pose proof (len_pos t Hn) as Hlen.
  rewrite tmean_R. field. lra.
Qed.

Lemma standardize_mean (t : list R) :
  (0 < length t)%nat -> tmean (standardize t) = 0.
Proof.
  intros Hn. rewrite tmean_R, standardize_length, standardize_R.
  rewrite tsum_shift_scale, (tsum_centred t Hn).
  unfold Rdiv. ring.
Qed.

Lemma standardize_std (t : list R) :
  (1 < length t)%nat ->
  tstd (standardize t) = tstd t / (tstd t + dec 1 8).
Proof.
  intros Hn.
  assert (Hk : 0 < IZR (Z.of_nat (length t) - 1)) by (apply IZR_lt; lia).
  assert (Hc : 0 < tstd t + dec 1 8)
    by (pose proof (tstd_nonneg t); pose proof eps_pos; lra).
  rewrite (tstd_R (standardize t)), standardize_mean by lia.
  rewrite standardize_length, standardize_R.
  rewrite tsum_squares_scaled by lra.
  rewrite (tstd_R t) at 3.
  set (V := tsum (map (fun a => (a - tmean t) * (a - tmean t)) t)).
  set (c := tstd t + dec 1 8) in *.
  replace (V / (c * c) / IZR (Z.of_nat (length t) - 1))
    with (V / IZR (Z.of_nat (length t) - 1) / (c * c))
    by (field; split; lra).
  rewrite R_sqrt.sqrt_div_alt by (apply Rmult_lt_0_compat; lra).
  rewrite R_sqrt.sqrt_square by lra.
  reflexivity.
Qed.

Lemma tstd_const (x : R) (t : list R) :
  (0 < length t)%nat -> Forall (fun a => a = x) t -> tstd t = 0.
Proof.
  intros Hn Hall. pose proof (len_pos t Hn) as Hlen.
  assert (Hm : tmean t = x).
  { rewrite tmean_R, (tsum_const x t Hall). field. lra. }
  rewrite tstd_R, Hm, (tsum_squares_const x t Hall).
  unfold Rdiv. rewrite Rmult_0_l. apply R_sqrt.sqrt_0.
Qed.
End Standardize.

Section StandardizeAgent.
Local Open Scope R_scope.

Lemma standardize_const (x : R) (t : list R) :
  (0 < length t)%nat -> Forall (fun a => a = x) t ->
  Forall (fun b => b = 0) (standardize t).
Proof.
  intros Hn Hall.
  assert (Hm : tmean t = x).
  { rewrite tmean_R, (tsum_const x t Hall). field.
    pose proof (len_pos t Hn). lra. }
  rewrite standardize_R, Hm. apply Forall_map.
  eapply Forall_impl; [exact Hall|].
  intros a ->. simpl. unfold Rdiv. ring.
Qed.

Lemma raw_advantages_length {M : Type} (a : agent R M) :
  buffer_wf (buf a) ->
  length (zip_with Rminus (_compute_returns a) (values (buf a)))
    = length (states (buf a)).
Proof.
  intros (_ & Hr & _ & Hv & Hd).
  rewrite length_zip_with. unfold _compute_returns.
  rewrite fold_returns_backward by congruence. simpl snd.
  rewrite backward_returns_length by congruence. lia.
Qed.

Lemma update_batch_advantages_R {M : Type} (a : agent R M) :
  b_advantages (update_batch a)
    = standardize (zip_with Rminus (_compute_returns a) (values (buf a))).
Proof.
  unfold update_batch. simpl. rewrite !map_id. reflexivity.
Qed.
End StandardizeAgent.

(** C8, as stated, fails where all raw advantages are equal: the two
    transitions of [equal_advantages_agent] both have advantage [0.75]; the
    standardized advantages are [0, 0], whose standard deviation is [0], at
    distance [1] from [1].  Binary64 gives the same numbers. *)
Lemma standardized_equal_advantages_std_zero :
  b_advantages (update_batch (F := R) equal_advantages_agent) = [0; 0]%R /\
  tstd (b_advantages (update_batch (F := R) equal_advantages_agent)) = 0%R /\
  Rabs (tstd (b_advantages (update_batch (F := R) equal_advantages_agent)) - 1)
    = 1%R /\
  b_advantages (update_batch (F := float) equal_advantages_agent)
    = [0; 0]%float /\
  tstd (b_advantages (update_batch (F := float) equal_advantages_agent))
    = 0%float.
Proof.
  assert (Hz : b_advantages (update_batch (F := R) equal_advantages_agent)
               = [0; 0]%R).
  { rewrite update_batch_advantages_R.
    set (raw := zip_with Rminus _ _).
    assert (Hall : Forall (fun a => a = (1 + 5 / 10 * 0 - 25 / 100)%R) raw).
    { unfold raw, _compute_returns. simpl. eval_pow10.
      repeat constructor. }
    pose proof (standardize_const _ raw ltac:(simpl; lia) Hall) as H0.
    destruct (standardize raw) as [|b1 [|b2 [|b3 l]]] eqn:Hs;
      try (apply (f_equal length) in Hs; rewrite standardize_length in Hs;
           simpl in Hs; discriminate).
    apply Forall_cons_1 in H0 as [-> H0].
    apply Forall_cons_1 in H0 as [-> _]. reflexivity. }
  rewrite Hz.
  assert (Hs : tstd [0; 0]%R = 0%R).
  { apply (tstd_const 0%R); [simpl; lia | repeat constructor]. }
  rewrite Hs.
  split; [reflexivity | split; [reflexivity | split; [| split]]].
  - unfold Rabs. destruct (Rcase_abs (0 - 1)); lra.
  - vm_compute. reflexivity.
  - vm_compute. reflexivity.
Qed.

(** C8, amended.  In exact arithmetic, for a buffer of more than one
    transition, the standardized advantages have mean [0] and standard
    deviation [s / (s + 1e-8)], where [s] is the standard deviation of the raw
    advantages (returns minus stored values).  That number is below [1], is
    within [tol] of [1] as soon as [1e-8 <= tol * (s + 1e-8)], and is [0] when
    all raw advantages are equal, the standardized advantages then being all
    [0]. *)
Theorem standardized_advantages_moments :
  forall (M : Type) (a : agent R M),
    buffer_wf (buf a) ->
    (1 < length (states (buf a)))%nat ->
    let raw := zip_with Rminus (_compute_returns a) (values (buf a)) in
    let z := b_advantages (update_batch a) in
    length z = length (states (buf a)) /\
    tmean z = 0%R /\
    tstd z = (tstd raw / (tstd raw + dec 1 8))%R /\
    (0 <= tstd z < 1)%R /\
    (forall tol : R,
       (dec 1 8 <= tol * (tstd raw + dec 1 8))%R ->
       (Rabs (tstd z - 1) <= tol)%R) /\
    (forall x : R,
       Forall (fun r => r = x) raw ->
       Forall (fun b => b = 0%R) z /\ tstd z = 0%R).
Proof.
  intros M a Hwf Hn raw z.
  assert (Hz : z = standardize raw) by apply update_batch_advantages_R.
  assert (Hlen : length raw = length (states (buf a)))
    by apply raw_advantages_length, Hwf.
  assert (Hstd : tstd z = (tstd raw / (tstd raw + dec 1 8))%R)
    by (rewrite Hz; apply standardize_std; lia).
  pose proof (tstd_nonneg raw) as Hs. pose proof eps_pos as He.
  set (s := tstd raw) in *. set (e := dec (F := R) 1 8) in *.
  assert (H1 : (1 - s / (s + e) = e / (s + e))%R) by (field; lra).
  assert (Hq : (0 < e / (s + e))%R) by (apply Rdiv_lt_0_compat; lra).
  assert (Hp : (0 <= s / (s + e))%R).
  { unfold Rdiv. apply Rmult_le_pos; [lra|].
    apply Rlt_le, Rinv_0_lt_compat. lra. }
  repeat split.
  - rewrite Hz, standardize_length. exact Hlen.
  - rewrite Hz. apply standardize_mean. lia.
  - exact Hstd.
  - rewrite Hstd. exact Hp.
  - rewrite Hstd. lra.
  - intros tol Htol. rewrite Hstd.
    replace (s / (s + e) - 1)%R with (- (e / (s + e)))%R by lra.
    rewrite Rabs_Ropp, Rabs_pos_eq by lra.
    apply (Rmult_le_reg_r (s + e)); [lra|].
    unfold Rdiv. rewrite Rmult_assoc, Rinv_l by lra. lra.
  - rewrite Hz. apply (standardize_const x); [lia | assumption].
  - rewrite Hstd. fold s.
    assert (Hs0 : s = 0%R) by (apply (tstd_const x); [lia | assumption]).
    rewrite Hs0. unfold Rdiv. ring.
Qed.

(** The moments at the two transitions of [two_transition_agent]. *)
Lemma standardized_advantages_moments_witness :
  tmean (b_advantages (update_batch (F := R) two_transition_agent)) = 0%R.
Proof.
  refine (proj1 (proj2 (standardized_advantages_moments Z
                          two_transition_agent _ _))).
  - repeat split.
  - simpl. lia.
Defined.

(** ** The control loop *)

Section LoopProps.
Context `{Arith F}.
Context {M G : Type}.
Variable sample : M -> list F -> G -> (Z * F * F) * G.
Variable ppo_epoch : config F -> M -> batch F -> M * F.
Variable py_int : string -> option Z.
Variable py_float : string -> option F.

(** Without a readable stats file the metrics are the all-zero snapshot. *)
Lemma get_metrics_no_stats (f : stats_file) (rt : Z) :
  get_stats f = ∅ ->
  get_metrics py_int py_float f rt = Ok zero_metrics.
Proof.
  intros Hf. unfold get_metrics. rewrite Hf.
  destruct (decide (∅ = ∅)) as [_ | Hne]; [reflexivity | congruence].
Qed.


(** The final update of a buffer that is not empty and smaller than the
    batch size changes nothing and reports a loss of [0.0]. *)
Lemma final_update_small (s : loop_state F M G) :
  (0 < Z.of_nat (length (states (buf (ppo s)))) < batch_size (cfg (ppo s)))%Z ->
  final_update ppo_epoch s = (s, Ok (Some (of_Z 0))).
Proof.
  intros [Hpos Hlt]. unfold final_update.
  rewrite (proj2 (Z.ltb_lt _ _) Hpos), (update_small ppo_epoch _ Hlt).
  destruct s; reflexivity.
Qed.
End LoopProps.

(** C1 fails on the code.  The campaign [short_campaign] ends with one
    transition in the buffer while the batch size is two.  The [finally]
    clause does call [update], whose size test returns [0.0] at once: the
    transition is still in the buffer when the function leaves, and the
    checkpoint is the model as it was initialised, no optimizer step taken. *)
Theorem final_update_skips_small_buffer :
  let s := fst (ticks stub_sample stub_epoch stub_int stub_float
                  (start example_config 0%Z 0%nat) [first_pass; second_pass]) in
  length (states (buf (ppo s))) = 1%nat /\
  batch_size (cfg (ppo s)) = 2%Z /\
  final_update stub_epoch s = (s, Ok (Some 0%float)) /\
  buf (ppo (fst short_campaign)) = buf (ppo s) /\
  rewards (buf (ppo (fst short_campaign))) = [13.1%float] /\
  snd short_campaign = Some 0%Z.
Proof.
  intros s.
  assert (Hlen : length (states (buf (ppo s))) = 1%nat)
    by (vm_compute; reflexivity).
  assert (Hfin : final_update stub_epoch s = (s, Ok (Some 0%float))).
  { rewrite (final_update_small (F := float) stub_epoch s).
    - reflexivity.
    - rewrite Hlen. split; vm_compute; reflexivity. }
  split; [exact Hlen|]. split; [reflexivity|]. split; [exact Hfin|].
  unfold short_campaign, run_ppo_enhanced, finally_clause. fold s.
  rewrite Hfin. simpl fst. simpl snd.
  split; [reflexivity|]. split; vm_compute; reflexivity.
Qed.




(** * Further properties of the agent *)

(** X1.  [compute_reward] reads three fields of the previous dictionary
    ([coverage_rate], [crash_count], [unique_paths]) and four of the current
    one: setting or deleting any other key of either, the previous
    [exec_speed] included, changes neither the reward nor the exception. *)
Theorem compute_reward_reads_only_its_fields :
  forall (F : Type) (HA : Arith F) (c : config F)
         (prev curr : gmap string F) (k : string) (v : F),
    (~ In k prev_fields ->
     compute_reward c (<[k := v]> prev) curr = compute_reward c prev curr /\
     compute_reward c (delete k prev) curr = compute_reward c prev curr) /\
    (~ In k reward_fields ->
     compute_reward c prev (<[k := v]> curr) = compute_reward c prev curr /\
     compute_reward c prev (delete k curr) = compute_reward c prev curr).
Proof.
  intros F HA c prev curr k v. split; intros Hk; simpl in Hk.
  - assert (H1 : k <> "coverage_rate")
      by (intros ->; apply Hk; repeat first [left; reflexivity | right]).
    assert (H2 : k <> "crash_count")
      by (intros ->; apply Hk; repeat first [left; reflexivity | right]).
    assert (H3 : k <> "unique_paths")
      by (intros ->; apply Hk; repeat first [left; reflexivity | right]).
    unfold compute_reward, get.
    rewrite !lookup_insert_ne, !lookup_delete_ne by assumption.
    split; reflexivity.
  - assert (H1 : k <> "coverage_rate")
      by (intros ->; apply Hk; repeat first [left; reflexivity | right]).
    assert (H2 : k <> "crash_count")
      by (intros ->; apply Hk; repeat first [left; reflexivity | right]).
    assert (H3 : k <> "exec_speed")
      by (intros ->; apply Hk; repeat first [left; reflexivity | right]).
    assert (H4 : k <> "unique_paths")
      by (intros ->; apply Hk; repeat first [left; reflexivity | right]).
    unfold compute_reward, getitem.
    rewrite !lookup_insert_ne, !lookup_delete_ne by assumption.
    split; reflexivity.
Qed.

(** Overwriting the previous [exec_speed] and deleting the current
    [queue_size] of the worked pair. *)
Lemma compute_reward_reads_only_its_fields_witness :
  compute_reward (F := float) example_config
    (<["exec_speed" := 9%float]> stagnant_prev) stagnant_curr
  = compute_reward example_config stagnant_prev stagnant_curr /\
  compute_reward (F := float) example_config
    stagnant_prev (delete "queue_size" stagnant_curr)
  = compute_reward example_config stagnant_prev stagnant_curr.
Proof.
  split.
  - refine (proj1 (proj1 (compute_reward_reads_only_its_fields float _
             example_config stagnant_prev stagnant_curr "exec_speed" 9%float) _)).
    simpl. intros [H | [H | [H | []]]]; discriminate H.
  - refine (proj2 (proj2 (compute_reward_reads_only_its_fields float _
             example_config stagnant_prev stagnant_curr "queue_size" 0%float) _)).
    simpl. intros [H | [H | [H | [H | []]]]]; discriminate H.
Defined.

(** X2.  In exact arithmetic the rewards of two consecutive steps add up to
    the reward of the combined step plus the speed term of the middle
    snapshot: the three deltas telescope, the speed bonus is paid at every
    step. *)
Theorem compute_reward_telescopes :
  forall (c : config R) (m0 m1 m2 : gmap string R),
    has_keys reward_fields m1 = true ->
    has_keys reward_fields m2 = true ->
    has_keys weight_names (reward_weights c) = true ->
    exists r01 r12 r02 : R,
      compute_reward c m0 m1 = Ok r01 /\
      compute_reward c m1 m2 = Ok r12 /\
      compute_reward c m0 m2 = Ok r02 /\
      (r01 + r12 =
       r02 + get (reward_weights c) "execution_speed" 0
             * (get m1 "exec_speed" 0 / 1000))%R.
Proof.
  intros c m0 m1 m2 H1 H2 Hw.
  do 3 eexists.
  rewrite (compute_reward_formula c m0 m1 H1 Hw),
    (compute_reward_formula c m1 m2 H2 Hw),
    (compute_reward_formula c m0 m2 H2 Hw).
  repeat (split; [reflexivity|]).
  simpl. unfold Rdiv. ring.
Qed.

(** Three snapshots of the worked campaign, in exact arithmetic. *)
Lemma compute_reward_telescopes_witness :
  exists r01 r12 r02 : R,
    compute_reward example_config stagnant_prev stagnant_curr = Ok r01 /\
    compute_reward example_config stagnant_curr zero_metrics = Ok r12 /\
    compute_reward example_config stagnant_prev zero_metrics = Ok r02 /\
    (r01 + r12 = r02 + 1 * (500 / 1000))%R.
Proof.
  exact (compute_reward_telescopes example_config stagnant_prev stagnant_curr
           zero_metrics eq_refl eq_refl eq_refl).
Defined.

Section ReturnsMore.
Context `{Arith F}.
Local Open Scope arith_scope.

Lemma backward_returns_app (gam : F) (rs1 rs2 : list F) (ds1 ds2 : list bool) :
  length rs1 = length ds1 ->
  last ds1 = Some true ->
  backward_returns gam (rs1 ++ rs2) (ds1 ++ ds2) =
    backward_returns gam rs1 ds1 ++ backward_returns gam rs2 ds2.
Proof.
  revert ds1; induction rs1 as [|r rs1 IH]; intros [|d ds1] Hlen Hlast;
    simpl in Hlen; try discriminate.
  injection Hlen as Hlen.
  destruct rs1 as [|r' rs1], ds1 as [|d' ds1]; simpl in Hlen; try discriminate.
  - simpl in Hlast. injection Hlast as ->. reflexivity.
  - assert (Hlast' : last (d' :: ds1) = Some true) by exact Hlast.
    specialize (IH (d' :: ds1) ltac:(simpl; congruence) Hlast').
    change ((r :: r' :: rs1) ++ rs2) with (r :: ((r' :: rs1) ++ rs2)).
    change ((d :: d' :: ds1) ++ ds2) with (d :: ((d' :: ds1) ++ ds2)).
    cbn [backward_returns]. cbn [backward_returns] in IH. rewrite IH.
    reflexivity.
Qed.

Lemma zip_rev_suffix (p rs : list F) (q ds : list bool) :
  length rs = length ds -> p = [] \/ q = [] ->
  zip (rev (p ++ rs)) (rev (q ++ ds)) = zip (rev rs) (rev ds).
Proof.
  intros Hlen Hpq. rewrite !rev_app_distr.
  rewrite zip_with_app by (rewrite !length_rev; exact Hlen).
  destruct Hpq as [-> | ->]; simpl.
  - apply app_nil_r.
  - destruct (rev p); apply app_nil_r.
Qed.
End ReturnsMore.

(** X3.  A transition flagged [done] cuts the returns: when the buffer is
    the transitions of [a1], the last of which is flagged, followed by those
    of [a2], its returns are the returns of [a1] followed by the returns of
    [a2].  No reward after an episode boundary reaches a return before it. *)
Theorem compute_returns_episode_boundary :
  forall (F : Type) (HA : Arith F) (M : Type) (a a1 a2 : agent F M),
    gamma (cfg a1) = gamma (cfg a) ->
    gamma (cfg a2) = gamma (cfg a) ->
    rewards (buf a) = rewards (buf a1) ++ rewards (buf a2) ->
    dones (buf a) = dones (buf a1) ++ dones (buf a2) ->
    length (rewards (buf a1)) = length (dones (buf a1)) ->
    length (rewards (buf a2)) = length (dones (buf a2)) ->
    last (dones (buf a1)) = Some true ->
    _compute_returns a = _compute_returns a1 ++ _compute_returns a2.
Proof.
  intros F HA M a a1 a2 Hg1 Hg2 Hr Hd Hl1 Hl2 Hlast.
  unfold _compute_returns.
  rewrite (fold_returns_backward _ _ _ Hl1), (fold_returns_backward _ _ _ Hl2).
  rewrite fold_returns_backward
    by (rewrite Hr, Hd, !length_app; congruence).
  simpl. rewrite Hr, Hd, Hg1, Hg2.
  apply backward_returns_app; assumption.
Qed.

(** The two episodes of the worked buffer: [1.75, 1.5, 1] and [8, 8]. *)
Lemma compute_returns_episode_boundary_witness :
  _compute_returns (F := float) two_episode_agent
    = [1.75; 1.5; 1; 8; 8]%float.
Proof.
  rewrite (compute_returns_episode_boundary float _ unit two_episode_agent
             returns_example_agent second_episode_agent
             eq_refl eq_refl eq_refl eq_refl eq_refl eq_refl eq_refl).
  vm_compute. reflexivity.
Defined.

Lemma Rabs_le_bounds (x b : R) : (Rabs x <= b)%R -> (- b <= x <= b)%R.
Proof. unfold Rabs. destruct (Rcase_abs x); lra. Qed.

(** X4.  In exact arithmetic, with a discount in [[0, 1)] and every reward
    bounded by [B] in absolute value, every return is bounded by
    [B / (1 - gamma)]. *)
Theorem compute_returns_bounded :
  forall (M : Type) (a : agent R M) (B : R),
    (0 <= gamma (cfg a) < 1)%R ->
    (0 <= B)%R ->
    Forall (fun r => (Rabs r <= B)%R) (rewards (buf a)) ->
    Forall (fun x => (Rabs x <= B / (1 - gamma (cfg a)))%R) (_compute_returns a).
Proof.
  intros M a B [Hg0 Hg1] HB Hall.
  set (g := gamma (cfg a)) in *.
  set (K := (B / (1 - g))%R).
  assert (HK : (K * (1 - g) = B)%R) by (unfold K; field; lra).
  assert (HK0 : (0 <= K)%R).
  { unfold K, Rdiv. apply Rmult_le_pos; [lra|].
    apply Rlt_le, Rinv_0_lt_compat. lra. }
  assert (Haux : forall rs ds,
             Forall (fun r => (Rabs r <= B)%R) rs ->
             Forall (fun x => (- K <= x <= K)%R) (backward_returns g rs ds)).
  { induction rs as [|r rs IH]; intros [|d ds] Hrs; simpl;
      try (constructor; fail).
    apply Forall_cons_1 in Hrs as [Hr Hrs].
    specialize (IH ds Hrs). constructor; [|exact IH].
    apply Rabs_le_bounds in Hr.
    assert (HX : (- K <= (if d then 0 else hd 0 (backward_returns g rs ds)) <= K)%R).
    { destruct d; [simpl; lra|].
      destruct (backward_returns g rs ds) as [|x l]; [simpl; lra|].
      apply Forall_cons_1 in IH as [Hx _]. exact Hx. }
    simpl. nra. }
  assert (Hlist : Forall (fun x => (- K <= x <= K)%R) (_compute_returns a)).
  { unfold _compute_returns.
    set (rs := rewards (buf a)) in *. set (ds := dones (buf a)).
    set (n := Nat.min (length rs) (length ds)).
    assert (Hrs : rs = take (length rs - n) rs ++ drop (length rs - n) rs)
      by (symmetry; apply take_drop).
    assert (Hds : ds = take (length ds - n) ds ++ drop (length ds - n) ds)
      by (symmetry; apply take_drop).
    rewrite Hrs at 1. rewrite Hds at 1.
    rewrite zip_rev_suffix.
    - rewrite fold_returns_backward by (rewrite !length_drop; lia).
      simpl. fold g. apply Haux.
      rewrite Hrs in Hall. apply Forall_app in Hall as [_ Hall]. exact Hall.
    - rewrite !length_drop. lia.
    - destruct (Nat.le_ge_cases (length rs) (length ds)) as [Hle | Hle].
      + left. replace (length rs - n)%nat with 0%nat by lia. reflexivity.
      + right. replace (length ds - n)%nat with 0%nat by lia. reflexivity. }
  eapply Forall_impl; [exact Hlist|].
  intros x Hx. apply Rabs_le. exact Hx.
Qed.

(** Rewards [1, 1, 1] at discount [0.5]: every return is at most [2]. *)
Lemma compute_returns_bounded_witness :
  Forall (fun x => (Rabs x <= 1 / (1 - gamma (cfg returns_example_agent)))%R)
    (_compute_returns (F := R) returns_example_agent).
Proof.
  apply (compute_returns_bounded unit returns_example_agent 1%R).
  - simpl. eval_pow10. lra.
  - lra.
  - simpl. repeat constructor; rewrite Rabs_R1; lra.
Defined.

(** X5.  When the reward and flag lists differ in length, [zip] over the
    reversed lists pairs their ends: the returns are as many as the shorter
    list and are those of the two trailing segments of that length, the
    leading entries of the longer list being ignored. *)
Theorem compute_returns_pairs_trailing_entries :
  forall (F : Type) (HA : Arith F) (M : Type) (a : agent F M),
    let rs := rewards (buf a) in
    let ds := dones (buf a) in
    let n := Nat.min (length rs) (length ds) in
    length (_compute_returns a) = n /\
    _compute_returns a =
      backward_returns (gamma (cfg a))
        (drop (length rs - n) rs) (drop (length ds - n) ds).
Proof.
  intros F HA M a rs ds n.
  assert (Heq : _compute_returns a =
                backward_returns (gamma (cfg a))
                  (drop (length rs - n) rs) (drop (length ds - n) ds)).
  { unfold _compute_returns. fold rs. fold ds.
    rewrite <- (take_drop (length rs - n) rs) at 1.
    rewrite <- (take_drop (length ds - n) ds) at 1.
    rewrite zip_rev_suffix.
    - rewrite fold_returns_backward by (rewrite !length_drop; lia).
      reflexivity.
    - rewrite !length_drop. lia.
    - destruct (Nat.le_ge_cases (length rs) (length ds)) as [Hle | Hle].
      + left. replace (length rs - n)%nat with 0%nat by lia. reflexivity.
      + right. replace (length ds - n)%nat with 0%nat by lia. reflexivity. }
  split; [|exact Heq].
  rewrite Heq, backward_returns_length by (rewrite !length_drop; lia).
  rewrite length_drop. lia.
Qed.

(** X6.  With a positive batch size, a second [update] right after a first
    one returns [0.0] and changes nothing: the first call either did nothing
    itself or left the buffer empty. *)
Theorem update_second_call_noop :
  forall (F : Type) (HA : Arith F) (M : Type)
         (ppo_epoch : config F -> M -> batch F -> M * F) (a : agent F M),
    (0 < batch_size (cfg a))%Z ->
    update ppo_epoch (fst (update ppo_epoch a))
      = (fst (update ppo_epoch a), Ok (of_Z 0)).
Proof.
  intros F HA M ppo_epoch a Hpos.
  destruct (Z.lt_ge_cases (Z.of_nat (length (states (buf a))))
              (batch_size (cfg a))) as [Hlt | Hge].
  - rewrite (update_small ppo_epoch a Hlt). simpl.
    apply update_small, Hlt.
  - rewrite (update_large ppo_epoch a Hge). simpl.
    apply update_small. simpl. exact Hpos.
Qed.

(** A full batch is trained on once; the next call finds an empty buffer. *)
Lemma update_second_call_noop_witness :
  snd (update (F := float) stub_epoch
         (fst (update stub_epoch two_transition_agent))) = Ok 0%float.
Proof.
  rewrite (update_second_call_noop float _ Z stub_epoch two_transition_agent
             eq_refl).
  reflexivity.
Defined.

(** X7.  With a full batch and a number of epochs that is zero or negative,
    [update] takes no optimizer step and still discards the buffer; for zero
    epochs the final division raises [ZeroDivisionError], for a negative
    number it returns [0.0 / epochs]. *)
Theorem update_without_epochs_discards_buffer :
  forall (F : Type) (HA : Arith F) (M : Type)
         (ppo_epoch : config F -> M -> batch F -> M * F) (a : agent F M),
    (batch_size (cfg a) <= Z.of_nat (length (states (buf a))))%Z ->
    (epochs (cfg a) <= 0)%Z ->
    policy (fst (update ppo_epoch a)) = policy a /\
    buf (fst (update ppo_epoch a)) = empty_buffer /\
    (epochs (cfg a) = 0%Z -> snd (update ppo_epoch a) = Raise ZeroDivisionError) /\
    ((epochs (cfg a) < 0)%Z ->
     snd (update ppo_epoch a) = Ok (of_Z 0 / of_Z (epochs (cfg a)))%A).
Proof.
  intros F HA M ppo_epoch a Hge Hep.
  rewrite (update_large ppo_epoch a Hge).
  assert (Hn : Z.to_nat (epochs (cfg a)) = 0%nat) by lia.
  simpl. rewrite Hn. simpl. repeat split.
  - intros ->. reflexivity.
  - intros Hneg. destruct (Z.eqb_spec (epochs (cfg a)) 0) as [Hz | _]; [lia|].
    reflexivity.
Qed.

(** [two_transition_agent] reconfigured with zero epochs. *)
Lemma update_without_epochs_discards_buffer_witness :
  let c := {| gamma := gamma example_config;
              epsilon_clip := epsilon_clip example_config;
              epochs := 0;
              entropy_coefficient := entropy_coefficient example_config;
              batch_size := 2; update_interval := 10;
              reward_weights := reward_weights example_config |} in
  let a := {| cfg := c; policy := 0%Z;
              buf := buf (two_transition_agent (F := float)) |} in
  buf (fst (update stub_epoch a)) = empty_buffer /\
  snd (update stub_epoch a) = Raise ZeroDivisionError.
Proof.
  intros c a.
  destruct (update_without_epochs_discards_buffer float _ Z stub_epoch a
              ltac:(vm_compute; discriminate) ltac:(vm_compute; discriminate))
    as (_ & Hbuf & Hzero & _).
  split; [exact Hbuf | exact (Hzero eq_refl)].
Defined.

(** X8.  On a buffer whose six lists have one length [N], the five tensors
    that [update] builds (states, actions, old log-probabilities, advantages,
    returns) all have length [N]. *)
Theorem update_batch_shapes :
  forall (F : Type) (HA : Arith F) (M : Type) (a : agent F M),
    buffer_wf (buf a) ->
    let n := length (states (buf a)) in
    let bt := update_batch a in
    length (b_states bt) = n /\ length (b_actions bt) = n /\
    length (b_old_log_probs bt) = n /\ length (b_advantages bt) = n /\
    length (b_returns bt) = n.
Proof.
  intros F HA M a (Ha & Hr & Hl & Hv & Hd) n bt.
  assert (Hret : length (_compute_returns a) = n).
  { unfold _compute_returns.
    rewrite fold_returns_backward by congruence. simpl.
    rewrite backward_returns_length by congruence. exact Hr. }
  unfold bt, update_batch, standardize. simpl.
  rewrite !length_map, length_zip_with, !length_map, Hret.
  repeat split; try assumption. fold n. lia.
Qed.

(** The tensors of the two stored transitions. *)
Lemma update_batch_shapes_witness :
  length (b_advantages (update_batch (F := float) two_transition_agent)) = 2%nat.
Proof.
  refine (proj1 (proj2 (proj2 (proj2 (update_batch_shapes float _ Z
            two_transition_agent _))))).
  repeat split.
Defined.

Section StandardizeShift.
Local Open Scope R_scope.

Lemma tsum_shift (c : R) (t : list R) :
  tsum (map (fun a => a + c) t) = tsum t + IZR (Z.of_nat (length t)) * c.
Proof.
  induction t as [|x t IH].
  - simpl map. rewrite tsum_nil, len_nil. ring.
  - simpl map. rewrite !tsum_cons, IH, len_cons. ring.
Qed.

Lemma tmean_shift (c : R) (t : list R) :
  (0 < length t)%nat -> tmean (map (fun a => a + c) t) = tmean t + c.
Proof.
  intros Hn. pose proof (len_pos t Hn) as Hlen.
  rewrite !tmean_R, length_map, tsum_shift. field. lra.
Qed.

Lemma tstd_shift (c : R) (t : list R) :
  (0 < length t)%nat -> tstd (map (fun a => a + c) t) = tstd t.
Proof.
  intros Hn. rewrite !tstd_R, tmean_shift, length_map by exact Hn.
  rewrite map_map. do 2 f_equal. f_equal.
  apply map_ext. intros a. ring.
Qed.

Lemma standardize_shift (c : R) (t : list R) :
  standardize (map (fun a => a + c) t) = standardize t.
Proof.
  destruct t as [|x t]; [reflexivity|].
  assert (Hn : (0 < length (x :: t))%nat) by (simpl; lia).
  rewrite !standardize_R, tmean_shift, tstd_shift by exact Hn.
  rewrite map_map. apply map_ext. intros a.
  replace (a + c - (tmean (x :: t) + c)) with (a - tmean (x :: t)) by ring.
  reflexivity.
Qed.
End StandardizeShift.

(** X9.  In exact arithmetic the standardized advantages do not change when
    every stored value estimate is raised by the same constant: a uniform
    bias of the critic leaves the advantages that the epochs train on as they
    were. *)
Theorem advantages_ignore_value_offset :
  forall (M : Type) (a a' : agent R M) (c : R),
    gamma (cfg a') = gamma (cfg a) ->
    rewards (buf a') = rewards (buf a) ->
    dones (buf a') = dones (buf a) ->
    values (buf a') = map (fun v => (v + c)%R) (values (buf a)) ->
    b_advantages (update_batch a') = b_advantages (update_batch a).
Proof.
  intros M a a' c Hg Hr Hd Hv.
  rewrite !update_batch_advantages_R.
  assert (Hret : _compute_returns a' = _compute_returns a)
    by (unfold _compute_returns; rewrite Hg, Hr, Hd; reflexivity).
  rewrite Hret, Hv.
  assert (Hz : zip_with Rminus (_compute_returns a)
                 (map (fun v => (v + c)%R) (values (buf a)))
               = map (fun x => (x + - c)%R)
                   (zip_with Rminus (_compute_returns a) (values (buf a)))).
  { generalize (_compute_returns a) as rs. generalize (values (buf a)) as vs.
    induction vs as [|v vs IH]; intros [|r rs]; simpl; try reflexivity.
    f_equal; [lra | apply IH]. }
  rewrite Hz. apply standardize_shift.
Qed.

(** The critic of [biased_two_transition_agent] is higher by one. *)
Lemma advantages_ignore_value_offset_witness :
  b_advantages (update_batch (F := R) biased_two_transition_agent)
    = b_advantages (update_batch two_transition_agent).
Proof.
  exact (advantages_ignore_value_offset Z two_transition_agent
           biased_two_transition_agent 1%R eq_refl eq_refl eq_refl eq_refl).
Defined.

(** * Properties of the feedback analyzer *)

(** X10.  Fed snapshots that hold all their fields, [analyze] never fails:
    from a state that is empty or holds such a snapshot it returns the
    current snapshot with [done = False], stores it as the previous one, and
    the reward is [0.0] on the first call and [_calculate_reward] of the
    stored and the current snapshot afterwards. *)
Theorem analyze_succeeds_on_snapshots :
  forall (F : Type) (HA : Arith F)
         (previous : option (gmap string F)) (current : gmap string F),
    match previous with
    | None => True
    | Some p => has_keys snapshot_fields p = true
    end ->
    has_keys snapshot_fields current = true ->
    exists reward : F,
      analyze previous current = (Some current, Ok (current, reward, false)) /\
      match previous with
      | None => reward = of_Z 0
      | Some p => _calculate_reward p current = Ok reward
      end.
Proof.
  intros F HA [p|] current Hp Hc; [|eexists; split; reflexivity].
  key_of Hc "coverage_rate" as c1 Hc1. key_of Hc "crash_count" as c2 Hc2.
  key_of Hc "exec_speed" as c3 Hc3. key_of Hc "unique_paths" as c4 Hc4.
  key_of Hp "coverage_rate" as p1 Hp1. key_of Hp "crash_count" as p2 Hp2.
  key_of Hp "unique_paths" as p4 Hp4.
  unfold analyze, _calculate_reward.
  rewrite (getitem_Some _ _ _ Hc1), (getitem_Some _ _ _ Hc2),
    (getitem_Some _ _ _ Hc3), (getitem_Some _ _ _ Hc4),
    (getitem_Some _ _ _ Hp1), (getitem_Some _ _ _ Hp2),
    (getitem_Some _ _ _ Hp4).
  simpl. eexists. split; reflexivity.
Qed.

(** The first and the second call on the worked pair of snapshots. *)
Lemma analyze_succeeds_on_snapshots_witness :
  (exists r : float,
     analyze None stagnant_prev = (Some stagnant_prev, Ok (stagnant_prev, r, false))
     /\ r = 0%float) /\
  (exists r : float,
     analyze (Some stagnant_prev) stagnant_curr
       = (Some stagnant_curr, Ok (stagnant_curr, r, false))
     /\ _calculate_reward stagnant_prev stagnant_curr = Ok r).
Proof.
  split.
  - exact (analyze_succeeds_on_snapshots float _ None stagnant_prev I eq_refl).
  - exact (analyze_succeeds_on_snapshots float _ (Some stagnant_prev)
             stagnant_curr eq_refl eq_refl).
Defined.

(** ** The analyzer on a store *)

Section SharedAnalyzerProps.
Context `{Arith F}.

Lemma deref_setitem (h : list (gmap string F)) (r : nat) (k : string) (v : F) :
  (r < length h)%nat ->
  deref (setitem h r k v) r = <[k := v]> (deref h r).
Proof.
  intros Hr. unfold deref at 1, setitem.
  rewrite list_lookup_insert_eq by exact Hr. reflexivity.
Qed.

Lemma deref_setitem_ne (h : list (gmap string F)) (r r' : nat) (k : string)
    (v : F) :
  r <> r' -> deref (setitem h r k v) r' = deref h r'.
Proof.
  intros Hne. unfold deref at 1, setitem.
  rewrite list_lookup_insert_ne by exact Hne. reflexivity.
Qed.

Lemma deref_alloc (h : list (gmap string F)) (d : gmap string F) :
  deref (h ++ [d]) (length h) = d.
Proof.
  unfold deref. rewrite lookup_app_r by lia.
  rewrite Nat.sub_diag. reflexivity.
Qed.

Lemma deref_alloc_old (h : list (gmap string F)) (d : gmap string F) (r : nat) :
  (r < length h)%nat -> deref (h ++ [d]) r = deref h r.
Proof.
  intros Hr. unfold deref. rewrite lookup_app_l by exact Hr. reflexivity.
Qed.

(** Call by call, the analyzer on the store does what [analyze] does on the
    dictionaries that the references stand for at the time of the call. *)
Lemma analyze_shared_analyze (h : list (gmap string F))
    (previous : option nat) (current : nat) :
  match previous with Some p => (p < length h)%nat | None => True end ->
  (current < length h)%nat ->
  let '(h', previous', r) := analyze_shared h previous current in
  analyze (deref h <$> previous) (deref h current)
  = (deref h' <$> previous',
     match r with
     | Ok (c, reward, done) => Ok (deref h' c, reward, done)
     | Raise e => Raise e
     end).
Proof.
  intros Hp Hc. unfold analyze_shared, analyze.
  destruct previous as [p|]; simpl; [|reflexivity].
  destruct (_calculate_reward (deref h p) (deref h current)) as [reward|e];
    simpl; [|reflexivity].
  rewrite deref_alloc, deref_alloc_old by exact Hc. reflexivity.
Qed.

Lemma analyze_shared_missing (h : list (gmap string F)) (p current : nat)
    (k : string) :
  In k prev_fields -> deref h p !! k = None ->
  exists k' : string,
    analyze_shared h (Some p) current = (h, Some p, Raise (KeyError k')).
Proof.
  intros Hin Hk.
  unfold analyze_shared, _calculate_reward, getitem.
  repeat match goal with
    | |- context [match ?d !! ?key with _ => _ end] =>
        destruct (d !! key) eqn:?; simpl
    | |- exists k', (_, Raise (KeyError ?key)) = (_, Raise (KeyError k')) =>
        exists key; reflexivity
    end.
  exfalso. simpl in Hin.
  repeat (destruct Hin as [<- | Hin]; [congruence |]). destruct Hin.
Qed.

Lemma analyze_shared_full (h : list (gmap string F)) (p current : nat) :
  has_keys prev_fields (deref h p) = true ->
  has_keys reward_fields (deref h current) = true ->
  exists reward : F,
    _calculate_reward (deref h p) (deref h current) = Ok reward /\
    analyze_shared h (Some p) current
    = (h ++ [deref h current], Some (length h), Ok (current, reward, false)).
Proof.
  intros Hp Hc.
  key_of Hc "coverage_rate" as c1 Hc1. key_of Hc "crash_count" as c2 Hc2.
  key_of Hc "exec_speed" as c3 Hc3. key_of Hc "unique_paths" as c4 Hc4.
  key_of Hp "coverage_rate" as p1 Hp1. key_of Hp "crash_count" as p2 Hp2.
  key_of Hp "unique_paths" as p4 Hp4.
  unfold analyze_shared, _calculate_reward.
  rewrite (getitem_Some _ _ _ Hc1), (getitem_Some _ _ _ Hc2),
    (getitem_Some _ _ _ Hc3), (getitem_Some _ _ _ Hc4),
    (getitem_Some _ _ _ Hp1), (getitem_Some _ _ _ Hp2),
    (getitem_Some _ _ _ Hp4).
  simpl. eexists. split; reflexivity.
Qed.
End SharedAnalyzerProps.

(** X11.  [analyze] keeps the caller's own dictionary on its first call and
    a copy on later calls.  A call made while the kept dictionary lacks
    [coverage_rate], [crash_count] or [unique_paths] raises [KeyError] and
    changes nothing.  Since the dictionary kept by the first call is the
    caller's, the caller assigning the missing field in it makes the next
    call succeed, without [reset].  After a call that succeeded the kept
    dictionary is a new one: what the caller then assigns in its own
    dictionary does not reach it. *)
Theorem analyze_keeps_callers_first_dictionary :
  forall (F : Type) (HA : Arith F) (h : list (gmap string F))
         (first current : nat) (k : string) (v : F),
    (first < length h)%nat -> (current < length h)%nat ->
    In k prev_fields -> deref h first !! k = None ->
    analyze_shared h None first = (h, Some first, Ok (first, of_Z 0, false)) /\
    (exists k' : string,
       analyze_shared h (Some first) current
       = (h, Some first, Raise (KeyError k'))) /\
    (let h1 := setitem h first k v in
     has_keys prev_fields (deref h1 first) = true ->
     has_keys reward_fields (deref h1 current) = true ->
     exists reward : F,
       analyze_shared h1 (Some first) current
       = (h1 ++ [deref h1 current], Some (length h), Ok (current, reward, false)) /\
       forall (k2 : string) (v2 : F),
         deref (setitem (h1 ++ [deref h1 current]) current k2 v2) (length h)
         = deref h1 current).
Proof.
  intros F HA h first current k v Hf Hc Hin Hk.
  split; [reflexivity|]. split.
  - exact (analyze_shared_missing h first current k Hin Hk).
  - intros h1 Hp Hr.
    assert (Hlen : length h1 = length h)
      by (unfold h1, setitem; apply length_insert).
    destruct (analyze_shared_full h1 first current Hp Hr) as (reward & _ & Ha).
    exists reward. split; [rewrite <- Hlen; exact Ha|].
    intros k2 v2. rewrite deref_setitem_ne by lia.
    rewrite <- Hlen. apply deref_alloc.
Qed.

(** The store of two dictionaries: the call on the second raises while the
    first lacks [unique_paths], and returns once the caller has set it. *)
Lemma analyze_keeps_callers_first_dictionary_witness :
  (exists k' : string,
     analyze_shared two_dictionaries (Some 0%nat) 1%nat
     = (two_dictionaries, Some 0%nat, Raise (KeyError k'))) /\
  (exists reward : float,
     analyze_shared (setitem two_dictionaries 0 "unique_paths" 20%float)
       (Some 0%nat) 1%nat
     = (setitem two_dictionaries 0 "unique_paths" 20%float ++ [stagnant_curr],
        Some 2%nat, Ok (1%nat, reward, false))).
Proof.
  destruct (analyze_keeps_callers_first_dictionary float float_arith
              two_dictionaries 0%nat 1%nat "unique_paths" 20%float
              ltac:(simpl; lia) ltac:(simpl; lia)
              ltac:(simpl; tauto) ltac:(vm_compute; reflexivity))
    as (_ & Hraise & Hfix).
  split; [exact Hraise|].
  destruct (Hfix ltac:(vm_compute; reflexivity) ltac:(vm_compute; reflexivity))
    as (reward & Hcall & _).
  exists reward. exact Hcall.
Defined.

(** X12.  In exact arithmetic, with the weights that the analyzer has built
    in ([1], [10], [1] and [0.5]) given to the agent, the analyzer's reward
    on two full snapshots is the agent's reward, less [0.1] exactly when
    coverage and paths are both unchanged. *)
Theorem analyzer_reward_is_agent_reward_less_penalty :
  forall (c : config R) (prev curr : gmap string R),
    has_keys snapshot_fields prev = true ->
    has_keys snapshot_fields curr = true ->
    reward_weights c !! "coverage_increase" = Some 1%R ->
    reward_weights c !! "unique_crash" = Some 10%R ->
    reward_weights c !! "execution_speed" = Some 1%R ->
    reward_weights c !! "path_diversity" = Some 0.5%R ->
    exists r_agent r_analyzer : R,
      compute_reward c prev curr = Ok r_agent /\
      _calculate_reward prev curr = Ok r_analyzer /\
      (get curr "coverage_rate" 0%R = get prev "coverage_rate" 0%R /\
       get curr "unique_paths" 0%R = get prev "unique_paths" 0%R ->
       r_analyzer = (r_agent - 0.1)%R) /\
      (get curr "coverage_rate" 0%R <> get prev "coverage_rate" 0%R \/
       get curr "unique_paths" 0%R <> get prev "unique_paths" 0%R ->
       r_analyzer = r_agent).
Proof.
  intros c prev curr Hp Hc Hw1 Hw2 Hw3 Hw4.
  key_of Hc "coverage_rate" as c1 Hc1. key_of Hc "crash_count" as c2 Hc2.
  key_of Hc "exec_speed" as c3 Hc3. key_of Hc "unique_paths" as c4 Hc4.
  key_of Hp "coverage_rate" as p1 Hp1. key_of Hp "crash_count" as p2 Hp2.
  key_of Hp "unique_paths" as p4 Hp4.
  unfold compute_reward, _calculate_reward.
  rewrite (getitem_Some _ _ _ Hc1), (getitem_Some _ _ _ Hc2),
    (getitem_Some _ _ _ Hc3), (getitem_Some _ _ _ Hc4),
    (getitem_Some _ _ _ Hp1), (getitem_Some _ _ _ Hp2),
    (getitem_Some _ _ _ Hp4),
    (getitem_Some _ _ _ Hw1), (getitem_Some _ _ _ Hw2),
    (getitem_Some _ _ _ Hw3), (getitem_Some _ _ _ Hw4).
  rewrite !(get_Some _ _ _ _ Hc1), !(get_Some _ _ _ _ Hc4),
    !(get_Some _ _ _ _ Hp1), !(get_Some _ _ _ _ Hp2), !(get_Some _ _ _ _ Hp4).
  do 2 eexists. split; [reflexivity|]. split; [reflexivity|].
  unfold dec. simpl. eval_pow10.
  destruct (Req_dec_T (c1 - p1) 0) as [E1 | N1];
    destruct (Req_dec_T (c4 - p4) 0) as [E4 | N4]; simpl;
    split; intros Hcase; try lra;
    try (destruct Hcase as [Hx | Hx]; exfalso; lra);
    try (destruct Hcase as [Hx Hy]; exfalso; lra).
Qed.

(** The worked stagnant pair under [example_config], whose weights are the
    analyzer's. *)
Lemma analyzer_reward_is_agent_reward_less_penalty_witness :
  exists r_agent r_analyzer : R,
    compute_reward example_config stagnant_prev stagnant_curr = Ok r_agent /\
    _calculate_reward stagnant_prev stagnant_curr = Ok r_analyzer /\
    r_analyzer = (r_agent - 0.1)%R.
Proof.
  destruct (analyzer_reward_is_agent_reward_less_penalty example_config
              stagnant_prev stagnant_curr eq_refl eq_refl)
    as (ra & rn & Ha & Hn & Hst & _).
  - reflexivity.
  - reflexivity.
  - reflexivity.
  - reflexivity.
  - exists ra, rn. split; [exact Ha|]. split; [exact Hn|].
    apply Hst. split; reflexivity.
Defined.

(** X13.  In exact arithmetic, a snapshot that [detect_interesting_input]
    finds uninteresting against the stored one (no increase of coverage, of
    crashes or of paths) earns from the analyzer at most the speed bonus
    [exec_speed / 100 * 0.1]; and a snapshot is never interesting against
    itself, nor against an empty state. *)
Theorem uninteresting_input_earns_at_most_speed_bonus :
  forall prev curr : gmap string R,
    has_keys snapshot_fields prev = true ->
    has_keys snapshot_fields curr = true ->
    (detect_interesting_input (Some prev) curr = Ok false ->
     exists r : R,
       _calculate_reward prev curr = Ok r /\
       (r <= get curr "exec_speed" 0 / 100 * 0.1)%R) /\
    detect_interesting_input (Some curr) curr = Ok false /\
    detect_interesting_input None curr = Ok false.
Proof.
  intros prev curr Hp Hc.
  key_of Hc "coverage_rate" as c1 Hc1. key_of Hc "crash_count" as c2 Hc2.
  key_of Hc "exec_speed" as c3 Hc3. key_of Hc "unique_paths" as c4 Hc4.
  key_of Hp "coverage_rate" as p1 Hp1. key_of Hp "crash_count" as p2 Hp2.
  key_of Hp "unique_paths" as p4 Hp4.
  split; [|split; [|reflexivity]].
  - unfold detect_interesting_input, _calculate_reward.
    rewrite (getitem_Some _ _ _ Hc1), (getitem_Some _ _ _ Hc2),
      (getitem_Some _ _ _ Hc3), (getitem_Some _ _ _ Hc4),
      (getitem_Some _ _ _ Hp1), (getitem_Some _ _ _ Hp2),
      (getitem_Some _ _ _ Hp4), (get_Some _ _ _ _ Hc3).
    simpl. intros Hdet. injection Hdet as Hdet.
    destruct (Rlt_dec p1 c1) as [|G1]; [discriminate|].
    destruct (Rlt_dec p2 c2) as [|G2]; [discriminate|].
    destruct (Rlt_dec p4 c4) as [|G4]; [discriminate|].
    eexists. split; [reflexivity|].
    unfold dec. simpl. eval_pow10.
    destruct (Req_dec_T (c1 - p1) 0); destruct (Req_dec_T (c4 - p4) 0);
      simpl; lra.
  - unfold detect_interesting_input.
    rewrite (getitem_Some _ _ _ Hc1), (getitem_Some _ _ _ Hc2),
      (getitem_Some _ _ _ Hc4).
    simpl.
    destruct (Rlt_dec c1 c1); [lra|].
    destruct (Rlt_dec c2 c2); [lra|].
    destruct (Rlt_dec c4 c4); [lra|]. reflexivity.
Qed.

(** The worked pair: coverage, crashes and paths are unchanged. *)
Lemma uninteresting_input_earns_at_most_speed_bonus_witness :
  exists r : R,
    _calculate_reward stagnant_prev stagnant_curr = Ok r /\
    (r <= 500 / 100 * 0.1)%R.
Proof.
  refine (proj1 (uninteresting_input_earns_at_most_speed_bonus
                   stagnant_prev stagnant_curr eq_refl eq_refl) _).
  unfold detect_interesting_input, stagnant_prev, stagnant_curr, snapshot,
    getitem.
  repeat (rewrite ?lookup_insert_eq, ?lookup_insert_ne by discriminate).
  simpl.
  destruct (Rlt_dec 10 10); [lra|].
  destruct (Rlt_dec 1 1); [lra|].
  destruct (Rlt_dec 20 20); [lra|]. reflexivity.
Defined.

(** X14.  [get_state_features] copies the five state fields and nothing
    else, so encoding its result gives the state vector of the dictionary it
    was given; unlike [get_state_vector] it raises [KeyError], for the first
    of the five fields that is missing. *)
Theorem state_features_project_state_fields :
  forall (F : Type) (HA : Arith F) (metrics : gmap string F),
    (has_keys state_fields metrics = true ->
     exists feats : gmap string F,
       get_state_features metrics = Ok feats /\
       (forall k : string,
          feats !! k =
            if decide (In k state_fields) then metrics !! k else None) /\
       get_state_vector feats = get_state_vector metrics) /\
    (forall k : string,
       first_missing state_fields metrics = Some k ->
       get_state_features metrics = Raise (KeyError k)).
Proof.
  intros F HA metrics. split.
  - intros Hk.
    key_of Hk "coverage_rate" as v1 H1. key_of Hk "crash_count" as v2 H2.
    key_of Hk "exec_speed" as v3 H3. key_of Hk "queue_size" as v4 H4.
    key_of Hk "unique_paths" as v5 H5.
    unfold get_state_features.
    rewrite (getitem_Some _ _ _ H1), (getitem_Some _ _ _ H2),
      (getitem_Some _ _ _ H3), (getitem_Some _ _ _ H4),
      (getitem_Some _ _ _ H5).
    eexists. split; [reflexivity|]. split.
    + intros k. destruct (decide (In k state_fields)) as [Hin | Hout].
      * simpl in Hin.
        repeat (destruct Hin as [<- | Hin];
                [repeat (rewrite ?lookup_insert_eq, ?lookup_insert_ne
                           by discriminate); congruence |]).
        destruct Hin.
      * simpl in Hout.
        rewrite !lookup_insert_ne by (intros <-; apply Hout; tauto).
        apply lookup_empty.
    + unfold get_state_vector, get.
      repeat (rewrite ?lookup_insert_eq, ?lookup_insert_ne by discriminate).
      rewrite H1, H2, H3, H4, H5. reflexivity.
  - intros k Hk. unfold get_state_features, getitem.
    unfold first_missing, state_fields in Hk.
    repeat match type of Hk with
      | context [bool_decide (is_Some (metrics !! ?key))] =>
          destruct (metrics !! key) eqn:?; simpl in Hk |- *
      end;
    try rewrite bool_decide_eq_true_2 in Hk by eauto;
    try rewrite bool_decide_eq_false_2 in Hk by (apply is_Some_None);
    try discriminate; try (injection Hk as <-; reflexivity).
Qed.

(** The worked snapshot, whole and with [queue_size] deleted. *)
Lemma state_features_project_state_fields_witness :
  (exists feats : gmap string float,
     get_state_features stagnant_curr = Ok feats /\
     get_state_vector feats = get_state_vector stagnant_curr) /\
  get_state_features (F := float) (delete "queue_size" stagnant_curr)
    = Raise (KeyError "queue_size").
Proof.
  split.
  - destruct (proj1 (state_features_project_state_fields float _ stagnant_curr)
                eq_refl) as (feats & Hf & _ & Hv).
    exists feats. split; assumption.
  - exact (proj2 (state_features_project_state_fields float _
                    (delete "queue_size" stagnant_curr)) "queue_size" eq_refl).
Defined.

(** * Properties of the telemetry *)

Section TelemetryProps.
Context `{Arith F}.
Variable py_int : string -> option Z.
Variable py_float : string -> option F.



(** The dictionary literal of [get_metrics] has the seven snapshot fields. *)
Lemma snapshot_keys (v1 v2 v3 v4 v5 v6 v7 : F) (k : string) :
  is_Some ((<["coverage_rate" := v1]> (<["crash_count" := v2]> (
            <["exec_speed" := v3]> (<["queue_size" := v4]> (
            <["unique_paths" := v5]> (<["pending_paths" := v6]> (
            <["runtime" := v7]> (∅ : gmap string F)))))))) !! k)
  <-> In k snapshot_fields.
Proof.
  split.
  - intros Hs.
    destruct (decide (In k snapshot_fields)) as [Hin | Hout]; [exact Hin|].
    exfalso. simpl in Hout.
    rewrite !lookup_insert_ne in Hs by (intros <-; apply Hout; tauto).
    rewrite lookup_empty in Hs. destruct Hs as [x Hx]. discriminate.
  - intros Hin. simpl in Hin.
    repeat (destruct Hin as [<- | Hin];
            [repeat (rewrite ?lookup_insert_eq, ?lookup_insert_ne
                       by discriminate); eauto |]).
    destruct Hin.
Qed.

Lemma get_metrics_keys (f : stats_file) (rt : Z) (m : gmap string F) (k : string) :
  get_metrics py_int py_float f rt = Ok m ->
  is_Some (m !! k) <-> In k snapshot_fields.
Proof.
  unfold get_metrics. destruct (decide (get_stats f = ∅)) as [_ | _].
  - intros [= <-]. apply snapshot_keys.
  - destruct (parse_int py_int (get_stats f) "unique_crashes"); [|discriminate].
    destruct (parse_float py_float (get_stats f) "execs_per_sec"); [|discriminate].
    destruct (parse_int py_int (get_stats f) "paths_total"); [|discriminate].
    destruct (parse_int py_int (get_stats f) "paths_found"); [|discriminate].
    destruct (parse_int py_int (get_stats f) "pending_total"); [|discriminate].
    simpl. intros [= <-]. apply snapshot_keys.
Qed.

Lemma get_metrics_has_keys (f : stats_file) (rt : Z) (m : gmap string F) :
  get_metrics py_int py_float f rt = Ok m ->
  has_keys snapshot_fields m = true.
Proof.
  intros Hm. unfold has_keys. apply forallb_forall. intros k Hin.
  apply bool_decide_eq_true_2, (get_metrics_keys f rt m k Hm), Hin.
Qed.
End TelemetryProps.

(** X15.  Whenever [get_metrics] returns, the dictionary has exactly the
    seven snapshot fields, whatever the stats file held; so a reward computed
    from a snapshot it returned, against any previous dictionary and with the
    four weights present, never raises [KeyError]. *)
Theorem get_metrics_returns_full_snapshot :
  forall (F : Type) (HA : Arith F)
         (py_int : string -> option Z) (py_float : string -> option F)
         (f : stats_file) (rt : Z) (m : gmap string F),
    get_metrics py_int py_float f rt = Ok m ->
    (forall k : string, is_Some (m !! k) <-> In k snapshot_fields) /\
    (forall (c : config F) (prev : gmap string F),
       has_keys weight_names (reward_weights c) = true ->
       exists r : F, compute_reward c prev m = Ok r).
Proof.
  intros F HA py_int py_float f rt m Hm. split.
  - intros k. apply (get_metrics_keys py_int py_float f rt m k Hm).
  - intros c prev Hw. eexists. apply compute_reward_formula; [|exact Hw].
    apply (has_keys_incl snapshot_fields); [apply reward_fields_incl|].
    apply (get_metrics_has_keys py_int py_float f rt m Hm).
Qed.

(** The snapshot read from the first stats file of the worked campaign. *)
Lemma get_metrics_returns_full_snapshot_witness :
  exists r : float,
    compute_reward example_config ∅ (snapshot 12 1 1500 90 40 7 60)%float
      = Ok r.
Proof.
  exact (proj2 (get_metrics_returns_full_snapshot float float_arith stub_int
                  (@stub_float float float_arith)
                  (Readable first_stats) 60 (snapshot 12 1 1500 90 40 7 60)%float
                  ltac:(vm_compute; reflexivity))
           example_config ∅ eq_refl).
Defined.



Lemma drop_percent_spec (l : list ascii) :
  exists n : nat,
    l = repeat "%"%char n ++ drop_percent l /\
    head (drop_percent l) <> Some "%"%char.
Proof.
  induction l as [|c l (n & Hl & Hh)].
  - exists 0%nat. split; [reflexivity | discriminate].
  - simpl. destruct (Ascii.eqb_spec c "%"%char) as [-> | Hne].
    + exists (S n). split; [simpl; f_equal; exact Hl | exact Hh].
    + exists 0%nat. split; [reflexivity|]. simpl. congruence.
Qed.

Lemma drop_percent_id (l : list ascii) :
  head l <> Some "%"%char -> drop_percent l = l.
Proof.
  destruct l as [|c l]; [reflexivity|]. simpl. intros Hh.
  destruct (Ascii.eqb_spec c "%"%char) as [-> | _]; [congruence | reflexivity].
Qed.

Lemma last_rev_head {A} (l : list A) : last (rev l) = head l.
Proof.
  destruct l as [|x l]; [reflexivity|]. simpl. apply last_snoc.
Qed.

(** X17.  [rstrip('%')], as [_parse_coverage] uses it, removes exactly the
    trailing run of percent signs: the string is the result followed by
    percent signs only, the result does not end with a percent sign, and
    stripping again changes nothing. *)
Theorem rstrip_percent_removes_trailing_run :
  forall s : string,
    (exists n : nat,
       list_ascii_of_string s =
         list_ascii_of_string (rstrip_percent s) ++ repeat "%"%char n) /\
    last (list_ascii_of_string (rstrip_percent s)) <> Some "%"%char /\
    rstrip_percent (rstrip_percent s) = rstrip_percent s.
Proof.
  intros s. unfold rstrip_percent.
  rewrite !list_ascii_of_string_of_list_ascii.
  destruct (drop_percent_spec (rev (list_ascii_of_string s))) as (n & Hl & Hh).
  split; [|split].
  - exists n.
    rewrite <- (rev_involutive (list_ascii_of_string s)) at 1.
    rewrite Hl at 1. rewrite rev_app_distr, rev_repeat. reflexivity.
  - rewrite last_rev_head. exact Hh.
  - rewrite rev_involutive, (drop_percent_id _ Hh). reflexivity.
Qed.

Section StripProps.

Lemma lstrip_spaces (p l : list ascii) :
  forallb is_space p = true -> lstrip_chars (p ++ l) = lstrip_chars l.
Proof.
  induction p as [|c p IH]; simpl; [reflexivity|].
  intros Hp. apply andb_prop in Hp as [Hc Hp]. rewrite Hc. apply IH, Hp.
Qed.

Lemma lstrip_all_spaces (p : list ascii) :
  forallb is_space p = true -> lstrip_chars p = [].
Proof.
  intros Hp. rewrite <- (app_nil_r p), (lstrip_spaces p [] Hp). reflexivity.
Qed.

Lemma lstrip_head (l : list ascii) (c : ascii) :
  head (lstrip_chars l) = Some c -> is_space c = false.
Proof.
  induction l as [|x l IH]; simpl; [discriminate|].
  destruct (is_space x) eqn:Hx; [exact IH|].
  simpl. intros [= <-]. exact Hx.
Qed.

Lemma lstrip_id (l : list ascii) :
  (forall c, head l = Some c -> is_space c = false) -> lstrip_chars l = l.
Proof.
  destruct l as [|x l]; [reflexivity|]. simpl. intros Hh.
  rewrite (Hh x eq_refl). reflexivity.
Qed.

Lemma lstrip_last (l : list ascii) :
  lstrip_chars l <> [] -> last (lstrip_chars l) = last l.
Proof.
  induction l as [|x l IH]; simpl; [congruence|].
  destruct (is_space x); [|reflexivity].
  intros Hne. rewrite (IH Hne).
  destruct l as [|y l]; [exfalso; apply Hne; reflexivity | reflexivity].
Qed.

Lemma lstrip_incl (l : list ascii) (c : ascii) :
  In c (lstrip_chars l) -> In c l.
Proof.
  induction l as [|x l IH]; simpl; [tauto|].
  destruct (is_space x); [right; apply IH; assumption | tauto].
Qed.

Lemma strip_incl (l : list ascii) (c : ascii) :
  In c (strip_chars l) -> In c l.
Proof.
  unfold strip_chars. intros Hin.
  apply in_rev, lstrip_incl, in_rev, lstrip_incl in Hin. exact Hin.
Qed.

Lemma strip_chars_stripped (l : list ascii) : stripped (strip_chars l) = true.
Proof.
  unfold stripped, strip_chars.
  set (x := lstrip_chars l). set (y := lstrip_chars (rev x)).
  destruct (head (rev y)) as [a|] eqn:Ha; [|reflexivity].
  destruct (last (rev y)) as [b|] eqn:Hb; [|reflexivity].
  rewrite last_rev_head in Hb.
  assert (Hsb : is_space b = false) by (apply (lstrip_head (rev x)); exact Hb).
  assert (Hy : y <> []) by (intros E; rewrite E in Hb; discriminate).
  assert (Hla : last y = Some a).
  { rewrite <- (rev_involutive y), last_rev_head. exact Ha. }
  unfold y in Hla. rewrite (lstrip_last (rev x) Hy), last_rev_head in Hla.
  rewrite (lstrip_head l a Hla), Hsb. reflexivity.
Qed.

Lemma stripped_head (l : list ascii) (c : ascii) :
  stripped l = true -> head l = Some c -> is_space c = false.
Proof.
  unfold stripped. intros Hs Hh. rewrite Hh in Hs.
  destruct (last l) as [b|] eqn:Hl.
  - apply andb_prop in Hs as [Hs _]. apply negb_true_iff, Hs.
  - destruct l; [discriminate|]. apply last_None in Hl. discriminate.
Qed.

Lemma stripped_last (l : list ascii) (c : ascii) :
  stripped l = true -> last l = Some c -> is_space c = false.
Proof.
  unfold stripped. intros Hs Hl. rewrite Hl in Hs.
  destruct (head l) as [a|] eqn:Hh.
  - apply andb_prop in Hs as [_ Hs]. apply negb_true_iff, Hs.
  - destruct l; discriminate.
Qed.

Lemma strip_padded (p1 k p2 : list ascii) :
  forallb is_space p1 = true -> forallb is_space p2 = true ->
  stripped k = true ->
  strip_chars (p1 ++ k ++ p2) = k.
Proof.
  intros H1 H2 Hk. unfold strip_chars. rewrite (lstrip_spaces p1 _ H1).
  destruct k as [|c k].
  - simpl. rewrite (lstrip_all_spaces p2 H2). reflexivity.
  - rewrite (lstrip_id ((c :: k) ++ p2))
      by (simpl; intros c' [= <-]; apply (stripped_head (c :: k)); auto).
    rewrite rev_app_distr, lstrip_spaces
      by (rewrite forallb_forall in *; intros x Hx; apply H2, in_rev, Hx).
    rewrite lstrip_id.
    + apply rev_involutive.
    + intros c' Hc'. apply (stripped_last (c :: k)); [exact Hk|].
      rewrite <- last_rev_head, rev_involutive in Hc'. exact Hc'.
Qed.

Lemma split_colon_Some (l key value : list ascii) :
  split_colon l = Some (key, value) ->
  l = key ++ ":"%char :: value /\ ~ In ":"%char key.
Proof.
  revert key; induction l as [|c l IH]; simpl; intros key; [discriminate|].
  destruct (Ascii.eqb_spec c ":"%char) as [-> | Hne].
  - intros [= <- <-]. split; [reflexivity | simpl; tauto].
  - destruct (split_colon l) as [[k v]|]; [|discriminate].
    intros [= <- <-]. destruct (IH k eq_refl) as [-> Hk].
    split; [reflexivity|]. simpl. intros [E | Hin]; [congruence | tauto].
Qed.

Lemma split_colon_first (key value : list ascii) :
  ~ In ":"%char key ->
  split_colon (key ++ ":"%char :: value) = Some (key, value).
Proof.
  induction key as [|c key IH]; simpl; intros Hk.
  - reflexivity.
  - destruct (Ascii.eqb_spec c ":"%char) as [-> | Hne]; [tauto|].
    rewrite IH by tauto. reflexivity.
Qed.

Lemma split_colon_None (l : list ascii) :
  split_colon l = None <-> ~ In ":"%char l.
Proof.
  induction l as [|c l IH]; simpl; [tauto|].
  destruct (Ascii.eqb_spec c ":"%char) as [-> | Hne].
  - split; [discriminate | tauto].
  - destruct (split_colon l) as [[k v]|].
    + split; [discriminate|]. intros Hn. exfalso.
      assert (Hl : ~ In ":"%char l) by tauto.
      apply IH in Hl. discriminate.
    + split; [|reflexivity]. intros _ [E | Hin]; [congruence|].
      apply (proj1 IH eq_refl), Hin.
Qed.
End StripProps.

(** X18.  Whatever the lines of the stats file are, every key and every
    value of the dictionary that [get_stats] builds is free of white space
    at both ends, and no key contains a colon. *)
Theorem read_stats_entries_are_stripped :
  forall (lines : list string) (k v : string),
    read_stats lines !! k = Some v ->
    stripped (list_ascii_of_string k) = true /\
    stripped (list_ascii_of_string v) = true /\
    ~ In ":"%char (list_ascii_of_string k).
Proof.
  intros lines. unfold read_stats.
  assert (Hgen : forall (init : gmap string string),
             (forall k v, init !! k = Some v ->
                stripped (list_ascii_of_string k) = true /\
                stripped (list_ascii_of_string v) = true /\
                ~ In ":"%char (list_ascii_of_string k)) ->
             forall k v, fold_left stats_line lines init !! k = Some v ->
                stripped (list_ascii_of_string k) = true /\
                stripped (list_ascii_of_string v) = true /\
                ~ In ":"%char (list_ascii_of_string k)).
  { induction lines as [|line lines IH]; intros init Hinit; [exact Hinit|].
    simpl. apply IH. intros k v. unfold stats_line.
    destruct (split_colon (list_ascii_of_string line)) as [[key value]|] eqn:Hs;
      [|apply Hinit].
    destruct (decide (string_of_list_ascii (strip_chars key) = k)) as [<- | Hne].
    - rewrite lookup_insert_eq. intros [= <-].
      rewrite !list_ascii_of_string_of_list_ascii.
      split; [apply strip_chars_stripped|].
      split; [apply strip_chars_stripped|].
      intros Hin. apply strip_incl in Hin.
      apply split_colon_Some in Hs as [_ Hno]. exact (Hno Hin).
    - rewrite lookup_insert_ne by exact Hne. apply Hinit. }
  apply Hgen. intros k v Hk. rewrite lookup_empty in Hk. discriminate.
Qed.

(** The padded line of the worked file. *)
Lemma read_stats_entries_are_stripped_witness :
  stripped (list_ascii_of_string "1500.25") = true.
Proof.
  exact (proj1 (proj2 (read_stats_entries_are_stripped [padded_line]
                         "execs_per_sec" "1500.25" eq_refl))).
Defined.

(** X19.  A line made of a key and a value, each padded with white space,
    around the first colon binds the key to the value, replacing what earlier
    lines bound it to and leaving the other keys as they were; the value may
    itself contain colons.  A line without a colon changes nothing. *)
Theorem read_stats_last_line_wins :
  forall (lines : list string) (p1 key p2 p3 value p4 : list ascii),
    forallb is_space p1 = true -> forallb is_space p2 = true ->
    forallb is_space p3 = true -> forallb is_space p4 = true ->
    stripped key = true -> stripped value = true ->
    ~ In ":"%char key ->
    let line :=
      string_of_list_ascii (p1 ++ key ++ p2 ++ ":"%char :: p3 ++ value ++ p4) in
    read_stats (lines ++ [line]) !! string_of_list_ascii key
      = Some (string_of_list_ascii value) /\
    (forall k' : string,
       k' <> string_of_list_ascii key ->
       read_stats (lines ++ [line]) !! k' = read_stats lines !! k') /\
    (forall other : string,
       ~ In ":"%char (list_ascii_of_string other) ->
       read_stats (lines ++ [other]) = read_stats lines).
Proof.
  intros lines p1 key p2 p3 value p4 H1 H2 H3 H4 Hk Hv Hno line.
  assert (Hline : stats_line (read_stats lines) line =
                  <[string_of_list_ascii key := string_of_list_ascii value]>
                    (read_stats lines)).
  { unfold stats_line, line. rewrite list_ascii_of_string_of_list_ascii.
    replace (p1 ++ key ++ p2 ++ ":"%char :: p3 ++ value ++ p4)
      with ((p1 ++ key ++ p2) ++ ":"%char :: (p3 ++ value ++ p4))
      by (rewrite <- !app_assoc; reflexivity).
    rewrite split_colon_first.
    - rewrite (strip_padded p1 key p2 H1 H2 Hk),
        (strip_padded p3 value p4 H3 H4 Hv). reflexivity.
    - rewrite !in_app_iff. intros [Hin | [Hin | Hin]]; [|tauto|].
      + rewrite forallb_forall in H1. specialize (H1 _ Hin). discriminate.
      + rewrite forallb_forall in H2. specialize (H2 _ Hin). discriminate. }
  unfold read_stats in *. rewrite fold_left_app. simpl. rewrite Hline.
  split; [apply lookup_insert_eq|]. split.
  - intros k' Hne. apply lookup_insert_ne. congruence.
  - intros other Hother. rewrite fold_left_app. simpl. unfold stats_line.
    rewrite (proj2 (split_colon_None _) Hother). reflexivity.
Qed.

(** The worked file followed by the padded line, whose value replaces the
    [900] of the third line; a further comment line changes nothing. *)
Lemma read_stats_last_line_wins_witness :
  read_stats (stats_lines ++ [padded_line]) !! "execs_per_sec"
    = Some "1500.25" /\
  read_stats (stats_lines ++ [padded_line]) !! "unique_crashes"
    = read_stats stats_lines !! "unique_crashes".
Proof.
  destruct (read_stats_last_line_wins stats_lines
              [] (list_ascii_of_string "execs_per_sec")
              (list_ascii_of_string "     ") (list_ascii_of_string " ")
              (list_ascii_of_string "1500.25") (list_ascii_of_string " ")
              eq_refl eq_refl eq_refl eq_refl eq_refl eq_refl)
    as (Hkey & Hother & _).
  - simpl. intros H. repeat (destruct H as [H | H]; [discriminate H|]). exact H.
  - split; [exact Hkey|]. apply Hother. discriminate.
Defined.

(** X20.  A stats file that exists but holds no line with a colon (an empty
    file, for one) gives an empty dictionary, and [get_metrics] then returns
    the same all-zero snapshot as for a missing file. *)
Theorem stats_file_without_entries_reads_as_missing :
  forall (F : Type) (HA : Arith F)
         (py_int : string -> option Z) (py_float : string -> option F)
         (lines : list string) (rt : Z),
    Forall (fun line => ~ In ":"%char (list_ascii_of_string line)) lines ->
    read_stats lines = ∅ /\
    get_metrics py_int py_float (Readable (read_stats lines)) rt
      = Ok zero_metrics /\
    get_metrics py_int py_float (Readable (read_stats lines)) rt
      = get_metrics py_int py_float Missing rt.
Proof.
  intros F HA py_int py_float lines rt Hall.
  assert (Hempty : read_stats lines = ∅).
  { unfold read_stats. generalize (∅ : gmap string string) as init.
    induction Hall as [|line lines Hline _ IH]; intros init; [reflexivity|].
    simpl. unfold stats_line at 2.
    rewrite (proj2 (split_colon_None _) Hline).
    (* the accumulator is unchanged, and it is the empty dictionary *)
    apply IH. }
  split; [exact Hempty|].
  rewrite Hempty, !get_metrics_no_stats by reflexivity.
  split; reflexivity.
Qed.

(** An empty file and a file of one comment line. *)
Lemma stats_file_without_entries_reads_as_missing_witness :
  get_metrics stub_int (@stub_float float float_arith)
    (Readable (read_stats ["# no statistics yet"])) 60
  = Ok zero_metrics.
Proof.
  refine (proj1 (proj2 (stats_file_without_entries_reads_as_missing float
            float_arith stub_int (@stub_float float float_arith)
            ["# no statistics yet"] 60 _))).
  repeat constructor.
  simpl. intros H. repeat (destruct H as [H | H]; [discriminate H|]). exact H.
Defined.

(** X21.  [apply_mutation_strategy] announces a strategy exactly for the
    identifiers [0] to [4], which are the [action_dim] actions the agent can
    choose; two different identifiers never announce the same strategy, and
    a negative identifier is ignored rather than counted from the end of the
    list. *)
Theorem mutation_strategy_names_cover_actions :
  forall strategy : Z,
    ((0 <= strategy < action_dim)%Z <->
     is_Some (apply_mutation_strategy strategy)) /\
    (forall (strategy' : Z) (line : string),
       apply_mutation_strategy strategy = Some line ->
       apply_mutation_strategy strategy' = Some line ->
       strategy = strategy').
Proof.
  intros s.
  assert (Hrange : forall z, is_Some (apply_mutation_strategy z) ->
                     (0 <= z < 5)%Z).
  { intros z [line Hz]. unfold apply_mutation_strategy in Hz.
    destruct ((0 <=? z) && (z <? Z.of_nat (length strategy_names)))%Z eqn:Hb;
      [|discriminate].
    apply andb_prop in Hb as [H0 H5].
    apply Z.leb_le in H0. apply Z.ltb_lt in H5. simpl in H5. lia. }
  assert (Henum : forall z, (0 <= z < 5)%Z ->
                    z = 0%Z \/ z = 1%Z \/ z = 2%Z \/ z = 3%Z \/ z = 4%Z)
    by (intros z Hz; lia).
  split.
  - split; [|apply Hrange].
    unfold action_dim. intros Hs.
    destruct (Henum s Hs) as [-> | [-> | [-> | [-> | ->]]]];
      vm_compute; eauto.
  - intros s' line Hs Hs'.
    pose proof (Hrange s (ex_intro _ line Hs)) as Rs.
    pose proof (Hrange s' (ex_intro _ line Hs')) as Rs'.
    destruct (Henum s Rs) as [-> | [-> | [-> | [-> | ->]]]];
    destruct (Henum s' Rs') as [-> | [-> | [-> | [-> | ->]]]];
      try reflexivity; vm_compute in Hs, Hs'; congruence.
Qed.

(** * Properties of the metrics collector *)

(** X22.  [record_metrics] on a mode that the history has appends one record
    to that mode and leaves the other modes as they were; the record holds
    every entry of the metrics unchanged (a [timestamp] entry of the metrics
    wins over the collector's) and the collector's time stamp otherwise.  On
    a mode that the history lacks it raises [KeyError]. *)
Theorem record_metrics_appends_one_record :
  forall (F : Type) (HA : Arith F)
         (h : gmap string (list (gmap string F))) (mode : string)
         (timestamp : F) (metrics : gmap string F),
    (h !! mode = None ->
     record_metrics h mode timestamp metrics = Raise (KeyError mode)) /\
    (forall l : list (gmap string F),
       h !! mode = Some l ->
       exists (record : gmap string F) (h' : gmap string (list (gmap string F))),
         record_metrics h mode timestamp metrics = Ok h' /\
         h' !! mode = Some (l ++ [record]) /\
         (forall mode' : string, mode' <> mode -> h' !! mode' = h !! mode') /\
         (forall (k : string) (v : F),
            metrics !! k = Some v -> record !! k = Some v) /\
         (metrics !! "timestamp" = None ->
          record !! "timestamp" = Some timestamp)).
Proof.
  intros F HA h mode timestamp metrics. split.
  - intros Hm. unfold record_metrics. rewrite (getitem_None _ _ Hm). reflexivity.
  - intros l Hm. unfold record_metrics. rewrite (getitem_Some _ _ _ Hm).
    do 2 eexists. split; [reflexivity|].
    split; [apply lookup_insert_eq|]. split; [|split].
    + intros mode' Hne. apply lookup_insert_ne. congruence.
    + intros k v Hk. apply lookup_union_Some_l, Hk.
    + intros Hts. rewrite lookup_union_r by exact Hts.
      apply lookup_insert_eq.
Qed.

(** Recording the worked snapshot under [ppo] in a new collector. *)
Lemma record_metrics_appends_one_record_witness :
  exists (record : gmap string float) h',
    record_metrics new_history "ppo" 60%float stagnant_curr = Ok h' /\
    h' !! "ppo" = Some ([] ++ [record]).
Proof.
  destruct (proj2 (record_metrics_appends_one_record float _ new_history "ppo"
                     60%float stagnant_curr) [] eq_refl)
    as (record & h' & Hr & Hl & _).
  exists record, h'. split; assumption.
Defined.

Lemma bind_Ok {A B} (r : result A) (k : A -> result B) (b : B) :
  r ≫= k = Ok b -> exists a : A, r = Ok a /\ k a = Ok b.
Proof. destruct r as [a|e]; [eauto | discriminate]. Qed.

Lemma is_Some_iff_nonempty {A B} (x : option A) (l : list B) :
  (x = None <-> l = []) -> (is_Some x <-> l <> []).
Proof.
  intros Hx. destruct x as [a|].
  - split; [intros _ E; apply Hx in E; discriminate | eauto].
  - split; [intros [a Ha]; discriminate | intros N; exfalso; apply N, Hx; reflexivity].
Qed.

Section CollectorProps.
Context `{Arith F} `{ArithOrd F}.

(** What a summary of a mode is made of. *)
Lemma summarize_Some (history : list (gmap string F)) (d : gmap string F) :
  summarize history = Ok (Some d) ->
  exists (final : gmap string F) (fc tc avg tp rh first : F) (rest : list F),
    last history = Some final /\
    getitem final "coverage_rate" = Ok fc /\
    getitem final "crash_count" = Ok tc /\
    collect "exec_speed" history = Ok (first :: rest) /\
    py_div (py_sum (first :: rest)) (of_Z (Z.of_nat (length history))) = Ok avg /\
    getitem final "unique_paths" = Ok tp /\
    getitem final "time_hours" = Ok rh /\
    d = <["final_coverage" := fc]> (<["total_crashes" := tc]> (
        <["avg_exec_speed" := avg]> (
        <["max_exec_speed" := py_max first rest]> (
        <["total_paths" := tp]> (<["runtime_hours" := rh]> ∅))))).
Proof.
  unfold summarize. destruct (last history) as [final|]; [|discriminate].
  intros Hs.
  apply bind_Ok in Hs as (fc & Hfc & Hs).
  apply bind_Ok in Hs as (tc & Htc & Hs).
  apply bind_Ok in Hs as (speeds & Hsp & Hs).
  apply bind_Ok in Hs as (avg & Havg & Hs).
  apply bind_Ok in Hs as (mx & Hmx & Hs).
  apply bind_Ok in Hs as (tp & Htp & Hs).
  apply bind_Ok in Hs as (rh & Hrh & Hs).
  destruct speeds as [|first rest]; [discriminate|].
  injection Hmx as <-. injection Hs as <-.
  exists final, fc, tc, avg, tp, rh, first, rest. repeat split; assumption.
Qed.

Lemma summarize_None (history : list (gmap string F)) :
  summarize history = Ok None <-> history = [].
Proof.
  split; [|intros ->; reflexivity].
  unfold summarize.
  destruct (last history) as [final|] eqn:Hl; [|intros _; apply last_None, Hl].
  intros Hs. exfalso.
  apply bind_Ok in Hs as (fc & Hfc & Hs).
  apply bind_Ok in Hs as (tc & Htc & Hs).
  apply bind_Ok in Hs as (speeds & Hsp & Hs).
  apply bind_Ok in Hs as (avg & Havg & Hs).
  apply bind_Ok in Hs as (mx & Hmx & Hs).
  apply bind_Ok in Hs as (tp & Htp & Hs).
  apply bind_Ok in Hs as (rh & Hrh & Hs).
  discriminate.
Qed.

(** The entries of a summary, by the two mode summaries it was made of. *)
Lemma get_summary_inv (h : gmap string (list (gmap string F)))
    (s : gmap string (gmap string F)) :
  get_summary h = Ok s ->
  exists (hb hp : list (gmap string F)) (sb sp : option (gmap string F)),
    h !! "baseline" = Some hb /\ h !! "ppo" = Some hp /\
    summarize hb = Ok sb /\ summarize hp = Ok sp /\
    s !! "baseline" = sb /\ s !! "ppo" = sp /\
    (forall k : string,
       k <> "baseline" -> k <> "ppo" -> k <> "improvement" -> s !! k = None) /\
    match sb, sp with
    | Some db, Some dp =>
        exists cv cr sd pa : F,
          increase_pct dp db "final_coverage" (dec 1 2) = Ok cv /\
          increase_pct dp db "total_crashes" (of_Z 1) = Ok cr /\
          increase_pct dp db "avg_exec_speed" (of_Z 1) = Ok sd /\
          increase_pct dp db "total_paths" (of_Z 1) = Ok pa /\
          s !! "improvement" =
            Some (<["coverage_increase_pct" := cv]> (
                  <["crash_increase_pct" := cr]> (
                  <["speed_increase_pct" := sd]> (
                  <["path_increase_pct" := pa]> ∅))))
    | _, _ => s !! "improvement" = None
    end.
Proof.
  unfold get_summary. intros Hs.
  apply bind_Ok in Hs as (hb & Hhb & Hs).
  apply bind_Ok in Hs as (sb & Hsb & Hs).
  apply bind_Ok in Hs as (hp & Hhp & Hs).
  apply bind_Ok in Hs as (sp & Hsp & Hs).
  unfold getitem in Hhb, Hhp.
  destruct (h !! "baseline") as [hb'|]; [|discriminate]. injection Hhb as ->.
  destruct (h !! "ppo") as [hp'|]; [|discriminate]. injection Hhp as ->.
  exists hb, hp, sb, sp. do 4 (split; [reflexivity || assumption|]).
  destruct sb as [db|], sp as [dp|].
  - rewrite lookup_insert_ne, lookup_insert_eq, lookup_insert_eq in Hs
      by discriminate.
    apply bind_Ok in Hs as (cv & Hcv & Hs).
    apply bind_Ok in Hs as (cr & Hcr & Hs).
    apply bind_Ok in Hs as (sd & Hsd & Hs).
    apply bind_Ok in Hs as (pa & Hpa & Hs).
    injection Hs as <-.
    split; [rewrite !lookup_insert_ne by discriminate; apply lookup_insert_eq|].
    split; [rewrite lookup_insert_ne by discriminate; apply lookup_insert_eq|].
    split.
    + intros k N1 N2 N3.
      rewrite !lookup_insert_ne by congruence. apply lookup_empty.
    + exists cv, cr, sd, pa. repeat (split; [assumption|]).
      apply lookup_insert_eq.
  - rewrite lookup_insert_eq, lookup_insert_ne, lookup_empty in Hs
      by discriminate.
    injection Hs as <-.
    split; [apply lookup_insert_eq|].
    split; [rewrite lookup_insert_ne by discriminate; apply lookup_empty|].
    split.
    + intros k N1 N2 N3.
      rewrite !lookup_insert_ne by congruence. apply lookup_empty.
    + rewrite lookup_insert_ne by discriminate. apply lookup_empty.
  - rewrite lookup_insert_ne, lookup_empty in Hs by discriminate.
    injection Hs as <-.
    split; [rewrite lookup_insert_ne by discriminate; apply lookup_empty|].
    split; [apply lookup_insert_eq|].
    split.
    + intros k N1 N2 N3.
      rewrite !lookup_insert_ne by congruence. apply lookup_empty.
    + rewrite lookup_insert_ne by discriminate. apply lookup_empty.
  - rewrite lookup_empty in Hs. injection Hs as <-.
    repeat split; try apply lookup_empty; intros; apply lookup_empty.
Qed.
End CollectorProps.

(** X23.  Whenever [get_summary] returns, the summary has an entry for a
    mode exactly when that mode has at least one record, an [improvement]
    entry exactly when both modes have, and no other entry. *)
Theorem get_summary_entries :
  forall (F : Type) (HA : Arith F) (HO : ArithOrd F)
         (h : gmap string (list (gmap string F)))
         (s : gmap string (gmap string F)),
    get_summary h = Ok s ->
    exists hb hp : list (gmap string F),
      h !! "baseline" = Some hb /\ h !! "ppo" = Some hp /\
      (is_Some (s !! "baseline") <-> hb <> []) /\
      (is_Some (s !! "ppo") <-> hp <> []) /\
      (is_Some (s !! "improvement") <-> hb <> [] /\ hp <> []) /\
      (forall k : string,
         is_Some (s !! k) -> k = "baseline" \/ k = "ppo" \/ k = "improvement").
Proof.
  intros F HA HO h s Hs.
  destruct (get_summary_inv h s Hs)
    as (hb & hp & sb & sp & Hhb & Hhp & Hsb & Hsp & Hb & Hp & Hother & Himp).
  exists hb, hp. split; [exact Hhb|]. split; [exact Hhp|].
  assert (Eb : sb = None <-> hb = [])
    by (rewrite <- summarize_None, Hsb; split; congruence).
  assert (Ep : sp = None <-> hp = [])
    by (rewrite <- summarize_None, Hsp; split; congruence).
  pose proof (is_Some_iff_nonempty sb hb Eb) as Nb.
  pose proof (is_Some_iff_nonempty sp hp Ep) as Np.
  split; [rewrite Hb; exact Nb|]. split; [rewrite Hp; exact Np|]. split.
  - destruct sb as [db|], sp as [dp|].
    + destruct Himp as (cv & cr & sd & pa & _ & _ & _ & _ & ->).
      split; [intros _; split; [apply Nb | apply Np]; eauto | eauto].
    + rewrite Himp. split; [intros [x Hx]; discriminate|].
      intros [_ N]. apply Np in N. destruct N as [x Hx]. discriminate.
    + rewrite Himp. split; [intros [x Hx]; discriminate|].
      intros [N _]. apply Nb in N. destruct N as [x Hx]. discriminate.
    + rewrite Himp. split; [intros [x Hx]; discriminate|].
      intros [N _]. apply Nb in N. destruct N as [x Hx]. discriminate.
  - intros k [x Hk].
    destruct (decide (k = "baseline")) as [-> | N1]; [tauto|].
    destruct (decide (k = "ppo")) as [-> | N2]; [tauto|].
    destruct (decide (k = "improvement")) as [-> | N3]; [tauto|].
    rewrite (Hother k N1 N2 N3) in Hk. discriminate.
Qed.

(** A collector with two baseline records and one PPO record: its summary
    has the two mode entries and the improvement entry. *)
Lemma get_summary_entries_witness :
  exists hb hp : list (gmap string float),
    example_history !! "baseline" = Some hb /\
    example_history !! "ppo" = Some hp /\
    (is_Some (example_summary !! "baseline") <-> hb <> []) /\
    (is_Some (example_summary !! "ppo") <-> hp <> []) /\
    (is_Some (example_summary !! "improvement") <-> hb <> [] /\ hp <> []) /\
    (forall k : string,
       is_Some (example_summary !! k) ->
       k = "baseline" \/ k = "ppo" \/ k = "improvement").
Proof.
  apply (get_summary_entries float float_arith float_ord).
  vm_compute. reflexivity.
Defined.

Section CollectorReal.
Local Open Scope R_scope.

Lemma bind_Raise {A B} (r : result A) (k : A -> result B) (e : exn) :
  r ≫= k = Raise e -> r = Raise e \/ exists a : A, r = Ok a /\ k a = Raise e.
Proof. destruct r as [a|e']; [eauto | intros [= <-]; left; reflexivity]. Qed.

Lemma getitem_Raise {V} (d : gmap string V) (k : string) (e : exn) :
  getitem d k = Raise e -> e = KeyError k.
Proof. unfold getitem. destruct (d !! k); [discriminate | congruence]. Qed.

Lemma getitem_Ok {V} (d : gmap string V) (k : string) (v : V) :
  getitem d k = Ok v -> d !! k = Some v.
Proof. unfold getitem. destruct (d !! k); [congruence | discriminate]. Qed.

Lemma py_div_R (x y : R) :
  y <> 0 -> py_div x y = Ok (x / y).
Proof.
  intros Hy. unfold py_div. simpl.
  destruct (Req_dec_T y 0); [contradiction | reflexivity].
Qed.

Lemma py_max2_ge (a b : R) : a <= py_max2 a b /\ b <= py_max2 a b.
Proof. unfold py_max2. simpl. destruct (Rlt_dec a b); lra. Qed.

Lemma py_max2_cases (a b : R) : py_max2 a b = a \/ py_max2 a b = b.
Proof. unfold py_max2. simpl. destruct (Rlt_dec a b); tauto. Qed.

Lemma py_max_ge (first : R) (rest : list R) (x : R) :
  In x (first :: rest) -> x <= py_max first rest.
Proof.
  unfold py_max. revert first x.
  induction rest as [|y rest IH]; intros first x Hin; simpl in *.
  - destruct Hin as [-> | []]. lra.
  - destruct (py_max2_ge first y) as [H1 H2].
    destruct Hin as [-> | [-> | Hin]].
    + apply Rle_trans with (py_max2 x y); [exact H1 | apply IH; tauto].
    + apply Rle_trans with (py_max2 first x); [exact H2 | apply IH; tauto].
    + apply IH. tauto.
Qed.

Lemma py_max_in (first : R) (rest : list R) :
  In (py_max first rest) (first :: rest).
Proof.
  unfold py_max. revert first.
  induction rest as [|y rest IH]; intros first; simpl; [tauto|].
  destruct (IH (py_max2 first y)) as [E | Hin]; [|tauto].
  rewrite <- E. destruct (py_max2_cases first y) as [-> | ->]; tauto.
Qed.

Lemma py_sum_le (l : list R) (m : R) :
  (forall x, In x l -> x <= m) ->
  py_sum l <= IZR (Z.of_nat (length l)) * m.
Proof.
  change (py_sum l) with (tsum l).
  induction l as [|x l IH]; intros Hall.
  - rewrite tsum_nil, len_nil. lra.
  - rewrite tsum_cons, len_cons.
    pose proof (Hall x (or_introl eq_refl)).
    assert (tsum l <= IZR (Z.of_nat (length l)) * m)
      by (apply IH; intros y Hy; apply Hall; right; exact Hy).
    lra.
Qed.

Lemma collect_Ok (k : string) (history : list (gmap string R)) (xs : list R) :
  collect k history = Ok xs ->
  length xs = length history /\
  forall x, In x xs -> exists m, In m history /\ m !! k = Some x.
Proof.
  revert xs; induction history as [|m history IH]; intros xs Hc; simpl in Hc.
  - injection Hc as <-. split; [reflexivity | intros x []].
  - apply bind_Ok in Hc as (x & Hx & Hc).
    apply bind_Ok in Hc as (xs' & Hxs & Hc). injection Hc as <-.
    destruct (IH xs' Hxs) as [Hlen Hin]. split; [simpl; congruence|].
    intros y [<- | Hy].
    + exists m. split; [left; reflexivity | apply getitem_Ok, Hx].
    + destruct (Hin y Hy) as (m' & Hm' & Hk). exists m'. split; [right|]; assumption.
Qed.

Lemma collect_Raise (k : string) (history : list (gmap string R)) (e : exn) :
  collect k history = Raise e -> e = KeyError k.
Proof.
  induction history as [|m history IH]; simpl; [discriminate|].
  intros Hc. apply bind_Raise in Hc as [Hc | (x & _ & Hc)];
    [apply getitem_Raise in Hc; exact Hc|].
  apply bind_Raise in Hc as [Hc | (xs & _ & Hc)]; [apply IH, Hc | discriminate].
Qed.

Lemma increase_pct_Ok (p b : gmap string R) (k : string) (floor x : R) :
  0 < floor ->
  increase_pct p b k floor = Ok x ->
  exists pv bv : R,
    p !! k = Some pv /\ b !! k = Some bv /\
    (0 < x <-> bv < pv) /\ (x < 0 <-> pv < bv) /\
    (floor <= bv -> x = (pv - bv) / bv * 100).
Proof.
  intros Hfloor Hx. unfold increase_pct in Hx.
  apply bind_Ok in Hx as (pv & Hp & Hx).
  apply bind_Ok in Hx as (bv & Hb & Hx).
  apply bind_Ok in Hx as (bv' & Hb' & Hx).
  rewrite Hb in Hb'. injection Hb' as <-.
  destruct (py_max2_ge bv floor) as [G1 G2].
  rewrite py_div_R in Hx by lra. simpl in Hx. injection Hx as <-.
  exists pv, bv. split; [apply getitem_Ok, Hp|]. split; [apply getitem_Ok, Hb|].
  set (D := py_max2 bv floor) in *.
  assert (HD : 0 < / D) by (apply Rinv_0_lt_compat; lra).
  unfold Rdiv. split; [|split].
  - split; intros Hs; nra.
  - split; intros Hs; nra.
  - intros Hge. unfold D, py_max2. simpl.
    destruct (Rlt_dec bv floor); [lra | reflexivity].
Qed.

Lemma increase_pct_Raise (p b : gmap string R) (k : string) (floor : R) (e : exn) :
  0 < floor -> increase_pct p b k floor = Raise e -> e = KeyError k.
Proof.
  intros Hfloor He. unfold increase_pct in He.
  apply bind_Raise in He as [He | (pv & _ & He)]; [apply (getitem_Raise _ _ _ He)|].
  apply bind_Raise in He as [He | (bv & _ & He)]; [apply (getitem_Raise _ _ _ He)|].
  apply bind_Raise in He as [He | (bv' & _ & He)]; [apply (getitem_Raise _ _ _ He)|].
  destruct (py_max2_ge bv' floor) as [G1 G2].
  rewrite py_div_R in He by lra. discriminate.
Qed.
End CollectorReal.

(** X24.  In exact arithmetic, each percentage of [improvement] has the sign
    of the difference it reports: it is positive exactly when the PPO value
    exceeds the baseline value and negative exactly when it is below; and it
    is the relative change [(ppo - baseline) / baseline * 100] whenever the
    baseline value is at least the floor of the divisor ([0.01] for the
    coverage, [1] for the others). *)
Theorem improvement_has_sign_of_difference :
  forall (h : gmap string (list (gmap string R)))
         (s : gmap string (gmap string R)) (imp : gmap string R),
    get_summary h = Ok s ->
    s !! "improvement" = Some imp ->
    exists b p : gmap string R,
      s !! "baseline" = Some b /\ s !! "ppo" = Some p /\
      Forall (fun '(pct, field, floor) =>
                exists x pv bv : R,
                  imp !! pct = Some x /\
                  p !! field = Some pv /\ b !! field = Some bv /\
                  (0 < x <-> bv < pv)%R /\ (x < 0 <-> pv < bv)%R /\
                  (floor <= bv -> x = (pv - bv) / bv * 100)%R)
        improvement_table.
Proof.
  intros h s imp Hs Himp.
  destruct (get_summary_inv h s Hs)
    as (hb & hp & sb & sp & _ & _ & _ & _ & Hb & Hp & _ & Hi).
  destruct sb as [db|], sp as [dp|];
    try (rewrite Hi in Himp; discriminate).
  destruct Hi as (cv & cr & sd & pa & Hcv & Hcr & Hsd & Hpa & Hi).
  rewrite Hi in Himp. injection Himp as <-.
  exists db, dp. split; [exact Hb|]. split; [exact Hp|].
  assert (F1 : (0 < dec (F := R) 1 2)%R) by (unfold dec; simpl; eval_pow10; lra).
  assert (F2 : (0 < of_Z (F := R) 1)%R) by (simpl; lra).
  destruct (increase_pct_Ok _ _ _ _ _ F1 Hcv) as (p1 & b1 & ? & ? & ? & ? & ?).
  destruct (increase_pct_Ok _ _ _ _ _ F2 Hcr) as (p2 & b2 & ? & ? & ? & ? & ?).
  destruct (increase_pct_Ok _ _ _ _ _ F2 Hsd) as (p3 & b3 & ? & ? & ? & ? & ?).
  destruct (increase_pct_Ok _ _ _ _ _ F2 Hpa) as (p4 & b4 & ? & ? & ? & ? & ?).
  unfold improvement_table.
  repeat (constructor;
          [eexists _, _, _;
           split; [repeat (rewrite ?lookup_insert_eq, ?lookup_insert_ne
                             by discriminate); reflexivity|];
           repeat (split; [eassumption|]); eassumption |]).
  constructor.
Qed.

(** X25.  In exact arithmetic, in every mode entry of a summary the average
    execution speed is at most the maximal one, the maximal one is the speed
    of one of the mode's records, and the final coverage is that of the last
    record, whether or not an earlier record had more. *)
Theorem summary_average_speed_at_most_maximum :
  forall (h : gmap string (list (gmap string R)))
         (s : gmap string (gmap string R))
         (mode : string) (d : gmap string R),
    get_summary h = Ok s ->
    mode = "baseline" \/ mode = "ppo" ->
    s !! mode = Some d ->
    exists (history : list (gmap string R)) (final : gmap string R)
           (avg mx : R),
      h !! mode = Some history /\ last history = Some final /\
      d !! "avg_exec_speed" = Some avg /\
      d !! "max_exec_speed" = Some mx /\
      (avg <= mx)%R /\
      (exists m, In m history /\ m !! "exec_speed" = Some mx) /\
      d !! "final_coverage" = final !! "coverage_rate".
Proof.
  intros h s mode d Hs Hmode Hd.
  destruct (get_summary_inv h s Hs)
    as (hb & hp & sb & sp & Hhb & Hhp & Hsb & Hsp & Hb & Hp & _ & _).
  assert (Hsum : exists history, h !! mode = Some history /\
                                 summarize history = Ok (Some d)).
  { destruct Hmode as [-> | ->].
    - exists hb. split; [exact Hhb|]. rewrite Hsb. congruence.
    - exists hp. split; [exact Hhp|]. rewrite Hsp. congruence. }
  destruct Hsum as (history & Hh & Hsm).
  destruct (summarize_Some history d Hsm)
    as (final & fc & tc & avg & tp & rh & first & rest &
        Hlast & Hfc & _ & Hcol & Havg & _ & _ & ->).
  destruct (collect_Ok _ _ _ Hcol) as [Hlen Hin].
  exists history, final, avg, (py_max first rest).
  split; [exact Hh|]. split; [exact Hlast|].
  split; [repeat (rewrite ?lookup_insert_eq, ?lookup_insert_ne by discriminate);
          reflexivity|].
  split; [repeat (rewrite ?lookup_insert_eq, ?lookup_insert_ne by discriminate);
          reflexivity|].
  split; [|split].
  - assert (Hn : (0 < IZR (Z.of_nat (length history)))%R).
    { apply IZR_lt. rewrite <- Hlen. simpl. lia. }
    rewrite py_div_R in Havg by (simpl; lra). injection Havg as <-.
    pose proof (py_sum_le (first :: rest) (py_max first rest)
                  (py_max_ge first rest)) as Hle.
    rewrite Hlen in Hle.
    apply (Rmult_le_reg_r (IZR (Z.of_nat (length history)))); [exact Hn|].
    simpl of_Z. unfold Rdiv. rewrite Rmult_assoc, Rinv_l by lra. lra.
  - apply Hin, py_max_in.
  - rewrite lookup_insert_eq. symmetry. apply getitem_Ok, Hfc.
Qed.

(** X26.  In exact arithmetic [get_summary] fails only with [KeyError] (a
    mode missing from the history, or a field missing from a record): no
    division in it can raise [ZeroDivisionError], the divisors being the
    number of records of a non-empty history or at least the floor. *)
Theorem get_summary_fails_only_on_missing_key :
  forall (h : gmap string (list (gmap string R))) (e : exn),
    get_summary h = Raise e -> exists k : string, e = KeyError k.
Proof.
  intros h e He.
  assert (Hsum : forall (history : list (gmap string R)) e',
             summarize history = Raise e' -> exists k, e' = KeyError k).
  { intros history e' Hs. unfold summarize in Hs.
    destruct (last history) as [final|] eqn:Hlast; [|discriminate].
    apply bind_Raise in Hs as [Hs | (fc & _ & Hs)];
      [apply getitem_Raise in Hs; eauto|].
    apply bind_Raise in Hs as [Hs | (tc & _ & Hs)];
      [apply getitem_Raise in Hs; eauto|].
    apply bind_Raise in Hs as [Hs | (speeds & Hcol & Hs)];
      [apply collect_Raise in Hs; eauto|].
    destruct (collect_Ok _ _ _ Hcol) as [Hlen _].
    assert (Hpos : (0 < length history)%nat).
    { destruct history; [discriminate Hlast | simpl; lia]. }
    rewrite py_div_R in Hs
      by (simpl; apply Rgt_not_eq, Rlt_gt, IZR_lt; lia).
    simpl in Hs.
    destruct speeds as [|first rest]; [simpl in Hlen; lia|]. simpl in Hs.
    apply bind_Raise in Hs as [Hs | (tp & _ & Hs)];
      [apply getitem_Raise in Hs; eauto|].
    apply bind_Raise in Hs as [Hs | (rh & _ & Hs)];
      [apply getitem_Raise in Hs; eauto | discriminate]. }
  unfold get_summary in He.
  apply bind_Raise in He as [He | (hb & _ & He)]; [apply getitem_Raise in He; eauto|].
  apply bind_Raise in He as [He | (sb & _ & He)]; [apply Hsum in He; exact He|].
  apply bind_Raise in He as [He | (hp & _ & He)]; [apply getitem_Raise in He; eauto|].
  apply bind_Raise in He as [He | (sp & _ & He)]; [apply Hsum in He; exact He|].
  assert (F1 : (0 < dec (F := R) 1 2)%R) by (unfold dec; simpl; eval_pow10; lra).
  assert (F2 : (0 < of_Z (F := R) 1)%R) by (simpl; lra).
  destruct sb as [db|], sp as [dp|].
  - rewrite lookup_insert_ne, lookup_insert_eq, lookup_insert_eq in He
      by discriminate.
    apply bind_Raise in He as [He | (cv & _ & He)];
      [apply increase_pct_Raise in He; eauto|].
    apply bind_Raise in He as [He | (cr & _ & He)];
      [apply increase_pct_Raise in He; eauto|].
    apply bind_Raise in He as [He | (sd & _ & He)];
      [apply increase_pct_Raise in He; eauto|].
    apply bind_Raise in He as [He | (pa & _ & He)];
      [apply increase_pct_Raise in He; eauto | discriminate].
  - rewrite lookup_insert_eq, lookup_insert_ne, lookup_empty in He
      by discriminate. discriminate.
  - rewrite lookup_insert_ne, lookup_empty in He by discriminate. discriminate.
  - rewrite lookup_empty in He. discriminate.
Qed.

(** An empty history dictionary has no [baseline] entry. *)
Lemma get_summary_fails_only_on_missing_key_witness :
  exists k : string,
    get_summary (F := R) ∅ = Raise (KeyError k).
Proof.
  assert (Hfail : get_summary (F := R) ∅ = Raise (KeyError "baseline"))
    by reflexivity.
  destruct (get_summary_fails_only_on_missing_key ∅ _ Hfail) as [k Hk].
  exists k. rewrite Hfail, Hk. reflexivity.
Defined.

Section CollectorTotal.
Local Open Scope R_scope.

Lemma collect_total (k : string) (history : list (gmap string R)) :
  Forall (fun m => is_Some (m !! k)) history ->
  exists xs : list R,
    collect k history = Ok xs /\ length xs = length history.
Proof.
  induction 1 as [|m history [x Hx] _ (xs & Hxs & Hlen)].
  - exists []. split; reflexivity.
  - exists (x :: xs). simpl.
    rewrite (getitem_Some _ _ _ Hx), Hxs. simpl. split; [reflexivity | congruence].
Qed.

Lemma summarize_total (history : list (gmap string R)) :
  Forall (fun m => has_keys summary_fields m = true) history ->
  exists sm : option (gmap string R), summarize history = Ok sm.
Proof.
  intros Hall. unfold summarize.
  destruct (last history) as [final|] eqn:Hlast; [|eauto].
  assert (Hfin : has_keys summary_fields final = true).
  { apply last_Some in Hlast as [l' ->].
    apply Forall_app in Hall as [_ Hall].
    apply Forall_cons_1 in Hall as [Hf _]. exact Hf. }
  key_of Hfin "coverage_rate" as fc Hfc. key_of Hfin "crash_count" as tc Htc.
  key_of Hfin "unique_paths" as tp Htp. key_of Hfin "time_hours" as rh Hrh.
  destruct (collect_total "exec_speed" history) as (xs & Hxs & Hlen).
  { eapply Forall_impl; [exact Hall|]. intros m Hm.
    apply (has_keys_lookup summary_fields); [exact Hm | simpl; tauto]. }
  assert (Hpos : (0 < length history)%nat).
  { destruct history; [discriminate Hlast | simpl; lia]. }
  rewrite (getitem_Some _ _ _ Hfc), (getitem_Some _ _ _ Htc), Hxs.
  simpl.
  rewrite py_div_R by (apply Rgt_not_eq, Rlt_gt, IZR_lt; lia).
  simpl.
  destruct xs as [|first rest]; [simpl in Hlen; lia|]. simpl.
  rewrite (getitem_Some _ _ _ Htp), (getitem_Some _ _ _ Hrh). simpl. eauto.
Qed.
End CollectorTotal.

Section CollectorTotal2.
Local Open Scope R_scope.

Lemma increase_pct_total (p b : gmap string R) (k : string) (floor : R) :
  0 < floor -> is_Some (p !! k) -> is_Some (b !! k) ->
  exists x : R, increase_pct p b k floor = Ok x.
Proof.
  intros Hfloor [pv Hp] [bv Hb]. unfold increase_pct.
  rewrite (getitem_Some _ _ _ Hp), (getitem_Some _ _ _ Hb). simpl.
  destruct (py_max2_ge bv floor) as [G1 G2].
  rewrite py_div_R by lra. simpl. eauto.
Qed.

Lemma summarize_keys (history : list (gmap string R)) (d : gmap string R)
    (k : string) :
  summarize history = Ok (Some d) ->
  In k ["final_coverage"; "total_crashes"; "avg_exec_speed"; "total_paths"] ->
  is_Some (d !! k).
Proof.
  intros Hs Hin.
  destruct (summarize_Some history d Hs)
    as (final & fc & tc & avg & tp & rh & first & rest & _ & _ & _ & _ & _ & _ & _ & ->).
  simpl in Hin.
  repeat (destruct Hin as [<- | Hin];
          [repeat (rewrite ?lookup_insert_eq, ?lookup_insert_ne by discriminate);
           eauto |]).
  destruct Hin.
Qed.

Lemma get_summary_total (h : gmap string (list (gmap string R)))
    (hb hp : list (gmap string R)) :
  h !! "baseline" = Some hb -> h !! "ppo" = Some hp ->
  Forall (fun m => has_keys summary_fields m = true) hb ->
  Forall (fun m => has_keys summary_fields m = true) hp ->
  exists s : gmap string (gmap string R), get_summary h = Ok s.
Proof.
  intros Hhb Hhp Hb Hp. unfold get_summary.
  destruct (summarize_total hb Hb) as [sb Hsb].
  destruct (summarize_total hp Hp) as [sp Hsp].
  rewrite (getitem_Some _ _ _ Hhb). cbn [mbind result_bind]. rewrite Hsb.
  cbn [mbind result_bind].
  rewrite (getitem_Some _ _ _ Hhp). cbn [mbind result_bind]. rewrite Hsp.
  cbn [mbind result_bind].
  assert (F1 : 0 < dec (F := R) 1 2) by (unfold dec; simpl; eval_pow10; lra).
  assert (F2 : 0 < of_Z (F := R) 1) by (simpl; lra).
  destruct sb as [db|], sp as [dp|].
  - rewrite lookup_insert_ne, lookup_insert_eq, lookup_insert_eq by discriminate.
    destruct (increase_pct_total dp db "final_coverage" _ F1) as [cv Hcv];
      [eapply summarize_keys; [eassumption | simpl; tauto] ..|].
    destruct (increase_pct_total dp db "total_crashes" _ F2) as [cr Hcr];
      [eapply summarize_keys; [eassumption | simpl; tauto] ..|].
    destruct (increase_pct_total dp db "avg_exec_speed" _ F2) as [sd Hsd];
      [eapply summarize_keys; [eassumption | simpl; tauto] ..|].
    destruct (increase_pct_total dp db "total_paths" _ F2) as [pa Hpa];
      [eapply summarize_keys; [eassumption | simpl; tauto] ..|].
    rewrite Hcv. cbn [mbind result_bind]. rewrite Hcr. cbn [mbind result_bind].
    rewrite Hsd. cbn [mbind result_bind]. rewrite Hpa. cbn [mbind result_bind].
    eauto.
  - rewrite lookup_insert_eq, lookup_insert_ne, lookup_empty by discriminate.
    eauto.
  - rewrite lookup_insert_ne, lookup_empty by discriminate. eauto.
  - rewrite lookup_empty. eauto.
Qed.
End CollectorTotal2.

(** X27.  In exact arithmetic, [get_summary] returns a summary whenever both
    modes are present in the history and every record holds the five fields
    the summary reads ([coverage_rate], [crash_count], [exec_speed],
    [unique_paths], [time_hours]), as the records that [record_metrics] makes
    from snapshots do; this includes empty histories. *)
Theorem get_summary_succeeds_on_full_records :
  forall (h : gmap string (list (gmap string R)))
         (hb hp : list (gmap string R)),
    h !! "baseline" = Some hb -> h !! "ppo" = Some hp ->
    Forall (fun m => has_keys summary_fields m = true) hb ->
    Forall (fun m => has_keys summary_fields m = true) hp ->
    exists s : gmap string (gmap string R), get_summary h = Ok s.
Proof. exact get_summary_total. Qed.

Lemma example_history_full :
  Forall (fun m : gmap string R => has_keys summary_fields m = true)
    [example_record 60 stagnant_prev; example_record 120 stagnant_curr] /\
  Forall (fun m : gmap string R => has_keys summary_fields m = true)
    [example_record 60
       (snapshot (of_Z 14) (of_Z 2) (of_Z 1000) (of_Z 95)
                 (of_Z 60) (of_Z 7) (of_Z 60))].
Proof. split; repeat constructor. Qed.

(** The collector with two baseline records and one PPO record. *)
Lemma get_summary_succeeds_on_full_records_witness :
  exists s : gmap string (gmap string R), get_summary example_history = Ok s.
Proof.
  exact (get_summary_succeeds_on_full_records example_history _ _
           eq_refl eq_refl (proj1 example_history_full)
           (proj2 example_history_full)).
Defined.

Lemma get_summary_total_entries (h : gmap string (list (gmap string R)))
    (hb hp : list (gmap string R)) :
  h !! "baseline" = Some hb -> h !! "ppo" = Some hp ->
  Forall (fun m => has_keys summary_fields m = true) hb ->
  Forall (fun m => has_keys summary_fields m = true) hp ->
  hb <> [] -> hp <> [] ->
  exists (s : gmap string (gmap string R)) (imp db dp : gmap string R),
    get_summary h = Ok s /\ s !! "improvement" = Some imp /\
    s !! "baseline" = Some db /\ s !! "ppo" = Some dp.
Proof.
  intros Hhb Hhp Hb Hp Nb Np.
  destruct (get_summary_total h hb hp Hhb Hhp Hb Hp) as [s Hs].
  destruct (get_summary_inv h s Hs)
    as (hb' & hp' & sb & sp & Hhb' & Hhp' & Hsb & Hsp & Esb & Esp & _ & Hi).
  rewrite Hhb in Hhb'. injection Hhb' as <-.
  rewrite Hhp in Hhp'. injection Hhp' as <-.
  destruct sb as [db|]; [|exfalso; apply Nb, summarize_None, Hsb].
  destruct sp as [dp|]; [|exfalso; apply Np, summarize_None, Hsp].
  destruct Hi as (cv & cr & sd & pa & _ & _ & _ & _ & Hi).
  eexists s, _, db, dp. repeat split; eassumption.
Qed.

(** The collector with two baseline records and one PPO record. *)
Lemma improvement_has_sign_of_difference_witness :
  exists (s : gmap string (gmap string R)) (b p : gmap string R),
    get_summary example_history = Ok s /\
    s !! "baseline" = Some b /\ s !! "ppo" = Some p.
Proof.
  destruct (get_summary_total_entries example_history _ _ eq_refl eq_refl
              (proj1 example_history_full) (proj2 example_history_full)
              ltac:(discriminate) ltac:(discriminate))
    as (s & imp & db & dp & Hs & Himp & _ & _).
  destruct (improvement_has_sign_of_difference example_history s imp Hs Himp)
    as (b & p & Hb & Hp & _).
  exists s, b, p. repeat split; assumption.
Defined.

(** The baseline entry of the same collector. *)
Lemma summary_average_speed_at_most_maximum_witness :
  exists (s : gmap string (gmap string R)) (d : gmap string R) (avg mx : R),
    get_summary example_history = Ok s /\
    d !! "avg_exec_speed" = Some avg /\ d !! "max_exec_speed" = Some mx /\
    (avg <= mx)%R.
Proof.
  destruct (get_summary_total_entries example_history _ _ eq_refl eq_refl
              (proj1 example_history_full) (proj2 example_history_full)
              ltac:(discriminate) ltac:(discriminate))
    as (s & imp & db & dp & Hs & _ & Hdb & _).
  destruct (summary_average_speed_at_most_maximum example_history s
              "baseline" db Hs (or_introl eq_refl) Hdb)
    as (history & final & avg & mx & _ & _ & Havg & Hmx & Hle & _).
  exists s, db, avg, mx. repeat split; assumption.
Defined.

(** * Further properties of the control loop *)

Section LoopMore.
Context `{Arith F}.
Context {M G : Type}.
Variable sample : M -> list F -> G -> (Z * F * F) * G.
Variable ppo_epoch : config F -> M -> batch F -> M * F.
Variable py_int : string -> option Z.
Variable py_float : string -> option F.


Lemma update_cfg (a : agent F M) : cfg (fst (update ppo_epoch a)) = cfg a.
Proof.
  destruct (Z.lt_ge_cases (Z.of_nat (length (states (buf a))))
              (batch_size (cfg a))) as [Hlt | Hge].
  - rewrite (update_small ppo_epoch a Hlt). reflexivity.
  - rewrite (update_large ppo_epoch a Hge). reflexivity.
Qed.

Lemma update_Raise (a : agent F M) (e : exn) :
  snd (update ppo_epoch a) = Raise e ->
  e = ZeroDivisionError /\ epochs (cfg a) = 0%Z.
Proof.
  destruct (Z.lt_ge_cases (Z.of_nat (length (states (buf a))))
              (batch_size (cfg a))) as [Hlt | Hge].
  - rewrite (update_small ppo_epoch a Hlt). discriminate.
  - rewrite (update_large ppo_epoch a Hge). simpl.
    destruct (Z.eqb_spec (epochs (cfg a)) 0) as [Hz | _]; [|discriminate].
    intros [= <-]. split; [reflexivity | exact Hz].
Qed.

Lemma update_Ok_epochs (a : agent F M) :
  epochs (cfg a) <> 0%Z -> exists loss, snd (update ppo_epoch a) = Ok loss.
Proof.
  intros Hne. destruct (snd (update ppo_epoch a)) as [loss|e] eqn:Hu; [eauto|].
  apply update_Raise in Hu as [_ Hz]. contradiction.
Qed.

(** The cases of one pass. *)
Lemma tick_cases (s : loop_state F M G) (i : tick_input) :
  (exists e, get_metrics py_int py_float (telemetry i) (runtime i) = Raise e /\
             tick sample ppo_epoch py_int py_float s i = (s, Raise e)) \/
  (exists curr,
     get_metrics py_int py_float (telemetry i) (runtime i) = Ok curr /\
     ((prev_metrics s = None /\
       tick sample ppo_epoch py_int py_float s i =
         ({| ppo := ppo s; rng := rng s; prev_metrics := Some curr;
             ppo_update_counter := ppo_update_counter s;
             history := history s ++ [curr]; applied := applied s |}, Ok tt)) \/
      (exists prev action log_prob value g,
         prev_metrics s = Some prev /\
         sample (policy (ppo s)) (get_state_vector curr) (rng s)
           = ((action, log_prob, value), g) /\
         ((exists e, compute_reward (cfg (ppo s)) prev curr = Raise e /\
                     snd (tick sample ppo_epoch py_int py_float s i) = Raise e) \/
          (exists reward,
             compute_reward (cfg (ppo s)) prev curr = Ok reward /\
             let a := store_transition (ppo s) (get_state_vector curr) action
                        reward log_prob value (done_now i) in
             let counter := (ppo_update_counter s + 1)%Z in
             if (counter >=? update_interval (cfg (ppo s)))%Z then
               match snd (update ppo_epoch a) with
               | Raise e =>
                   snd (tick sample ppo_epoch py_int py_float s i) = Raise e
               | Ok _ =>
                   tick sample ppo_epoch py_int py_float s i =
                     ({| ppo := fst (update ppo_epoch a); rng := g;
                         prev_metrics := Some curr; ppo_update_counter := 0;
                         history := history s ++ [curr];
                         applied := applied s ++ [action] |}, Ok tt)
               end
             else
               tick sample ppo_epoch py_int py_float s i =
                 ({| ppo := a; rng := g; prev_metrics := Some curr;
                     ppo_update_counter := counter;
                     history := history s ++ [curr];
                     applied := applied s ++ [action] |}, Ok tt)))))).
Proof.
  unfold tick.
  destruct (get_metrics py_int py_float (telemetry i) (runtime i)) as [curr|e];
    [right | left; eauto].
  exists curr. split; [reflexivity|].
  destruct (prev_metrics s) as [prev|]; [right | left; split; reflexivity].
  unfold select_action.
  destruct (sample (policy (ppo s)) (get_state_vector curr) (rng s))
    as [[[action log_prob] value] g].
  exists prev, action, log_prob, value, g.
  split; [reflexivity|]. split; [reflexivity|].
  destruct (compute_reward (cfg (ppo s)) prev curr) as [reward|e];
    [right | left; eauto].
  exists reward. split; [reflexivity|]. simpl.
  destruct (ppo_update_counter s + 1 >=? update_interval (cfg (ppo s)))%Z;
    [|reflexivity].
  destruct (update ppo_epoch _) as [a' [loss|e]]; reflexivity.
Qed.
End LoopMore.

Section UpdateRaises.
Context `{Arith F}.
Context {M : Type}.
Variable ppo_epoch : config F -> M -> batch F -> M * F.

End UpdateRaises.



Section LoopInvariant.
Context `{Arith F}.
Context {M G : Type}.
Variable sample : M -> list F -> G -> (Z * F * F) * G.
Variable ppo_epoch : config F -> M -> batch F -> M * F.
Variable py_int : string -> option Z.
Variable py_float : string -> option F.

Lemma tick_cfg (s : loop_state F M G) (i : tick_input) :
  cfg (ppo (fst (tick sample ppo_epoch py_int py_float s i))) = cfg (ppo s).
Proof.
  destruct (tick_cases sample ppo_epoch py_int py_float s i)
    as [(e & _ & ->) | (curr & _ & [[_ ->] | (prev & action & lp & value & g & Hp & Hs & Hr)])];
    try reflexivity.
  unfold tick.
  destruct (get_metrics py_int py_float (telemetry i) (runtime i)) as [curr'|];
    [|reflexivity].
  rewrite Hp. unfold select_action.
  destruct (sample (policy (ppo s)) (get_state_vector curr') (rng s))
    as [[[action' lp'] value'] g'].
  destruct (compute_reward (cfg (ppo s)) prev curr'); [|reflexivity].
  simpl.
  destruct (_ >=? _)%Z; [|reflexivity].
  destruct (update ppo_epoch _) as [a' [loss|e]] eqn:Hu; simpl;
    change a' with (fst (a', @Ok F loss)) || change a' with (fst (a', @Raise F e));
    rewrite <- Hu, update_cfg; reflexivity.
Qed.

Lemma ticks_cfg (inputs : list tick_input) (s : loop_state F M G) :
  cfg (ppo (fst (ticks sample ppo_epoch py_int py_float s inputs))) = cfg (ppo s).
Proof.
  revert s; induction inputs as [|i inputs IH]; intros s; simpl; [reflexivity|].
  pose proof (tick_cfg s i) as Hc.
  destruct (tick sample ppo_epoch py_int py_float s i) as [s' [u|e]];
    simpl in Hc; [rewrite IH | simpl]; exact Hc.
Qed.

Lemma tick_inv (c : config F) (s s' : loop_state F M G) (i : tick_input) :
  loop_inv c s ->
  tick sample ppo_epoch py_int py_float s i = (s', Ok tt) ->
  loop_inv c s' /\ length (history s') = S (length (history s)).
Proof.
  intros (Hc & Hwf & Hcnt & Hprev & Hlen) Ht.
  destruct (tick_cases sample ppo_epoch py_int py_float s i)
    as [(e & _ & Ht') | (curr & _ & [[Hp Ht'] | (prev & action & lp & value & g & Hp & _ & Hr)])].
  - rewrite Ht' in Ht. discriminate.
  - rewrite Ht' in Ht. injection Ht as <-. unfold loop_inv. simpl.
    rewrite Hp in Hlen. rewrite length_app, last_snoc. simpl.
    split; [|lia]. split; [exact Hc|]. split; [exact Hwf|].
    split; [exact Hcnt|]. split; [reflexivity | lia].
  - destruct Hr as [(e & _ & Hr) | (reward & _ & Hr)];
      [rewrite Ht in Hr; discriminate|].
    rewrite Hp in Hlen. simpl in Hr.
    set (a := store_transition (ppo s) (get_state_vector curr) action reward
                lp value (done_now i)) in *.
    assert (Hwfa : buffer_wf (buf a)) by (apply store_transition_wf, Hwf).
    assert (Hla : length (states (buf a)) = S (length (states (buf (ppo s)))))
      by (unfold a; simpl; rewrite length_app; simpl; lia).
    destruct (ppo_update_counter s + 1 >=? update_interval (cfg (ppo s)))%Z.
    + destruct (snd (update ppo_epoch a)) as [loss|e] eqn:Hu;
        [|rewrite Ht in Hr; discriminate].
      rewrite Hr in Ht. injection Ht as <-. unfold loop_inv. simpl.
      rewrite !length_app, last_snoc. simpl.
      split; [|lia]. split; [rewrite update_cfg; exact Hc|].
      split; [apply update_wf, Hwfa|].
      split; [lia|]. split; [reflexivity | lia].
    + rewrite Hr in Ht. injection Ht as <-. unfold loop_inv.
      cbn [ppo rng prev_metrics ppo_update_counter history applied].
      rewrite !length_app, last_snoc. cbn [length].
      split; [|lia]. split; [exact Hc|]. split; [exact Hwfa|].
      rewrite Hla. split; [lia|]. split; [reflexivity | lia].
Qed.

Lemma ticks_inv (c : config F) (inputs : list tick_input)
    (s s' : loop_state F M G) :
  loop_inv c s ->
  ticks sample ppo_epoch py_int py_float s inputs = (s', Ok tt) ->
  loop_inv c s' /\
  length (history s') = (length (history s) + length inputs)%nat.
Proof.
  revert s; induction inputs as [|i inputs IH]; intros s Hinv Ht; simpl in Ht.
  - injection Ht as <-. split; [exact Hinv | simpl; lia].
  - destruct (tick sample ppo_epoch py_int py_float s i) as [s1 [[]|e]] eqn:Hi;
      [|discriminate].
    destruct (tick_inv c s s1 i Hinv Hi) as [Hinv1 Hlen1].
    destruct (IH s1 Hinv1 Ht) as [Hinv' Hlen']. split; [exact Hinv'|].
    rewrite Hlen', Hlen1. simpl. lia.
Qed.

Lemma start_inv (c : config F) (m0 : M) (g : G) : loop_inv c (start c m0 g).
Proof.
  unfold loop_inv. simpl. split; [reflexivity|].
  split; [repeat split; reflexivity|]. split; [lia|]. split; reflexivity.
Qed.

Lemma ticks_from_start (c : config F) (m0 : M) (g : G)
    (inputs : list tick_input) (s : loop_state F M G) :
  ticks sample ppo_epoch py_int py_float (start c m0 g) inputs = (s, Ok tt) ->
  cfg (ppo s) = c /\
  buffer_wf (buf (ppo s)) /\
  (0 <= ppo_update_counter s <= Z.of_nat (length (states (buf (ppo s)))))%Z /\
  prev_metrics s = last (history s) /\
  length (history s) = length inputs /\
  length (applied s) = Nat.pred (length inputs).
Proof.
  intros Ht.
  destruct (ticks_inv c inputs _ s (start_inv c m0 g) Ht)
    as [(Hc & Hwf & Hcnt & Hprev & Hlen) Hh].
  simpl in Hh. split; [exact Hc|]. split; [exact Hwf|]. split; [exact Hcnt|].
  split; [exact Hprev|]. split; [exact Hh|].
  rewrite Hh in Hlen. rewrite Hprev in Hlen.
  destruct (last (history s)) eqn:Hl; [lia|].
  apply last_None in Hl. rewrite Hl in Hh. simpl in Hh. rewrite <- Hh. simpl. lia.
Qed.
End LoopInvariant.

(** X29.  When every pass of a run succeeds, the loop has recorded one
    snapshot per pass and applied one mutation strategy per pass but the
    first; the configuration is the one the run started with, the buffer's
    six lists have one length, the update counter is at most the number of
    transitions in the buffer, and [prev_metrics] is the snapshot recorded
    last. *)
Theorem completed_passes_keep_loop_invariant :
  forall (F : Type) (HA : Arith F) (M G : Type)
         (sample : M -> list F -> G -> (Z * F * F) * G)
         (ppo_epoch : config F -> M -> batch F -> M * F)
         (py_int : string -> option Z) (py_float : string -> option F)
         (c : config F) (m0 : M) (g : G) (inputs : list tick_input)
         (s : loop_state F M G),
    ticks sample ppo_epoch py_int py_float (start c m0 g) inputs = (s, Ok tt) ->
    cfg (ppo s) = c /\
    buffer_wf (buf (ppo s)) /\
    (0 <= ppo_update_counter s <= Z.of_nat (length (states (buf (ppo s)))))%Z /\
    prev_metrics s = last (history s) /\
    length (history s) = length inputs /\
    length (applied s) = Nat.pred (length inputs).
Proof.
  intros F HA M G sample ppo_epoch py_int py_float c m0 g inputs s Ht.
  exact (ticks_from_start sample ppo_epoch py_int py_float c m0 g inputs s Ht).
Qed.

(** The two passes of the worked example: two snapshots, one action. *)
Lemma completed_passes_keep_loop_invariant_witness :
  let s := fst (ticks stub_sample stub_epoch stub_int
                  (@stub_float float float_arith)
                  (start example_config 0%Z 0%nat) [first_pass; second_pass]) in
  length (history s) = 2%nat /\ length (applied s) = 1%nat /\
  ppo_update_counter s = 1%Z.
Proof.
  intros s.
  assert (Hrun : ticks stub_sample stub_epoch stub_int
                   (@stub_float float float_arith)
                   (start example_config 0%Z 0%nat) [first_pass; second_pass]
                 = (s, Ok tt)) by (vm_compute; reflexivity).
  destruct (completed_passes_keep_loop_invariant float float_arith Z nat
              stub_sample stub_epoch stub_int (@stub_float float float_arith)
              example_config 0%Z 0%nat [first_pass; second_pass] s Hrun)
    as (_ & _ & _ & _ & Hh & Ha).
  split; [exact Hh|]. split; [exact Ha|]. vm_compute. reflexivity.
Defined.

Section FinalUpdate.
Context `{Arith F}.
Context {M G : Type}.
Variable sample : M -> list F -> G -> (Z * F * F) * G.
Variable ppo_epoch : config F -> M -> batch F -> M * F.
Variable py_int : string -> option Z.
Variable py_float : string -> option F.

Lemma finally_clause_cases (s : loop_state F M G) :
  let n := Z.of_nat (length (states (buf (ppo s)))) in
  (epochs (cfg (ppo s)) = 0%Z /\ (0 < n)%Z /\
   (batch_size (cfg (ppo s)) <= n)%Z /\
   snd (final_update ppo_epoch s) = Raise ZeroDivisionError /\
   buf (ppo (fst (final_update ppo_epoch s))) = empty_buffer /\
   snd (finally_clause ppo_epoch s) = None) \/
  (~ (epochs (cfg (ppo s)) = 0%Z /\ (0 < n)%Z /\
      (batch_size (cfg (ppo s)) <= n)%Z) /\
   (exists loss, snd (final_update ppo_epoch s) = Ok loss) /\
   snd (finally_clause ppo_epoch s)
     = Some (policy (ppo (fst (finally_clause ppo_epoch s))))).
Proof.
  intros n. unfold finally_clause, final_update. fold n.
  destruct (Z.ltb_spec 0 n) as [Hpos | Hnpos];
    [|right; split; [lia | split; [eauto | reflexivity]]].
  destruct (Z.lt_ge_cases n (batch_size (cfg (ppo s)))) as [Hlt | Hge].
  - rewrite (update_small ppo_epoch (ppo s) Hlt). simpl.
    right. split; [lia | split; [eauto | reflexivity]].
  - rewrite (update_large ppo_epoch (ppo s) Hge). simpl.
    destruct (Z.eqb_spec (epochs (cfg (ppo s))) 0) as [Hz | Hnz]; simpl.
    + left. repeat split; assumption.
    + right. split; [tauto | split; [eauto | reflexivity]].
Qed.
End FinalUpdate.

(** X30.  For a configuration that defines [batch_size], and with the calls
    into torch taken to return, the [finally] clause of [run_ppo_enhanced]
    gets past the final update in every case but one, whatever the passes
    did, an exception in the loop included: when the number of epochs is
    zero and the loop leaves a buffer that is not empty and has reached the
    batch size, the final update raises [ZeroDivisionError] and
    [save_model] is not reached.  When [save_model] is reached, the
    checkpoint holds the network the agent has when the function leaves. *)
Theorem run_writes_checkpoint_unless_zero_epochs :
  forall (F : Type) (HA : Arith F) (M G : Type)
         (sample : M -> list F -> G -> (Z * F * F) * G)
         (ppo_epoch : config F -> M -> batch F -> M * F)
         (py_int : string -> option Z) (py_float : string -> option F)
         (c : config F) (m0 : M) (g : G) (inputs : list tick_input),
    let s := fst (ticks sample ppo_epoch py_int py_float (start c m0 g) inputs) in
    let n := Z.of_nat (length (states (buf (ppo s)))) in
    let r := run_ppo_enhanced sample ppo_epoch py_int py_float c m0 g inputs in
    (snd r = None <->
     epochs c = 0%Z /\ (0 < n)%Z /\ (batch_size c <= n)%Z) /\
    (snd r = None ->
     snd (final_update ppo_epoch s) = Raise ZeroDivisionError) /\
    (snd r <> None -> snd r = Some (policy (ppo (fst r)))).
Proof.
  intros F HA M G sample ppo_epoch py_int py_float c m0 g inputs s n r.
  assert (Hc : cfg (ppo s) = c) by (unfold s; apply ticks_cfg).
  unfold r, run_ppo_enhanced. fold s.
  destruct (finally_clause_cases ppo_epoch s)
    as [(Hz & Hpos & Hfull & Hraise & _ & Hnone) | (Hnot & _ & Hsome)];
    rewrite Hc in *; fold n in Hpos, Hfull || fold n in Hnot.
  - rewrite Hnone. split; [tauto|]. split; [intros _; exact Hraise|].
    intros Hne. contradiction.
  - rewrite Hsome. split; [split; [discriminate | tauto]|].
    split; [discriminate | reflexivity].
Qed.

(** With no epochs and a batch of one, a run of two passes whose periodic
    update is not due leaves one transition behind: no checkpoint.  With
    the configuration of the worked example the checkpoint is written even
    when the second pass fails on the stats file. *)
Lemma run_writes_checkpoint_unless_zero_epochs_witness :
  snd (run_ppo_enhanced stub_sample stub_epoch stub_int
         (@stub_float float float_arith) (zero_epochs_config 10) 0%Z 0%nat
         [first_pass; second_pass]) = None /\
  snd (run_ppo_enhanced stub_sample stub_epoch stub_int
         (@stub_float float float_arith) example_config 0%Z 0%nat
         [first_pass; bad_crashes_pass]) = Some 0%Z.
Proof.
  split.
  - apply (proj1 (run_writes_checkpoint_unless_zero_epochs float float_arith
                    Z nat stub_sample stub_epoch stub_int
                    (@stub_float float float_arith) (zero_epochs_config 10)
                    0%Z 0%nat [first_pass; second_pass])).
    split; [reflexivity|]. split; vm_compute; [reflexivity | discriminate].
  - rewrite (proj2 (proj2 (run_writes_checkpoint_unless_zero_epochs float
                             float_arith Z nat stub_sample stub_epoch stub_int
                             (@stub_float float float_arith) example_config
                             0%Z 0%nat [first_pass; bad_crashes_pass]))).
    + vm_compute. reflexivity.
    + intros Hnone.
      apply (proj1 (run_writes_checkpoint_unless_zero_epochs float float_arith
                      Z nat stub_sample stub_epoch stub_int
                      (@stub_float float float_arith) example_config
                      0%Z 0%nat [first_pass; bad_crashes_pass])) in Hnone
        as [Hz _].
      discriminate Hz.
Defined.
